(** * Worldmind: the SSE normalising proxy (docker/centurion-base/sse-proxy.py)

    A shallow embedding of [fix_sse_line], of the streaming loop
    [_stream_sse] and of the request-body rewrite of [ProxyHandler._proxy],
    together with the parts of the Python runtime they call: the UTF-8
    codec with the [replace] error handler, [json.loads] and [json.dumps].

    Conventions.
    - [bytes] is [list byte]; a Python [str] is the list of its code points.
    - An exception that the source does not catch is a [Raise] of the
      [result] type; [json.loads] failing with [JSONDecodeError] (a
      [ValueError], which the source catches) is [None].
    - The interpreter's resource limits (recursion depth, the limit on the
      digits of an [int], memory) are not modelled.
    - Binary floating point is the interpreter's: the text that
      [repr(float(lexeme))] prints is the parameter [float_repr]. *)

From Stdlib Require Import ZArith NArith List Bool Lia ZifyBool.
From Stdlib Require Import Strings.String Strings.Ascii Strings.Byte.
From Stdlib Require Import DecimalZ DecimalFacts DecimalPos.
Import ListNotations.

Set Warnings "-register-all".
Local Open Scope N_scope.

(** [lia] on the quotients and remainders of code points. *)
Ltac Zify.zify_post_hook ::= Z.to_euclidean_division_equations.

(** ** Bytes, strings and literals *)

Definition bytes := list byte.

(** A Python [str]: the sequence of its code points. *)
Definition pystr := list N.

(** The code points of an ASCII literal.  A JSON text is written with an
    apostrophe where it has a double quote: [lit] maps the apostrophe
    (39) to the double quote (34). *)
Definition unquote (c : N) : N := if c =? 39 then 34 else c.

Definition lit (s : string) : pystr :=
  map (fun a => unquote (N_of_ascii a)) (list_ascii_of_string s).

Definition byte_of_N (n : N) : byte :=
  match Byte.of_N n with Some b => b | None => x00 end.

(** The bytes of an ASCII literal, with the same convention. *)
Definition blit (s : string) : bytes := map byte_of_N (lit s).

Arguments lit : simpl never.
Arguments blit : simpl never.

Definition LF : bytes := [x0a].
Definition CR : bytes := [x0d].

Fixpoint starts_with {A} (eqb : A -> A -> bool) (p s : list A) : bool :=
  match p, s with
  | [], _ => true
  | _ :: _, [] => false
  | a :: p', b :: s' => eqb a b && starts_with eqb p' s'
  end.

(** [str.startswith] and [bytes.startswith]. *)
Definition str_startswith (s p : pystr) : bool := starts_with N.eqb p s.
Definition bytes_startswith (s p : bytes) : bool := starts_with Byte.eqb p s.

Fixpoint list_eqb {A} (eqb : A -> A -> bool) (x y : list A) : bool :=
  match x, y with
  | [], [] => true
  | a :: x', b :: y' => eqb a b && list_eqb eqb x' y'
  | _, _ => false
  end.

Definition str_eqb : pystr -> pystr -> bool := list_eqb N.eqb.
Definition bytes_eqb : bytes -> bytes -> bool := list_eqb Byte.eqb.

(** ** Exceptions *)

Inductive exn : Type :=
| TypeError
| AttributeError
| UnicodeEncodeError
| BrokenPipeError.

Inductive result (A : Type) : Type :=
| Ok (a : A)
| Raise (e : exn).

Arguments Ok {A} a.
Arguments Raise {A} e.

Definition bind {A B} (m : result A) (k : A -> result B) : result B :=
  match m with
  | Ok a => k a
  | Raise e => Raise e
  end.

Declare Scope py_scope.
Delimit Scope py_scope with py.
Notation "x <- m ;; k" := (bind m (fun x => k))
  (at level 61, m at next level, right associativity) : py_scope.
Notation "' pat <- m ;; k" := (bind m (fun x => match x with pat => k end))
  (at level 61, pat pattern, m at next level, right associativity) : py_scope.
Local Open Scope py_scope.

Fixpoint mapM {A B} (f : A -> result B) (l : list A) : result (list B) :=
  match l with
  | [] => Ok []
  | a :: l' => b <- f a ;; bs <- mapM f l' ;; Ok (b :: bs)
  end.

(** ** The UTF-8 codec *)

Module Utf8.

(** U+FFFD, which the [replace] error handler writes for each error. *)
Definition REPLACEMENT : N := 0xFFFD.

Definition is_continuation (c : N) : bool := (0x80 <=? c) && (c <=? 0xBF).

(** The second byte of a three-byte sequence: a continuation byte that
    makes neither an overlong form (E0 80..9F) nor a surrogate
    (ED A0..BF). *)
Definition second_of_3 (c1 c2 : N) : bool :=
  is_continuation c2
  && negb ((c1 =? 0xE0) && (c2 <? 0xA0))
  && negb ((c1 =? 0xED) && (0xA0 <=? c2)).

(** The second byte of a four-byte sequence: neither overlong
    (F0 80..8F) nor above U+10FFFF (F4 90..BF). *)
Definition second_of_4 (c1 c2 : N) : bool :=
  is_continuation c2
  && negb ((c1 =? 0xF0) && (c2 <? 0x90))
  && negb ((c1 =? 0xF4) && (0x90 <=? c2)).

(** [bytes.decode("utf-8", errors="replace")].  CPython reports an invalid
    start byte as an error of one byte, an invalid continuation byte as an
    error covering the bytes of the sequence read so far, and a sequence
    cut by the end of the input as one error up to the end; [replace]
    writes one U+FFFD per error and resumes after it. *)
Fixpoint decode (bs : bytes) : pystr :=
  match bs with
  | [] => []
  | b1 :: r1 =>
    let c1 := Byte.to_N b1 in
    if c1 <? 0x80 then c1 :: decode r1
    else if c1 <? 0xC2 then REPLACEMENT :: decode r1
    else if c1 <? 0xE0 then
      match r1 with
      | [] => [REPLACEMENT]
      | b2 :: r2 =>
        let c2 := Byte.to_N b2 in
        if is_continuation c2
        then ((c1 - 0xC0) * 64 + (c2 - 0x80)) :: decode r2
        else REPLACEMENT :: decode r1
      end
    else if c1 <? 0xF0 then
      match r1 with
      | [] => [REPLACEMENT]
      | b2 :: r2 =>
        let c2 := Byte.to_N b2 in
        if second_of_3 c1 c2 then
          match r2 with
          | [] => [REPLACEMENT]
          | b3 :: r3 =>
            let c3 := Byte.to_N b3 in
            if is_continuation c3
            then ((c1 - 0xE0) * 4096 + (c2 - 0x80) * 64 + (c3 - 0x80))
                   :: decode r3
            else REPLACEMENT :: decode r2
          end
        else REPLACEMENT :: decode r1
      end
    else if c1 <? 0xF5 then
      match r1 with
      | [] => [REPLACEMENT]
      | b2 :: r2 =>
        let c2 := Byte.to_N b2 in
        if second_of_4 c1 c2 then
          match r2 with
          | [] => [REPLACEMENT]
          | b3 :: r3 =>
            let c3 := Byte.to_N b3 in
            if is_continuation c3 then
              match r3 with
              | [] => [REPLACEMENT]
              | b4 :: r4 =>
                let c4 := Byte.to_N b4 in
                if is_continuation c4
                then ((c1 - 0xF0) * 262144 + (c2 - 0x80) * 4096
                      + (c3 - 0x80) * 64 + (c4 - 0x80)) :: decode r4
                else REPLACEMENT :: decode r3
              end
            else REPLACEMENT :: decode r2
          end
        else REPLACEMENT :: decode r1
      end
    else REPLACEMENT :: decode r1
  end.

Definition is_surrogate (c : N) : bool := (0xD800 <=? c) && (c <=? 0xDFFF).

(** A code point that [str.encode("utf-8")] accepts. *)
Definition scalar (c : N) : bool := (c <? 0x110000) && negb (is_surrogate c).

Definition encode_char (c : N) : bytes :=
  if c <? 0x80 then [byte_of_N c]
  else if c <? 0x800 then
    [byte_of_N (0xC0 + c / 64); byte_of_N (0x80 + c mod 64)]
  else if c <? 0x10000 then
    [byte_of_N (0xE0 + c / 4096); byte_of_N (0x80 + (c / 64) mod 64);
     byte_of_N (0x80 + c mod 64)]
  else
    [byte_of_N (0xF0 + c / 262144); byte_of_N (0x80 + (c / 4096) mod 64);
     byte_of_N (0x80 + (c / 64) mod 64); byte_of_N (0x80 + c mod 64)].

(** [str.encode("utf-8")]: strict, a surrogate raises. *)
Fixpoint encode (s : pystr) : result bytes :=
  match s with
  | [] => Ok []
  | c :: s' =>
    if scalar c
    then bs <- encode s' ;; Ok (encode_char c ++ bs)
    else Raise UnicodeEncodeError
  end.

End Utf8.

(** ** Python objects that [json.loads] builds *)

(** A [float] stands as the text that [repr] prints for it; a [dict] is
    the list of its items in insertion order, with distinct keys. *)
Inductive pyobj : Type :=
| PyNone
| PyBool (b : bool)
| PyInt (z : Z)
| PyFloat (repr : pystr)
| PyStr (s : pystr)
| PyList (l : list pyobj)
| PyDict (d : list (pystr * pyobj)).

Definition pydict := list (pystr * pyobj).

Fixpoint dict_get (d : pydict) (k : pystr) : option pyobj :=
  match d with
  | [] => None
  | (k', v) :: d' => if str_eqb k' k then Some v else dict_get d' k
  end.

(** [d[k] = v]: an existing key keeps its place, a new key goes last. *)
Fixpoint dict_set (d : pydict) (k : pystr) (v : pyobj) : pydict :=
  match d with
  | [] => [(k, v)]
  | (k', v') :: d' =>
    if str_eqb k' k then (k', v) :: d' else (k', v') :: dict_set d' k v
  end.

Definition dict_has (d : pydict) (k : pystr) : bool :=
  match dict_get d k with Some _ => true | None => false end.

(** ** Characters of the JSON grammar *)

Definition ch (a : ascii) : N := N_of_ascii a.
Definition DQUOTE : N := 34.
Definition BACKSLASH : N := 92.

Definition is_digit (c : N) : bool := (48 <=? c) && (c <=? 57).

Definition is_whitespace (c : N) : bool :=
  (c =? 32) || (c =? 9) || (c =? 10) || (c =? 13).

Fixpoint skip_ws (s : pystr) : pystr :=
  match s with
  | c :: r => if is_whitespace c then skip_ws r else s
  | [] => []
  end.

Fixpoint span_digits (s : pystr) : pystr * pystr :=
  match s with
  | c :: r =>
    if is_digit c then let '(ds, r') := span_digits r in (c :: ds, r')
    else ([], s)
  | [] => ([], [])
  end.

(** ** Decimal integers: [int(text)] and [int.__repr__] *)

Fixpoint uint_of_digits (ds : pystr) : Decimal.uint :=
  match ds with
  | [] => Decimal.Nil
  | c :: r =>
    let u := uint_of_digits r in
    match c - 48 with
    | 0 => Decimal.D0 u | 1 => Decimal.D1 u | 2 => Decimal.D2 u
    | 3 => Decimal.D3 u | 4 => Decimal.D4 u | 5 => Decimal.D5 u
    | 6 => Decimal.D6 u | 7 => Decimal.D7 u | 8 => Decimal.D8 u
    | _ => Decimal.D9 u
    end
  end.

Fixpoint digits_of_uint (u : Decimal.uint) : pystr :=
  match u with
  | Decimal.Nil => []
  | Decimal.D0 r => 48 :: digits_of_uint r
  | Decimal.D1 r => 49 :: digits_of_uint r
  | Decimal.D2 r => 50 :: digits_of_uint r
  | Decimal.D3 r => 51 :: digits_of_uint r
  | Decimal.D4 r => 52 :: digits_of_uint r
  | Decimal.D5 r => 53 :: digits_of_uint r
  | Decimal.D6 r => 54 :: digits_of_uint r
  | Decimal.D7 r => 55 :: digits_of_uint r
  | Decimal.D8 r => 56 :: digits_of_uint r
  | Decimal.D9 r => 57 :: digits_of_uint r
  end.

(** [int(text)] for a text of decimal digits with an optional sign. *)
Definition int_of_digits (neg : bool) (ds : pystr) : Z :=
  let n := Z.of_N (N.of_uint (uint_of_digits ds)) in
  if neg then (- n)%Z else n.

Definition int_repr (z : Z) : pystr :=
  let ds := digits_of_uint (N.to_uint (Z.abs_N z)) in
  if (z <? 0)%Z then ch "-" :: ds else ds.

(** ** [json.dumps] *)

Definition hexdigit (d : N) : N := if d <? 10 then 48 + d else 87 + d.

(** [\uXXXX] with lower-case digits. *)
Definition escape_u (c : N) : pystr :=
  [BACKSLASH; ch "u"; hexdigit (c / 4096); hexdigit ((c / 256) mod 16);
   hexdigit ((c / 16) mod 16); hexdigit (c mod 16)].

(** One character of [py_encode_basestring_ascii]. *)
Definition escape_char (c : N) : pystr :=
  if c =? DQUOTE then [BACKSLASH; DQUOTE]
  else if c =? BACKSLASH then [BACKSLASH; BACKSLASH]
  else if c =? 10 then [BACKSLASH; ch "n"]
  else if c =? 13 then [BACKSLASH; ch "r"]
  else if c =? 9 then [BACKSLASH; ch "t"]
  else if c =? 8 then [BACKSLASH; ch "b"]
  else if c =? 12 then [BACKSLASH; ch "f"]
  else if (32 <=? c) && (c <=? 126) then [c]
  else if c <? 0x10000 then escape_u c
  else escape_u (0xD800 + (c - 0x10000) / 1024)
       ++ escape_u (0xDC00 + (c - 0x10000) mod 1024).

Definition encode_basestring_ascii (s : pystr) : pystr :=
  DQUOTE :: flat_map escape_char s ++ [DQUOTE].

(** [sep.join(chunks)]. *)
Fixpoint str_join (sep : pystr) (chunks : list pystr) : pystr :=
  match chunks with
  | [] => []
  | [x] => x
  | x :: r => x ++ sep ++ str_join sep r
  end.

Section Dumps.

(** [separators=(item_sep, key_sep)]. *)
Variables item_sep key_sep : pystr.

(** [JSONEncoder.encode] with [ensure_ascii=True], [allow_nan=True], no
    indentation and no key sorting. *)
Fixpoint dumps_with (o : pyobj) : pystr :=
  match o with
  | PyNone => lit "null"
  | PyBool true => lit "true"
  | PyBool false => lit "false"
  | PyInt z => int_repr z
  | PyFloat r => r
  | PyStr s => encode_basestring_ascii s
  | PyList l => ch "[" :: str_join item_sep (map dumps_with l) ++ [ch "]"]
  | PyDict d =>
    ch "{" ::
    str_join item_sep
      (map (fun '(k, v) =>
              encode_basestring_ascii k ++ key_sep ++ dumps_with v) d)
    ++ [ch "}"]
  end.

End Dumps.

(** [json.dumps(o, separators=(",", ":"))]. *)
Definition dumps_compact : pyobj -> pystr := dumps_with (lit ",") (lit ":").

(** [json.dumps(o)]. *)
Definition dumps_default : pyobj -> pystr := dumps_with (lit ", ") (lit ": ").

(** ** [json.loads] on a [str] *)

Definition hexval (c : N) : option N :=
  if (48 <=? c) && (c <=? 57) then Some (c - 48)
  else if (97 <=? c) && (c <=? 102) then Some (c - 87)
  else if (65 <=? c) && (c <=? 70) then Some (c - 55)
  else None.

Definition hex4 (a b c d : N) : option N :=
  match hexval a, hexval b, hexval c, hexval d with
  | Some x, Some y, Some z, Some w => Some (((x * 16 + y) * 16 + z) * 16 + w)
  | _, _, _, _ => None
  end.

Definition is_high_surrogate (c : N) : bool := (0xD800 <=? c) && (c <=? 0xDBFF).
Definition is_low_surrogate (c : N) : bool := (0xDC00 <=? c) && (c <=? 0xDFFF).

Definition join_surrogates (hi lo : N) : N :=
  0x10000 + (hi - 0xD800) * 1024 + (lo - 0xDC00).

(** The character that follows a backslash, [u] apart. *)
Definition unescape (e : N) : option N :=
  if e =? DQUOTE then Some DQUOTE
  else if e =? BACKSLASH then Some BACKSLASH
  else if e =? ch "/" then Some (ch "/")
  else if e =? ch "b" then Some 8
  else if e =? ch "f" then Some 12
  else if e =? ch "n" then Some 10
  else if e =? ch "r" then Some 13
  else if e =? ch "t" then Some 9
  else None.

Definition cons_str (c : N) (r : option (pystr * pystr))
  : option (pystr * pystr) :=
  match r with
  | Some (s, rest) => Some (c :: s, rest)
  | None => None
  end.

(** [scanstring] in strict mode, from the character after the opening
    quote: the string and what follows its closing quote. *)
Fixpoint scanstring (s : pystr) : option (pystr * pystr) :=
  match s with
  | [] => None
  | c :: r =>
    if c =? DQUOTE then Some ([], r)
    else if c =? BACKSLASH then
      match r with
      | [] => None
      | e :: r1 =>
        if e =? ch "u" then
          match r1 with
          | h1 :: h2 :: h3 :: h4 :: r2 =>
            match hex4 h1 h2 h3 h4 with
            | None => None
            | Some u =>
              if is_high_surrogate u then
                match r2 with
                | b :: u' :: g1 :: g2 :: g3 :: g4 :: r3 =>
                  if (b =? BACKSLASH) && (u' =? ch "u") then
                    match hex4 g1 g2 g3 g4 with
                    | None => None
                    | Some u2 =>
                      if is_low_surrogate u2
                      then cons_str (join_surrogates u u2) (scanstring r3)
                      else cons_str u (scanstring r2)
                    end
                  else cons_str u (scanstring r2)
                | _ => cons_str u (scanstring r2)
                end
              else cons_str u (scanstring r2)
            end
          | _ => None
          end
        else
          match unescape e with
          | Some x => cons_str x (scanstring r1)
          | None => None
          end
      end
    else if c <? 32 then None
    else cons_str c (scanstring r)
  end.

(** The parts of [NUMBER_RE]: an optional minus sign; a zero, or a
    non-zero digit with any digits after it; a point with its digits, if
    a digit follows the point; [e] or [E] with an optional sign and its
    digits, if a digit follows them.  Each gives what it read and what is
    left. *)
Definition scan_sign (s : pystr) : bool * pystr :=
  match s with
  | c :: r => if c =? ch "-" then (true, r) else (false, s)
  | [] => (false, s)
  end.

Definition scan_int (s : pystr) : option (pystr * pystr) :=
  match s with
  | [] => None
  | d :: r =>
    if is_digit d then
      if d =? 48 then Some ([d], r)
      else let '(ds, r1) := span_digits r in Some (d :: ds, r1)
    else None
  end.

Definition scan_frac (s : pystr) : pystr * pystr :=
  match s with
  | p :: r =>
    if p =? ch "." then
      match span_digits r with
      | ([], _) => ([], s)
      | (fs, r') => (p :: fs, r')
      end
    else ([], s)
  | [] => ([], s)
  end.

Definition scan_exp (s : pystr) : pystr * pystr :=
  match s with
  | e :: r =>
    if (e =? ch "e") || (e =? ch "E") then
      let '(sg, r') :=
        match r with
        | x :: t => if (x =? ch "-") || (x =? ch "+") then ([x], t) else ([], r)
        | [] => ([], r)
        end in
      match span_digits r' with
      | ([], _) => ([], s)
      | (es, r'') => (e :: sg ++ es, r'')
      end
    else ([], s)
  | [] => ([], s)
  end.

Section Loads.

(** [float_repr lexeme] is the text of [repr(float(lexeme))] for the
    lexeme of a number with a fraction or an exponent. *)
Variable float_repr : pystr -> pystr.

(** A match of [NUMBER_RE]: an [int] unless a fraction or an exponent was
    read. *)
Definition match_number (s : pystr) : option (pyobj * pystr) :=
  let '(neg, s1) := scan_sign s in
  match scan_int s1 with
  | None => None
  | Some (digits, r1) =>
    let '(frac, r2) := scan_frac r1 in
    let '(exp, r3) := scan_exp r2 in
    match frac, exp with
    | [], [] => Some (PyInt (int_of_digits neg digits), r3)
    | _, _ =>
      Some (PyFloat (float_repr
              ((if neg then [ch "-"] else []) ++ digits ++ frac ++ exp)),
            r3)
    end
  end.

(** [scan_once], [JSONObject] and [JSONArray].  The fuel bounds the calls;
    every call reads at least one character, so the length of the text is
    enough. *)
Fixpoint scan_once (fuel : nat) (s : pystr) : option (pyobj * pystr) :=
  match fuel with
  | O => None
  | S n =>
    match s with
    | [] => None
    | c :: r =>
      if c =? DQUOTE then
        match scanstring r with
        | Some (str, rest) => Some (PyStr str, rest)
        | None => None
        end
      else if c =? ch "{" then
        match skip_ws r with
        | x :: r' =>
          if x =? ch "}" then Some (PyDict [], r')
          else parse_pairs n [] (x :: r')
        | [] => None
        end
      else if c =? ch "[" then
        match skip_ws r with
        | x :: r' =>
          if x =? ch "]" then Some (PyList [], r')
          else parse_items n [] (x :: r')
        | [] => None
        end
      else if str_startswith s (lit "null") then Some (PyNone, skipn 4 s)
      else if str_startswith s (lit "true") then Some (PyBool true, skipn 4 s)
      else if str_startswith s (lit "false")
      then Some (PyBool false, skipn 5 s)
      else if str_startswith s (lit "NaN")
      then Some (PyFloat (lit "NaN"), skipn 3 s)
      else if str_startswith s (lit "Infinity")
      then Some (PyFloat (lit "Infinity"), skipn 8 s)
      else if str_startswith s (lit "-Infinity")
      then Some (PyFloat (lit "-Infinity"), skipn 9 s)
      else match_number s
    end
  end
with parse_pairs (fuel : nat) (d : pydict) (s : pystr)
  : option (pyobj * pystr) :=
  match fuel with
  | O => None
  | S n =>
    match s with
    | [] => None
    | q :: r =>
      if q =? DQUOTE then
        match scanstring r with
        | None => None
        | Some (key, r1) =>
          match skip_ws r1 with
          | [] => None
          | colon :: r2 =>
            if colon =? ch ":" then
              match scan_once n (skip_ws r2) with
              | None => None
              | Some (val, r3) =>
                let d' := dict_set d key val in
                match skip_ws r3 with
                | [] => None
                | x :: r4 =>
                  if x =? ch "}" then Some (PyDict d', r4)
                  else if x =? ch "," then parse_pairs n d' (skip_ws r4)
                  else None
                end
              end
            else None
          end
        end
      else None
    end
  end
with parse_items (fuel : nat) (acc : list pyobj) (s : pystr)
  : option (pyobj * pystr) :=
  match fuel with
  | O => None
  | S n =>
    match scan_once n s with
    | None => None
    | Some (val, r1) =>
      match skip_ws r1 with
      | [] => None
      | x :: r2 =>
        if x =? ch "]" then Some (PyList (acc ++ [val]), r2)
        else if x =? ch "," then parse_items n (acc ++ [val]) (skip_ws r2)
        else None
      end
    end
  end.

(** [json.loads(s)] for a [str]: [None] is [JSONDecodeError]. *)
Definition loads (s : pystr) : option pyobj :=
  if str_startswith s [0xFEFF] then None
  else
    match scan_once (S (List.length s)) (skip_ws s) with
    | Some (v, r) =>
      match skip_ws r with
      | [] => Some v
      | _ :: _ => None
      end
    | None => None
    end.

End Loads.

(** A text that is, as a whole, the lexeme of a number with a fraction or
    an exponent. *)
Definition is_float_lexeme (t : pystr) : bool :=
  match match_number (fun lexeme => lexeme) t with
  | Some (PyFloat lexeme, []) => true
  | _ => false
  end.

(** ** The operations of Python objects that the proxy uses *)

(** [o.get(k, default)]: only a [dict] has [get]. *)
Definition py_get (o : pyobj) (k : pystr) (default : pyobj) : result pyobj :=
  match o with
  | PyDict d =>
    Ok (match dict_get d k with Some v => v | None => default end)
  | _ => Raise AttributeError
  end.

(** The items that [for x in o] visits: the elements of a [list], the
    characters of a [str], the keys of a [dict]. *)
Definition py_iter (o : pyobj) : result (list pyobj) :=
  match o with
  | PyList l => Ok l
  | PyStr s => Ok (map (fun c => PyStr [c]) s)
  | PyDict d => Ok (map (fun kv => PyStr (fst kv)) d)
  | _ => Raise TypeError
  end.

(** [sub in s] for two [str]. *)
Fixpoint str_contains (s sub : pystr) : bool :=
  str_startswith s sub
  || match s with
     | [] => false
     | _ :: s' => str_contains s' sub
     end.

(** [k in o] for a [str] [k]: a key of a [dict], an element of a [list],
    a substring of a [str]. *)
Definition py_contains (k : pystr) (o : pyobj) : result bool :=
  match o with
  | PyDict d => Ok (dict_has d k)
  | PyList l =>
    Ok (existsb (fun x => match x with
                          | PyStr s => str_eqb s k
                          | _ => false
                          end) l)
  | PyStr s => Ok (str_contains s k)
  | _ => Raise TypeError
  end.

(** [o[k] = v] for a [str] [k]: only a [dict] takes it. *)
Definition py_setitem (o : pyobj) (k : pystr) (v : pyobj) : result pyobj :=
  match o with
  | PyDict d => Ok (PyDict (dict_set d k v))
  | _ => Raise TypeError
  end.

(** [o.startswith(prefix)]: among the objects of [json.loads] only a
    [str] has it. *)
Definition py_startswith (o : pyobj) (prefix : pystr) : result bool :=
  match o with
  | PyStr s => Ok (str_startswith s prefix)
  | _ => Raise AttributeError
  end.

(** The source mutates the objects of the payload in place.  Here a loop
    body returns the item as it is after the body ran, and the item is
    stored back where it came from: in a [list] by [store_items], under
    its key by [store].  The characters of a [str] and the keys of a
    [dict] cannot be mutated, and the default of a [get] that found no
    key is dropped. *)
Definition store_items (o : pyobj) (items : list pyobj) : pyobj :=
  match o with
  | PyList _ => PyList items
  | _ => o
  end.

Definition store (o : pyobj) (k : pystr) (v : pyobj) : pyobj :=
  match o with
  | PyDict d => if dict_has d k then PyDict (dict_set d k v) else o
  | _ => o
  end.

(** [for x in o: body(x)], with whether a body set [changed]. *)
Definition for_each (o : pyobj) (body : pyobj -> result (pyobj * bool))
  : result (pyobj * bool) :=
  items <- py_iter o ;;
  rs <- mapM body items ;;
  Ok (store_items o (map fst rs), existsb snd rs).

(** ** The connection to the client *)

(** The client's side of the connection: the bytes it has received, and
    how many more writes it accepts before it hangs up ([None]: it
    stays). *)
Record wfile : Type := { sent : bytes; credit : option nat }.

Definition connected : wfile := {| sent := []; credit := None |}.

(** A command on the connection: it leaves the connection as it is when it
    ends, with its value or with the exception it raised. *)
Definition io (A : Type) : Type := wfile -> wfile * result A.

Definition ret {A} (a : A) : io A := fun w => (w, Ok a).

Definition lift {A} (r : result A) : io A := fun w => (w, r).

Definition io_bind {A B} (m : io A) (k : A -> io B) : io B :=
  fun w =>
    match m w with
    | (w', Ok a) => k a w'
    | (w', Raise e) => (w', Raise e)
    end.

Notation "x <~ m ;; k" := (io_bind m (fun x => k))
  (at level 61, m at next level, right associativity) : py_scope.
Notation "m ;;; k" := (io_bind m (fun _ => k))
  (at level 61, right associativity) : py_scope.

(** [self.wfile.write(b)]. *)
Definition write (b : bytes) : io unit :=
  fun w =>
    match credit w with
    | None => ({| sent := sent w ++ b; credit := None |}, Ok tt)
    | Some O => (w, Raise BrokenPipeError)
    | Some (S k) => ({| sent := sent w ++ b; credit := Some k |}, Ok tt)
    end.

(** [self.wfile.flush()]: the handler's [wfile] is not buffered. *)
Definition flush : io unit := ret tt.

(** ** The Event Rewriter *)

Section Proxy.

Variable float_repr : pystr -> pystr.

(** The global [MODEL_NAME]: the third argument of the process, or the
    empty string. *)
Variable MODEL_NAME : pystr.

(** The body of the inner loop of fix 2. *)
Definition fix_tool_call (tc : pyobj) : result (pyobj * bool) :=
  has <- py_contains (lit "index") tc ;;
  if negb has
  then tc' <- py_setitem tc (lit "index") (PyInt 0) ;; Ok (tc', true)
  else Ok (tc, false).

(** The body of the outer loop of fix 2. *)
Definition fix_choice (choice : pyobj) : result (pyobj * bool) :=
  delta <- py_get choice (lit "delta") (PyDict []) ;;
  tool_calls <- py_get delta (lit "tool_calls") (PyList []) ;;
  '(tool_calls', changed) <- for_each tool_calls fix_tool_call ;;
  Ok (store choice (lit "delta") (store delta (lit "tool_calls") tool_calls'),
      changed).

(** Fix 2: the payload after the loops, and [changed]. *)
Definition add_missing_index (payload : pyobj) : result (pyobj * bool) :=
  choices <- py_get payload (lit "choices") (PyList []) ;;
  '(choices', changed) <- for_each choices fix_choice ;;
  Ok (store payload (lit "choices") choices', changed).

(** Fix 3, from the payload and [changed] as fix 2 left them. *)
Definition rewrite_model (payload : pyobj) (changed : bool)
  : result (pyobj * bool) :=
  rewrite <-
    match MODEL_NAME with
    | [] => Ok false
    | _ :: _ =>
      model <- py_get payload (lit "model") (PyStr []) ;;
      py_startswith model (lit "gpt-4o-mini")
    end ;;
  if rewrite
  then payload' <- py_setitem payload (lit "model") (PyStr MODEL_NAME) ;;
       Ok (payload', true)
  else Ok (payload, changed).

Definition fix_payload (payload : pyobj) : result (pyobj * bool) :=
  '(payload, changed) <- add_missing_index payload ;;
  rewrite_model payload changed.

(** Fix 1: the space after [data:]. *)
Definition add_space (line : pystr) : pystr :=
  if str_startswith line (lit "data:")
     && negb (str_startswith line (lit "data: "))
  then lit "data: " ++ skipn 5 line
  else line.

Definition fix_sse_line (line_bytes : bytes) : result bytes :=
  let line := Utf8.decode line_bytes in
  let line := add_space line in
  if negb (str_startswith line (lit "data: {")) then Utf8.encode line
  else
    match loads float_repr (skipn 6 line) with
    | None => Utf8.encode line
    | Some payload =>
      '(payload', changed) <- fix_payload payload ;;
      if changed
      then Utf8.encode (lit "data: " ++ dumps_compact payload')
      else Utf8.encode line
    end.

(** ** The streaming loop *)

Definition is_CR_or_LF (b : byte) : bool := Byte.eqb b x0d || Byte.eqb b x0a.

(** [raw_line.rstrip(b"\r\n")]: the trailing bytes that are CR or LF go. *)
Fixpoint rstrip_crlf (l : bytes) : bytes :=
  match l with
  | [] => []
  | b :: r =>
    match rstrip_crlf r with
    | [] => if is_CR_or_LF b then [] else [b]
    | r' => b :: r'
    end
  end.

(** The lines that iterating over the response gives: each ends with its
    LF, the last one apart when the body does not end with one. *)
Fixpoint readlines (body : bytes) : list bytes :=
  match body with
  | [] => []
  | b :: r =>
    if Byte.eqb b x0a then [b] :: readlines r
    else
      match readlines r with
      | [] => [[b]]
      | l :: ls => (b :: l) :: ls
      end
  end.

(** The canonical sentinel, with the blank line that ends the event. *)
Definition DONE : bytes := blit "data: [DONE]" ++ LF ++ LF.

Definition is_sentinel (raw_line : bytes) : bool :=
  bytes_eqb raw_line (blit "data: [DONE]")
  || bytes_eqb raw_line (blit "data:[DONE]").

(** The body of the [for] loop: the value is [saw_done] after it. *)
Definition stream_line (saw_done : bool) (raw_line : bytes) : io bool :=
  let raw_line := rstrip_crlf raw_line in
  if is_sentinel raw_line then
    write DONE ;;;
    flush ;;;
    ret true
  else
    fixed <~ lift (fix_sse_line raw_line) ;;
    write (fixed ++ LF) ;;;
    (if bytes_startswith fixed (blit "data: ") then write LF else ret tt) ;;;
    flush ;;;
    ret saw_done.

Fixpoint stream_lines (saw_done : bool) (lines : list bytes) : io bool :=
  match lines with
  | [] => ret saw_done
  | raw_line :: rest =>
    saw_done' <~ stream_line saw_done raw_line ;;
    stream_lines saw_done' rest
  end.

(** [except (BrokenPipeError, ConnectionResetError)]. *)
Definition client_gone (e : exn) : bool :=
  match e with
  | BrokenPipeError => true
  | _ => false
  end.

(** [_stream_sse(resp)] on the body that the upstream sends.  The
    [finally] clause closes [resp] on every path and is not shown. *)
Definition _stream_sse (body : bytes) : io unit :=
  fun w =>
    match stream_lines false (readlines body) w with
    | (w', Raise e) => if client_gone e then (w', Ok tt) else (w', Raise e)
    | (w', Ok saw_done) =>
      if negb saw_done then
        match (write DONE ;;; flush) w' with
        | (w'', Raise e) =>
          if client_gone e then (w'', Ok tt) else (w'', Raise e)
        | r => r
        end
      else (w', Ok tt)
    end.

(** ** The request body *)

(** [json.loads] on [bytes] first decodes them, with the encoding that
    [json.detect_encoding] finds and the [surrogatepass] handler;
    [decode_detected] is that step, [None] when it raises
    [UnicodeDecodeError]. *)
Variable decode_detected : bytes -> option pystr.

Definition loads_bytes (b : bytes) : option pyobj :=
  match decode_detected b with
  | Some s => loads float_repr s
  | None => None
  end.

(** [except (json.JSONDecodeError, ValueError)], for what the [try] block
    can raise after [json.loads]. *)
Definition is_ValueError (e : exn) : bool :=
  match e with
  | UnicodeEncodeError => true
  | _ => false
  end.

(** The body that [_proxy] forwards, from the body it read ([None] when
    the request declares no content). *)
Definition request_body (body : option bytes) : result (option bytes) :=
  match body, MODEL_NAME with
  | Some ((_ :: _) as b), _ :: _ =>
    match loads_bytes b with
    | None => Ok body
    | Some req_json =>
      match
        (model <- py_get req_json (lit "model") (PyStr []) ;;
         rewrite <- py_startswith model (lit "gpt-4o-mini") ;;
         if rewrite then
           req_json' <- py_setitem req_json (lit "model") (PyStr MODEL_NAME) ;;
           b' <- Utf8.encode (dumps_default req_json') ;;
           Ok (Some b')
         else Ok body)
      with
      | Raise e => if is_ValueError e then Ok body else Raise e
      | r => r
      end
    end
  | _, _ => Ok body
  end.

End Proxy.

(** ** The chunk of the spec's data model, and its two patch rules *)

(** These definitions follow the words of the spec; the theorems compare
    them with the functions of the source above. *)

Definition is_dict (o : pyobj) : bool :=
  match o with PyDict _ => true | _ => false end.


Definition items (o : pyobj) : list pyobj :=
  match o with PyList l => l | _ => [] end.


















(** ** The writes of the loop, line by line *)

(** The number of places of [s] at which [p] occurs. *)
Fixpoint count_infix (p s : bytes) : nat :=
  (if bytes_startswith s p then 1 else 0)
  + match s with
    | [] => 0
    | _ :: s' => count_infix p s'
    end.

(** What one pass of the loop body writes for an upstream line. *)
Definition forwarded (float_repr : pystr -> pystr) (MODEL_NAME : pystr)
           (raw_line : bytes) : result bytes :=
  let line := rstrip_crlf raw_line in
  if is_sentinel line then Ok DONE
  else
    fixed <- fix_sse_line float_repr MODEL_NAME line ;;
    Ok (fixed ++ LF
        ++ (if bytes_startswith fixed (blit "data: ") then LF else [])).

Definition sentinel_line (raw_line : bytes) : bool :=
  is_sentinel (rstrip_crlf raw_line).

(** What follows a value in a compact serialisation. *)
Definition ends_value (r : pystr) : bool :=
  match r with
  | [] => true
  | c :: _ => (c =? ch ",") || (c =? ch "]") || (c =? ch "}")
  end.

Definition not_digit (r : pystr) : Prop :=
  match r with [] => True | c :: _ => is_digit c = false end.

Definition digits (ds : pystr) : Prop :=
  Forall (fun c => is_digit c = true) ds.

Definition int_part (ip : pystr) : Prop :=
  ip = [48]
  \/ exists d ds, ip = d :: ds /\ is_digit d = true /\ d <> 48 /\ digits ds.

Definition frac_part (f : pystr) : Prop :=
  f = [] \/ exists c fs, f = 46 :: c :: fs /\ digits (c :: fs).

Definition exp_part (e : pystr) : Prop :=
  e = []
  \/ exists x sg c es,
      e = x :: sg ++ c :: es
      /\ (x = 101 \/ x = 69)
      /\ (sg = [] \/ sg = [45] \/ sg = [43])
      /\ digits (c :: es).

Definition sign (neg : bool) : pystr := if neg then [45] else [].

(** The parts of the lexeme of a float. *)
Definition float_parts (t : pystr) : Prop :=
  exists neg ip f e,
    t = sign neg ++ ip ++ f ++ e
    /\ int_part ip /\ frac_part f /\ exp_part e /\ (f <> [] \/ e <> []).

(** A [str] that [json.loads] can give back: code points below 0x110000,
    and no high surrogate right before a low one (the scanner joins such a
    pair into one code point). *)
Fixpoint wf_str (s : pystr) : bool :=
  match s with
  | [] => true
  | c :: r =>
    (c <? 0x110000)
    && negb (is_high_surrogate c
             && match r with
                | c2 :: _ => is_low_surrogate c2
                | [] => false
                end)
    && wf_str r
  end.

(** The text at [r] does not start with the escape of a low surrogate. *)
Definition no_low_escape (r : pystr) : Prop :=
  match r with
  | b :: u :: g1 :: g2 :: g3 :: g4 :: _ =>
    (b =? BACKSLASH) && (u =? ch "u") = true ->
    exists u2, hex4 g1 g2 g3 g4 = Some u2 /\ is_low_surrogate u2 = false
  | _ => True
  end.

(** The text of a [float] that [json.loads] can give back: one of the
    three constants, or a lexeme that [float_repr] leaves as it is. *)
Definition float_text (float_repr : pystr -> pystr) (t : pystr) : bool :=
  str_eqb t (lit "NaN") || str_eqb t (lit "Infinity")
  || str_eqb t (lit "-Infinity")
  || (is_float_lexeme t && str_eqb (float_repr t) t).

Fixpoint distinct (ks : list pystr) : bool :=
  match ks with
  | [] => true
  | k :: r => negb (existsb (str_eqb k) r) && distinct r
  end.

(** An object that [json.loads] can give back. *)
Fixpoint wf_obj (float_repr : pystr -> pystr) (o : pyobj) : bool :=
  match o with
  | PyNone | PyBool _ | PyInt _ => true
  | PyFloat t => float_text float_repr t
  | PyStr s => wf_str s
  | PyList l => forallb (wf_obj float_repr) l
  | PyDict d =>
    forallb (fun '(k, v) => wf_str k && wf_obj float_repr v) d
    && distinct (map fst d)
  end.

(** The calls that [scan_once] needs to read an object back. *)
Fixpoint weight (o : pyobj) : nat :=
  match o with
  | PyList l => S (list_sum (map (fun x => S (weight x)) l))
  | PyDict d => S (list_sum (map (fun '(_, x) => S (weight x)) d))
  | _ => 1
  end.

(** A text that starts like a number: a digit, or a minus sign and a
    digit. *)
Definition number_start (s : pystr) : Prop :=
  match s with
  | c :: r =>
    is_digit c = true
    \/ (c = 45 /\ match r with d :: _ => is_digit d = true | [] => False end)
  | [] => False
  end.

(** What a serialisation starts with: not a space, not a closing bracket,
    not a byte-order mark. *)
Definition value_start (s : pystr) : Prop :=
  match s with
  | c :: _ => is_whitespace c = false /\ c <> 93 /\ c <> 0xFEFF
  | [] => False
  end.

(** What [scan_once] does on the serialisation of [o], whatever follows
    the value. *)
Definition reads_back (float_repr : pystr -> pystr) (o : pyobj) : Prop :=
  wf_obj float_repr o = true ->
  forall (n : nat) (rest : pystr),
    (weight o <= n)%nat ->
    ends_value rest = true ->
    scan_once float_repr n (dumps_compact o ++ rest) = Some (o, rest).

(** A text of scalar values, as [decode] gives. *)
Definition scalars (s : pystr) : Prop :=
  Forall (fun c => Utf8.scalar c = true) s.

(** A string that starts with a low surrogate was read from its escape. *)
Definition low_from_escape (s str : pystr) : Prop :=
  match str with
  | c :: _ =>
    is_low_surrogate c = true ->
    exists g1 g2 g3 g4 r,
      s = BACKSLASH :: ch "u" :: g1 :: g2 :: g3 :: g4 :: r
      /\ hex4 g1 g2 g3 g4 = Some c
  | [] => True
  end.

(** What [float_repr] prints is read back as the same [float]: it is one
    of the constants of [json.dumps], or the lexeme of a float that
    [float_repr] prints as it is. *)
Definition float_repr_stable (float_repr : pystr -> pystr) : Prop :=
  forall t, is_float_lexeme t = true -> float_text float_repr (float_repr t) = true.

(** A [dict] with well-formed keys and values, each key once. *)
Definition wf_dict (float_repr : pystr -> pystr) (d : pydict) : bool :=
  forallb (fun '(k, v) => wf_str k && wf_obj float_repr v) d
  && distinct (map fst d).

(** A loop body that changes nothing when it runs again on its result. *)
Definition settles (body : pyobj -> result (pyobj * bool)) : Prop :=
  forall x x' c, body x = Ok (x', c) -> body x' = Ok (x', false).

(** A loop body that cannot change a [str]. *)
Definition inert_on_str (body : pyobj -> result (pyobj * bool)) : Prop :=
  forall s x' c, body (PyStr s) = Ok (x', c) -> c = false.

Definition is_str (o : pyobj) : bool :=
  match o with PyStr _ => true | _ => false end.

(** [v = o.get(k, default)], then a body on [v], then [v] as the body
    left it in [o]. *)
Definition get_update (k : pystr) (default : pyobj)
           (body : pyobj -> result (pyobj * bool)) (o : pyobj)
  : result (pyobj * bool) :=
  v <- py_get o k default ;;
  '(v', c) <- body v ;;
  Ok (store o k v', c).

(** A loop body that keeps an object one that [json.loads] can give. *)
Definition keeps_wf (float_repr : pystr -> pystr)
           (body : pyobj -> result (pyobj * bool)) : Prop :=
  forall x x' c,
    wf_obj float_repr x = true -> body x = Ok (x', c) ->
    wf_obj float_repr x' = true.

(** A text of ASCII characters only. *)
Definition ascii_text (s : pystr) : Prop := Forall (fun c => c < 128) s.

(** A result that, when it is an exception, is one of the two that an
    object of the wrong type gives. *)
Definition type_errors {A} (r : result A) : Prop :=
  forall e, r = Raise e -> e = TypeError \/ e = AttributeError.

(** A loop body that says so when it changes its item. *)
Definition truthful (body : pyobj -> result (pyobj * bool)) : Prop :=
  forall x x', body x = Ok (x', false) -> x' = x.

(** A command that only adds to what the client has received. *)
Definition appends {A} (m : io A) : Prop :=
  forall w, exists t, sent (fst (m w)) = sent w ++ t.

(** A command run for a client that stays, from [w], and for a client
    that may hang up, from [w'], after the same bytes: either both runs
    end alike, or the second one ends with [BrokenPipeError] at a write,
    having sent a prefix of what the first one sent. *)
Definition respects_hangup {A} (m : io A) : Prop :=
  forall w w',
    credit w = None -> sent w' = sent w ->
    credit (fst (m w)) = None
    /\ ((snd (m w') = snd (m w) /\ sent (fst (m w')) = sent (fst (m w)))
        \/ (snd (m w') = Raise BrokenPipeError
            /\ exists t, sent (fst (m w)) = sent (fst (m w')) ++ t)).

(** A line of another field than [data], as the upstream sends it before
    its LF: UTF-8, no LF inside, no CR or LF at its end, and not starting
    with [data:]. *)
Definition other_field (x : bytes) : Prop :=
  Utf8.encode (Utf8.decode x) = Ok x
  /\ bytes_startswith x (blit "data:") = false
  /\ rstrip_crlf x = x
  /\ existsb (Byte.eqb x0a) x = false.



(** A text without control characters. *)
Definition no_control (s : pystr) : Prop := Forall (fun c => 32 <= c) s.

(** What [scan_once] does on the default serialisation of [o], whatever
    follows the value. *)
Definition reads_back_default (float_repr : pystr -> pystr) (o : pyobj)
  : Prop :=
  wf_obj float_repr o = true ->
  forall (n : nat) (rest : pystr),
    (weight o <= n)%nat ->
    ends_value rest = true ->
    scan_once float_repr n (dumps_default o ++ rest) = Some (o, rest).

(** ** Closed examples *)

(** The closed examples below have no float in their payloads; they are
    stated at the [float_repr] that prints a lexeme as it was read. *)
Definition repr_as_read : pystr -> pystr := fun lexeme => lexeme.

(** The request bodies of the closed examples are ASCII without NUL, for
    which the detected encoding is UTF-8 and the decoded text is the
    bytes' characters. *)
Definition decode_ascii : bytes -> option pystr :=
  fun b => Some (Utf8.decode b).

(** The upstream body of the end-to-end scenario. *)
Definition scenario_body : bytes :=
  blit "data:{'choices':[{'delta':{'tool_calls':[{'type':'function'}]}}]}"
  ++ LF ++ LF ++ blit "data: [DONE]" ++ LF ++ LF.

(** An upstream body with the sentinel in both forms. *)
Definition two_sentinels_body : bytes :=
  blit "data: [DONE]" ++ LF ++ blit "data:[DONE]" ++ CR ++ LF.

(** The stream that the spec expects the client to see. *)
Definition scenario_expected : bytes :=
  blit "data: {'choices':[{'delta':{'tool_calls':[{'type':'function','index':0}]}}]}"
  ++ LF ++ LF ++ blit "data: [DONE]" ++ LF ++ LF.

(** The stream that the loop writes: after each event, the blank line of
    the upstream is forwarded as one more LF. *)
Definition scenario_written : bytes :=
  blit "data: {'choices':[{'delta':{'tool_calls':[{'type':'function','index':0}]}}]}"
  ++ LF ++ LF ++ LF ++ blit "data: [DONE]" ++ LF ++ LF ++ LF.

(** * Lemmas *)

(** ** Equality tests and prefixes *)

Lemma list_eqb_eq {A} (eqb : A -> A -> bool) :
  (forall a b, eqb a b = true <-> a = b) ->
  forall x y, list_eqb eqb x y = true <-> x = y.
Proof.
  intros Heqb x. induction x as [|a x IH]; intros [|b y]; simpl;
    try (split; [discriminate | intros H; inversion H]); try tauto.
  rewrite andb_true_iff, Heqb, IH. split.
  - intros [-> ->]. reflexivity.
  - intros H. inversion H. auto.
Qed.

Lemma byte_eqb_eq (a b : byte) : Byte.eqb a b = true <-> a = b.
Proof.
  split; [apply Byte.byte_dec_bl | apply Byte.byte_dec_lb].
Qed.

Lemma bytes_eqb_eq (x y : bytes) : bytes_eqb x y = true <-> x = y.
Proof. apply list_eqb_eq, byte_eqb_eq. Qed.

Lemma str_eqb_eq (x y : pystr) : str_eqb x y = true <-> x = y.
Proof. apply list_eqb_eq, N.eqb_eq. Qed.

Lemma str_eqb_refl (x : pystr) : str_eqb x x = true.
Proof. apply str_eqb_eq. reflexivity. Qed.

Lemma str_eqb_neq (x y : pystr) : str_eqb x y = false <-> x <> y.
Proof.
  rewrite <- str_eqb_eq. destruct (str_eqb x y); split; congruence.
Qed.

Lemma is_sentinel_spec (line : bytes) :
  is_sentinel line = true
  <-> line = blit "data: [DONE]" \/ line = blit "data:[DONE]".
Proof.
  unfold is_sentinel. rewrite orb_true_iff, !bytes_eqb_eq. reflexivity.
Qed.

(** ** The UTF-8 codec *)

Lemma byte_of_to_N (b : byte) : byte_of_N (Byte.to_N b) = b.
Proof. unfold byte_of_N. rewrite Byte.of_to_N. reflexivity. Qed.

Lemma byte_to_of_N (n : N) : n < 256 -> Byte.to_N (byte_of_N n) = n.
Proof.
  intros H. unfold byte_of_N. destruct (Byte.of_N n) eqn:E.
  - apply Byte.to_of_N. exact E.
  - apply Byte.of_N_None_iff in E. lia.
Qed.

Ltac utf8_unfold :=
  unfold Utf8.scalar, Utf8.is_surrogate, Utf8.second_of_3, Utf8.second_of_4,
    Utf8.is_continuation, Utf8.REPLACEMENT in *.

(** Every branch of [decode], with the bound of each byte it reads. *)
Ltac decode_cases :=
  repeat match goal with
  | b : byte |- _ =>
    lazymatch goal with
    | H : Byte.to_N b <= 255 |- _ => fail
    | _ => pose proof (Byte.to_N_bounded b)
    end
  | |- context [if ?c then _ else _] => destruct c eqn:?
  | |- context [match ?l with [] => _ | _ :: _ => _ end] =>
    is_var l; destruct l
  end.

Lemma decode_scalar (x : bytes) :
  Forall (fun c => Utf8.scalar c = true) (Utf8.decode x).
Proof.
  remember (List.length x) as n eqn:Hn.
  assert (Hlen : (List.length x <= n)%nat) by lia. clear Hn.
  revert x Hlen. induction n as [|n IH]; intros x Hlen.
  - destruct x; [constructor | simpl in Hlen; lia].
  - destruct x as [|b1 r1]; [constructor|].
    cbn [Utf8.decode]. decode_cases;
      repeat constructor; try (apply IH; simpl in *; lia);
      utf8_unfold; lia.
Qed.

Lemma encode_scalar (s : pystr) :
  Forall (fun c => Utf8.scalar c = true) s ->
  exists b, Utf8.encode s = Ok b.
Proof.
  induction 1 as [|c s Hc _ [b IH]]; simpl.
  - eexists. reflexivity.
  - rewrite Hc, IH. simpl. eexists. reflexivity.
Qed.

Lemma encode_inv (c : N) (s : pystr) (b : bytes) :
  Utf8.encode (c :: s) = Ok b ->
  Utf8.scalar c = true
  /\ exists b', Utf8.encode s = Ok b' /\ b = Utf8.encode_char c ++ b'.
Proof.
  simpl. destruct (Utf8.scalar c); [|discriminate].
  destruct (Utf8.encode s) as [b'|]; simpl; [|discriminate].
  intros H. injection H as <-. eauto.
Qed.

Ltac decide_if :=
  match goal with
  | |- context [if ?c then _ else _] =>
    first [ replace c with true by (utf8_unfold; lia)
          | replace c with false by (utf8_unfold; lia) ];
    cbv iota
  end.

Lemma decode_1 (n : N) (r : bytes) :
  n < 0x80 -> Utf8.decode (byte_of_N n :: r) = n :: Utf8.decode r.
Proof.
  intros H. cbn [Utf8.decode]. rewrite byte_to_of_N by lia.
  decide_if. reflexivity.
Qed.

Lemma decode_2 (n1 n2 : N) (r : bytes) :
  0xC2 <= n1 < 0xE0 -> 0x80 <= n2 < 0xC0 ->
  Utf8.decode (byte_of_N n1 :: byte_of_N n2 :: r)
  = ((n1 - 0xC0) * 64 + (n2 - 0x80)) :: Utf8.decode r.
Proof.
  intros H1 H2. remember (byte_of_N n2 :: r) as r1 eqn:E.
  cbn [Utf8.decode]. subst r1. cbv iota beta zeta.
  rewrite !byte_to_of_N by lia. repeat decide_if. reflexivity.
Qed.

Lemma decode_3 (n1 n2 n3 : N) (r : bytes) :
  0xE0 <= n1 < 0xF0 -> 0x80 <= n2 < 0xC0 -> 0x80 <= n3 < 0xC0 ->
  (n1 = 0xE0 -> 0xA0 <= n2) -> (n1 = 0xED -> n2 < 0xA0) ->
  Utf8.decode (byte_of_N n1 :: byte_of_N n2 :: byte_of_N n3 :: r)
  = ((n1 - 0xE0) * 4096 + (n2 - 0x80) * 64 + (n3 - 0x80)) :: Utf8.decode r.
Proof.
  intros H1 H2 H3 H4 H5.
  remember (byte_of_N n3 :: r) as r2 eqn:E2.
  remember (byte_of_N n2 :: r2) as r1 eqn:E1.
  cbn [Utf8.decode]. subst r1. cbv iota beta zeta. subst r2. cbv iota beta zeta.
  rewrite !byte_to_of_N by lia. repeat decide_if. reflexivity.
Qed.

Lemma decode_4 (n1 n2 n3 n4 : N) (r : bytes) :
  0xF0 <= n1 < 0xF5 -> 0x80 <= n2 < 0xC0 -> 0x80 <= n3 < 0xC0 ->
  0x80 <= n4 < 0xC0 ->
  (n1 = 0xF0 -> 0x90 <= n2) -> (n1 = 0xF4 -> n2 < 0x90) ->
  Utf8.decode
    (byte_of_N n1 :: byte_of_N n2 :: byte_of_N n3 :: byte_of_N n4 :: r)
  = ((n1 - 0xF0) * 262144 + (n2 - 0x80) * 4096 + (n3 - 0x80) * 64
     + (n4 - 0x80)) :: Utf8.decode r.
Proof.
  intros H1 H2 H3 H4 H5 H6.
  remember (byte_of_N n4 :: r) as r3 eqn:E3.
  remember (byte_of_N n3 :: r3) as r2 eqn:E2.
  remember (byte_of_N n2 :: r2) as r1 eqn:E1.
  cbn [Utf8.decode]. subst r1. cbv iota beta zeta. subst r2. cbv iota beta zeta.
  subst r3. cbv iota beta zeta.
  rewrite !byte_to_of_N by lia. repeat decide_if. reflexivity.
Qed.

Lemma decode_encode_char (c : N) (r : bytes) :
  Utf8.scalar c = true ->
  Utf8.decode (Utf8.encode_char c ++ r) = c :: Utf8.decode r.
Proof.
  intros Hc. unfold Utf8.encode_char. utf8_unfold.
  destruct (c <? 0x80) eqn:E1;
    [|destruct (c <? 0x800) eqn:E2; [|destruct (c <? 0x10000) eqn:E3]];
    cbn [app].
  - apply decode_1. lia.
  - rewrite decode_2 by lia. f_equal. lia.
  - rewrite decode_3 by lia. f_equal. lia.
  - rewrite decode_4 by lia. f_equal. lia.
Qed.

(** Decoding undoes encoding. *)
Lemma decode_encode (s : pystr) (b : bytes) :
  Utf8.encode s = Ok b -> Utf8.decode b = s.
Proof.
  revert b. induction s as [|c s IH]; intros b H.
  - injection H as <-. reflexivity.
  - apply encode_inv in H. destruct H as (Hc & b' & Hs & ->).
    rewrite decode_encode_char by exact Hc. f_equal. auto.
Qed.

Lemma encode_app (s t : pystr) :
  Utf8.encode (s ++ t)
  = (x <- Utf8.encode s ;; y <- Utf8.encode t ;; Ok (x ++ y)).
Proof.
  induction s as [|c s IH]; simpl.
  - destruct (Utf8.encode t); reflexivity.
  - destruct (Utf8.scalar c); [|reflexivity]. rewrite IH.
    destruct (Utf8.encode s); simpl; [|reflexivity].
    destruct (Utf8.encode t); simpl; [|reflexivity].
    rewrite app_assoc. reflexivity.
Qed.

(** What [fix_sse_line] returns on a path that changes nothing is the
    line, encoded; encoding a decoded line never raises. *)
Lemma encode_decode_ok (x : bytes) : exists y, Utf8.encode (Utf8.decode x) = Ok y.
Proof. apply encode_scalar, decode_scalar. Qed.

(** ** Prefixes *)

Lemma starts_with_app {A} (eqb : A -> A -> bool) :
  (forall a b, eqb a b = true <-> a = b) ->
  forall p s, starts_with eqb p s = true <-> exists t, s = p ++ t.
Proof.
  intros Heqb p. induction p as [|a p IH]; intros s; simpl.
  - split; eauto.
  - destruct s as [|b s].
    + split; [discriminate | intros [t H]; discriminate].
    + rewrite andb_true_iff, Heqb, IH. split.
      * intros [-> [t ->]]. eauto.
      * intros [t H]. injection H as -> ->. eauto.
Qed.

Lemma str_startswith_app (s p : pystr) :
  str_startswith s p = true <-> exists t, s = p ++ t.
Proof. apply starts_with_app, N.eqb_eq. Qed.

Lemma bytes_startswith_app (s p : bytes) :
  bytes_startswith s p = true <-> exists t, s = p ++ t.
Proof. apply starts_with_app, byte_eqb_eq. Qed.

Lemma starts_with_prefix {A} (eqb : A -> A -> bool) (p q s : list A) :
  starts_with eqb (p ++ q) s = true -> starts_with eqb p s = true.
Proof.
  revert s. induction p as [|a p IH]; intros s; simpl; [reflexivity|].
  destruct s as [|b s]; [discriminate|].
  rewrite !andb_true_iff. intros [H1 H2]. auto.
Qed.

(** An ASCII prefix of a string is a prefix of its encoding. *)
Lemma encode_startswith_data (s : pystr) (x : bytes) :
  Utf8.encode s = Ok x ->
  str_startswith s (lit "data:") = true ->
  bytes_startswith x (blit "data:") = true.
Proof.
  intros H Hs. apply str_startswith_app in Hs. destruct Hs as [t ->].
  rewrite encode_app in H.
  change (Utf8.encode (lit "data:")) with (Ok (blit "data:")) in H.
  cbn [bind] in H. destruct (Utf8.encode t) as [y|]; [|discriminate].
  cbn [bind] in H. injection H as <-. apply bytes_startswith_app.
  exists y. reflexivity.
Qed.

(** ** The two fixes on a chunk of the data model *)

Lemma dict_set_absent (d : pydict) (k : pystr) (v : pyobj) :
  dict_has d k = false -> dict_set d k v = d ++ [(k, v)].
Proof.
  unfold dict_has. induction d as [|[k' v'] d IH]; simpl; [reflexivity|].
  destruct (str_eqb k' k); [discriminate|]. intros H. rewrite IH by exact H.
  reflexivity.
Qed.










Lemma dict_get_set_same (d : pydict) (k : pystr) (v : pyobj) :
  dict_get (dict_set d k v) k = Some v.
Proof.
  induction d as [|[k' v'] d IH]; simpl.
  - rewrite str_eqb_refl. reflexivity.
  - destruct (str_eqb k' k) eqn:E; simpl; rewrite E; auto.
Qed.

Lemma dict_get_set_other (d : pydict) (k k' : pystr) (v : pyobj) :
  k <> k' -> dict_get (dict_set d k v) k' = dict_get d k'.
Proof.
  intros Hk. induction d as [|[k0 v0] d IH]; simpl.
  - apply str_eqb_neq in Hk. rewrite Hk. reflexivity.
  - destruct (str_eqb k0 k) eqn:E; simpl.
    + apply str_eqb_eq in E. subst k0.
      apply str_eqb_neq in Hk. rewrite Hk. reflexivity.
    + rewrite IH. reflexivity.
Qed.














(** ** The streaming loop *)

Lemma count_infix_unfold (p s : bytes) :
  count_infix p s
  = ((if bytes_startswith s p then 1 else 0)
     + match s with
       | [] => 0
       | _ :: s' => count_infix p s'
       end)%nat.
Proof. destruct s; reflexivity. Qed.

Lemma count_infix_app (p a b : bytes) :
  (1 <= count_infix p (a ++ p ++ b))%nat.
Proof.
  induction a as [|x a IH].
  - cbn [app]. rewrite count_infix_unfold.
    replace (bytes_startswith (p ++ b) p) with true; [lia|].
    symmetry. apply bytes_startswith_app. eauto.
  - cbn [app]. rewrite count_infix_unfold. lia.
Qed.

Lemma stream_line_forwarded (float_repr : pystr -> pystr)
      (MODEL_NAME : pystr) (saw_done : bool) (raw_line chunk : bytes)
      (w : wfile) :
  credit w = None ->
  forwarded float_repr MODEL_NAME raw_line = Ok chunk ->
  stream_line float_repr MODEL_NAME saw_done raw_line w
  = ({| sent := sent w ++ chunk; credit := None |},
     Ok (saw_done || sentinel_line raw_line)).
Proof.
  intros Hw. unfold forwarded, stream_line, sentinel_line.
  destruct (is_sentinel (rstrip_crlf raw_line)).
  - intros H. injection H as <-. unfold io_bind, write, flush, ret.
    rewrite Hw, orb_true_r. reflexivity.
  - destruct (fix_sse_line float_repr MODEL_NAME (rstrip_crlf raw_line))
      as [fixed|e]; [|discriminate].
    cbn [bind]. intros H. injection H as <-.
    unfold io_bind, lift, write, flush, ret. rewrite Hw. cbn [credit sent].
    rewrite orb_false_r.
    destruct (bytes_startswith fixed (blit "data: ")); cbn [credit sent].
    + rewrite <- !app_assoc. reflexivity.
    + reflexivity.
Qed.

Lemma stream_lines_forwarded (float_repr : pystr -> pystr)
      (MODEL_NAME : pystr) (lines : list bytes) :
  forall (chunks : list bytes) (saw_done : bool) (w : wfile),
    credit w = None ->
    mapM (forwarded float_repr MODEL_NAME) lines = Ok chunks ->
    stream_lines float_repr MODEL_NAME saw_done lines w
    = ({| sent := sent w ++ List.concat chunks; credit := None |},
       Ok (saw_done || existsb sentinel_line lines)).
Proof.
  induction lines as [|raw lines IH]; intros chunks saw_done w Hw H.
  - injection H as <-. simpl. rewrite List.app_nil_r, orb_false_r.
    unfold ret. destruct w as [s c]. simpl in Hw. subst c. reflexivity.
  - cbn [mapM] in H.
    destruct (forwarded float_repr MODEL_NAME raw) as [chunk|] eqn:E;
      [|discriminate].
    cbn [bind] in H.
    destruct (mapM (forwarded float_repr MODEL_NAME) lines) as [cs|] eqn:Es;
      [|discriminate].
    cbn [bind] in H. injection H as <-.
    cbn [stream_lines]. unfold io_bind.
    rewrite (stream_line_forwarded float_repr MODEL_NAME saw_done raw chunk
               w Hw E).
    rewrite (IH cs) by reflexivity. cbn [sent existsb List.concat].
    rewrite <- app_assoc, orb_assoc. reflexivity.
Qed.

Lemma sentinel_line_chunk (float_repr : pystr -> pystr) (MODEL_NAME : pystr)
      (lines chunks : list bytes) :
  mapM (forwarded float_repr MODEL_NAME) lines = Ok chunks ->
  existsb sentinel_line lines = true ->
  exists a b, List.concat chunks = a ++ DONE ++ b.
Proof.
  revert chunks. induction lines as [|raw lines IH]; intros chunks H He;
    [discriminate|].
  cbn [mapM] in H.
  destruct (forwarded float_repr MODEL_NAME raw) as [chunk|] eqn:E;
    [|discriminate].
  cbn [bind] in H.
  destruct (mapM (forwarded float_repr MODEL_NAME) lines) as [cs|] eqn:Es;
    [|discriminate].
  cbn [bind] in H. injection H as <-. cbn [existsb] in He. cbn [List.concat].
  destruct (sentinel_line raw) eqn:Er.
  - unfold forwarded in E. unfold sentinel_line in Er. rewrite Er in E.
    injection E as <-. exists [], (List.concat cs). reflexivity.
  - destruct (IH cs eq_refl He) as (a & b & ->).
    exists (chunk ++ a), b. rewrite <- app_assoc. reflexivity.
Qed.

(** ** Decimal integers *)

Lemma uint_of_digits_of_uint (u : Decimal.uint) :
  uint_of_digits (digits_of_uint u) = u.
Proof. induction u; simpl; congruence. Qed.

Lemma digits_of_uint_digits (u : Decimal.uint) :
  Forall (fun c => is_digit c = true) (digits_of_uint u).
Proof. induction u; simpl; constructor; auto. Qed.

(** [N.to_uint] writes no leading zero: its result is [0] or starts with
    another digit. *)
Lemma to_uint_normal (n : N) :
  N.to_uint n = Decimal.D0 Decimal.Nil
  \/ (N.to_uint n <> Decimal.Nil
      /\ forall u, N.to_uint n <> Decimal.D0 u).
Proof.
  assert (H : N.to_uint n = Decimal.unorm (N.to_uint n)).
  { rewrite <- (DecimalN.Unsigned.to_of (N.to_uint n)).
    rewrite DecimalN.Unsigned.of_to. reflexivity. }
  unfold Decimal.unorm in H.
  destruct (Decimal.nzhead (N.to_uint n)) eqn:E;
    try (left; exact H);
    try (exfalso; exact (DecimalFacts.nzhead_nonzero _ _ E));
    right; rewrite H; split; try discriminate;
    intros ? ?; discriminate.
Qed.

Lemma span_digits_app (ds r : pystr) :
  Forall (fun c => is_digit c = true) ds ->
  match r with [] => True | c :: _ => is_digit c = false end ->
  span_digits (ds ++ r) = (ds, r).
Proof.
  intros Hds Hr. induction Hds as [|c ds Hc _ IH]; cbn [app span_digits].
  - destruct r as [|c r]; [reflexivity|].
    cbn [span_digits]. rewrite Hr. reflexivity.
  - rewrite Hc, IH. reflexivity.
Qed.

Lemma span_digits_spec (s ds r : pystr) :
  span_digits s = (ds, r) ->
  s = ds ++ r
  /\ Forall (fun c => is_digit c = true) ds
  /\ match r with [] => True | c :: _ => is_digit c = false end.
Proof.
  revert ds r. induction s as [|c s IH]; intros ds r; cbn [span_digits].
  - intros H. injection H as <- <-. auto.
  - destruct (is_digit c) eqn:E.
    + destruct (span_digits s) as [ds' r'] eqn:Es.
      intros H. injection H as <- <-.
      destruct (IH ds' r' eq_refl) as (-> & Hd & Hr). auto.
    + intros H. injection H as <- <-. cbn [app]. auto.
Qed.

(** The characters of the grammar, as numbers. *)
Ltac norm_ch :=
  repeat match goal with
  | |- context [ch ?a] =>
    let v := eval vm_compute in (ch a) in change (ch a) with v
  | H : context [ch ?a] |- _ =>
    let v := eval vm_compute in (ch a) in change (ch a) with v in H
  end.

Lemma ends_value_not_digit (r : pystr) : ends_value r = true -> not_digit r.
Proof.
  destruct r as [|c r]; simpl; [trivial|]. unfold is_digit. norm_ch. lia.
Qed.

Lemma scan_int_app (ip r : pystr) :
  int_part ip -> ip = [48] \/ not_digit r ->
  scan_int (ip ++ r) = Some (ip, r).
Proof.
  intros [->|(d & ds & -> & Hd & Hz & Hds)] Hr.
  - reflexivity.
  - cbn [app scan_int]. rewrite Hd.
    replace (d =? 48) with false by lia.
    destruct Hr as [Hr|Hr]; [congruence|].
    rewrite span_digits_app by assumption. reflexivity.
Qed.

Lemma scan_int_spec (s ip r : pystr) :
  scan_int s = Some (ip, r) -> s = ip ++ r /\ int_part ip.
Proof.
  destruct s as [|d s]; cbn [scan_int]; [discriminate|].
  destruct (is_digit d) eqn:Hd; [|discriminate].
  destruct (d =? 48) eqn:Hz.
  - intros H. injection H as <- <-. split; [reflexivity|].
    left. f_equal. lia.
  - destruct (span_digits s) as [ds r1] eqn:Es.
    intros H. injection H as <- <-.
    destruct (span_digits_spec s ds r1 Es) as (-> & Hds & _).
    split; [reflexivity|]. right. exists d, ds. repeat split; auto. lia.
Qed.

Lemma scan_frac_nil (r : pystr) :
  match r with [] => True | c :: _ => c <> 46 end -> scan_frac r = ([], r).
Proof.
  destruct r as [|c r]; [reflexivity|]. intros H. cbn [scan_frac]. norm_ch.
  replace (c =? 46) with false by lia. reflexivity.
Qed.

Lemma scan_frac_app (f r : pystr) :
  frac_part f -> f <> [] -> not_digit r -> scan_frac (f ++ r) = (f, r).
Proof.
  intros [->|(c & fs & -> & Hfs)] Hf Hr; [congruence|].
  cbn [app scan_frac]. norm_ch. cbn [N.eqb Pos.eqb].
  change (c :: fs ++ r) with ((c :: fs) ++ r).
  rewrite span_digits_app by assumption. reflexivity.
Qed.

Lemma scan_frac_spec (s f r : pystr) :
  scan_frac s = (f, r) -> s = f ++ r /\ frac_part f.
Proof.
  destruct s as [|p s]; cbn [scan_frac].
  - intros H. injection H as <- <-. split; [reflexivity | left; reflexivity].
  - norm_ch. destruct (p =? 46) eqn:Hp.
    + destruct (span_digits s) as [[|c fs] r'] eqn:Es.
      * intros H. injection H as <- <-.
        split; [reflexivity | left; reflexivity].
      * intros H. injection H as <- <-.
        destruct (span_digits_spec s (c :: fs) r' Es) as (-> & Hfs & _).
        split; [reflexivity|]. right. exists c, fs.
        split; [f_equal; lia | exact Hfs].
    + intros H. injection H as <- <-.
      split; [reflexivity | left; reflexivity].
Qed.

Lemma scan_exp_nil (r : pystr) :
  match r with [] => True | c :: _ => c <> 101 /\ c <> 69 end ->
  scan_exp r = ([], r).
Proof.
  destruct r as [|c r]; [reflexivity|]. intros H. cbn [scan_exp]. norm_ch.
  replace ((c =? 101) || (c =? 69)) with false by lia. reflexivity.
Qed.

Lemma scan_exp_app (e r : pystr) :
  exp_part e -> e <> [] -> not_digit r -> scan_exp (e ++ r) = (e, r).
Proof.
  intros [->|(x & sg & c & es & -> & Hx & Hsg & Hes)] He Hr; [congruence|].
  cbn [app scan_exp]. norm_ch.
  replace ((x =? 101) || (x =? 69)) with true by lia.
  assert (Hc : is_digit c = true) by (inversion Hes; assumption).
  assert (Hc' : (c =? 45) || (c =? 43) = false)
    by (unfold is_digit in Hc; lia).
  destruct Hsg as [->|[->| ->]]; cbn [app].
  - rewrite Hc'. change (c :: es ++ r) with ((c :: es) ++ r).
    rewrite span_digits_app by assumption. reflexivity.
  - cbn [N.eqb Pos.eqb orb]. change (c :: es ++ r) with ((c :: es) ++ r).
    rewrite span_digits_app by assumption. reflexivity.
  - cbn [N.eqb Pos.eqb orb]. change (c :: es ++ r) with ((c :: es) ++ r).
    rewrite span_digits_app by assumption. reflexivity.
Qed.

Lemma scan_exp_spec (s e r : pystr) :
  scan_exp s = (e, r) -> s = e ++ r /\ exp_part e.
Proof.
  destruct s as [|x s]; cbn [scan_exp].
  - intros H. injection H as <- <-. split; [reflexivity | left; reflexivity].
  - norm_ch. destruct ((x =? 101) || (x =? 69)) eqn:Hx.
    + destruct (match s with
                | [] => ([], s)
                | y :: t =>
                  if (y =? 45) || (y =? 43) then ([y], t) else ([], s)
                end) as [sg r'] eqn:Esg.
      assert (Hsg : s = sg ++ r' /\ (sg = [] \/ sg = [45] \/ sg = [43])).
      { destruct s as [|y t].
        - injection Esg as <- <-. auto.
        - destruct ((y =? 45) || (y =? 43)) eqn:Hy.
          + injection Esg as <- <-. split; [reflexivity|].
            right. destruct (y =? 45) eqn:Hy'.
            * left. f_equal. lia.
            * right. f_equal. lia.
          + injection Esg as <- <-. auto. }
      destruct Hsg as [-> Hsg].
      destruct (span_digits r') as [[|c es] r''] eqn:Es.
      * intros H. injection H as <- <-.
        split; [reflexivity | left; reflexivity].
      * intros H. injection H as <- <-.
        destruct (span_digits_spec r' (c :: es) r'' Es) as (-> & Hes & _).
        split; [cbn [app]; f_equal; rewrite <- app_assoc; reflexivity|].
        right. exists x, sg, c, es. repeat split; auto. lia.
    + intros H. injection H as <- <-.
      split; [reflexivity | left; reflexivity].
Qed.

Lemma int_part_head (ip r : pystr) :
  int_part ip ->
  exists d ip', ip = d :: ip' /\ is_digit d = true.
Proof.
  intros [->|(d & ds & -> & Hd & _)]; eauto.
Qed.

Lemma scan_sign_app (neg : bool) (ip r : pystr) :
  int_part ip -> scan_sign (sign neg ++ ip ++ r) = (neg, ip ++ r).
Proof.
  intros Hip. destruct neg; [reflexivity|].
  destruct (int_part_head ip r Hip) as (d & ip' & -> & Hd).
  cbn [sign app scan_sign]. norm_ch. unfold is_digit in Hd.
  replace (d =? 45) with false by lia. reflexivity.
Qed.

Lemma scan_sign_spec (s s1 : pystr) (neg : bool) :
  scan_sign s = (neg, s1) -> s = sign neg ++ s1.
Proof.
  destruct s as [|c s]; cbn [scan_sign].
  - intros H. injection H as <- <-. reflexivity.
  - norm_ch. destruct (c =? 45) eqn:E; intros H; injection H as <- <-.
    + cbn [sign app]. f_equal. lia.
    + reflexivity.
Qed.

Lemma frac_part_head (f r : pystr) :
  frac_part f -> f <> [] -> not_digit (f ++ r) /\ exists f', f ++ r = 46 :: f'.
Proof.
  intros [->|(c & fs & -> & _)] Hf; [congruence|]. split; [reflexivity|].
  eexists. reflexivity.
Qed.

Lemma exp_part_head (e r : pystr) :
  exp_part e -> e <> [] ->
  not_digit (e ++ r) /\ exists x e', e ++ r = x :: e' /\ (x = 101 \/ x = 69).
Proof.
  intros [->|(x & sg & c & es & -> & Hx & _)] He; [congruence|]. split.
  - cbn [app not_digit]. unfold is_digit. lia.
  - eexists _, _. split; [reflexivity | exact Hx].
Qed.

Lemma match_number_float (float_repr : pystr -> pystr) (t rest : pystr) :
  float_parts t -> ends_value rest = true ->
  match_number float_repr (t ++ rest) = Some (PyFloat (float_repr t), rest).
Proof.
  intros (neg & ip & f & e & -> & Hip & Hf & He & Hfe) Hrest.
  assert (Hnd : not_digit rest) by (apply ends_value_not_digit; exact Hrest).
  unfold match_number. rewrite <- !app_assoc.
  rewrite scan_sign_app by exact Hip.
  assert (Hf' : f = [] \/ f <> []) by (destruct f; [left | right]; congruence).
  assert (He' : e = [] \/ e <> []) by (destruct e; [left | right]; congruence).
  rewrite scan_int_app; [|exact Hip|].
  2:{ right. destruct Hf' as [-> | Hf'].
      - destruct He' as [-> | He']; [tauto|].
        apply (exp_part_head e rest He He').
      - apply (frac_part_head f (e ++ rest) Hf Hf'). }
  destruct Hf' as [-> | Hf'].
  - destruct He' as [-> | He']; [tauto|].
    cbn [app]. rewrite scan_frac_nil.
    2:{ destruct (exp_part_head e rest He He') as (_ & x & e' & -> & Hx). lia. }
    rewrite scan_exp_app by assumption.
    destruct e; [congruence|]. reflexivity.
  - assert (Hnd' : not_digit (e ++ rest)).
    { destruct He' as [-> | He']; [exact Hnd|].
      apply (exp_part_head e rest He He'). }
    rewrite scan_frac_app by assumption.
    destruct He' as [-> | He'].
    + cbn [app]. rewrite scan_exp_nil.
      2:{ destruct rest as [|c rest]; [trivial|]. cbn [ends_value] in Hrest.
          norm_ch. lia. }
      destruct f; [congruence|]. reflexivity.
    + rewrite scan_exp_app by assumption. destruct f; [congruence|].
      reflexivity.
Qed.

Lemma match_number_spec (float_repr : pystr -> pystr) (s r : pystr)
      (v : pyobj) :
  match_number float_repr s = Some (v, r) ->
  (exists z, v = PyInt z)
  \/ (exists t, v = PyFloat (float_repr t) /\ float_parts t).
Proof.
  unfold match_number.
  destruct (scan_sign s) as [neg s1] eqn:Esg.
  destruct (scan_int s1) as [[ip r1]|] eqn:Ei; [|discriminate].
  destruct (scan_frac r1) as [f r2] eqn:Ef.
  destruct (scan_exp r2) as [e r3] eqn:Ee.
  destruct (scan_int_spec s1 ip r1 Ei) as [_ Hip].
  destruct (scan_frac_spec r1 f r2 Ef) as [_ Hf].
  destruct (scan_exp_spec r2 e r3 Ee) as [_ He].
  assert (Hp : f <> [] \/ e <> [] ->
               float_parts ((if neg then [ch "-"] else []) ++ ip ++ f ++ e)).
  { intros Hfe. exists neg, ip, f, e. auto. }
  destruct f as [|c f]; [destruct e as [|c e]|];
    intros H; injection H as <- <-.
  - left. eauto.
  - right. eexists. split; [reflexivity|]. apply Hp. right. discriminate.
  - right. eexists. split; [reflexivity|]. apply Hp. left. discriminate.
Qed.

Lemma is_float_lexeme_parts (t : pystr) :
  is_float_lexeme t = true <-> float_parts t.
Proof.
  unfold is_float_lexeme. split.
  - destruct (match_number (fun lexeme => lexeme) t) as [[v r]|] eqn:E;
      [|discriminate].
    destruct v; try discriminate. destruct r; [|discriminate]. intros _.
    revert E. unfold match_number.
    destruct (scan_sign t) as [neg s1] eqn:Esg.
    destruct (scan_int s1) as [[ip r1]|] eqn:Ei; [|discriminate].
    destruct (scan_frac r1) as [f r2] eqn:Ef.
    destruct (scan_exp r2) as [e r3] eqn:Ee.
    destruct (scan_int_spec s1 ip r1 Ei) as [-> Hip].
    destruct (scan_frac_spec r1 f r2 Ef) as [-> Hf].
    destruct (scan_exp_spec r2 e r3 Ee) as [-> He].
    apply scan_sign_spec in Esg. subst t.
    assert (Hp : f <> [] \/ e <> [] -> r3 = [] ->
                 float_parts (sign neg ++ ip ++ f ++ e ++ r3)).
    { intros Hfe ->. rewrite List.app_nil_r. exists neg, ip, f, e. auto. }
    destruct f as [|c f]; [destruct e as [|c e]|]; intros H;
      try discriminate; injection H as _ Hr.
    + apply Hp; [right; discriminate | exact Hr].
    + apply Hp; [left; discriminate | exact Hr].
  - intros Hp.
    pose proof (match_number_float (fun lexeme => lexeme) t [] Hp eq_refl) as H.
    rewrite List.app_nil_r in H. rewrite H. reflexivity.
Qed.

Lemma int_repr_digits (z : Z) :
  exists ip,
    int_repr z = sign (z <? 0)%Z ++ ip
    /\ int_part ip
    /\ int_of_digits (z <? 0)%Z ip = z.
Proof.
  unfold int_repr. exists (digits_of_uint (N.to_uint (Z.abs_N z))).
  split; [destruct (z <? 0)%Z; reflexivity|]. split.
  - destruct (to_uint_normal (Z.abs_N z)) as [H|[Hn Hz]].
    + rewrite H. left. reflexivity.
    + right. pose proof (digits_of_uint_digits (N.to_uint (Z.abs_N z))) as Hd.
      destruct (N.to_uint (Z.abs_N z)) as [|u|u|u|u|u|u|u|u|u|u];
        try congruence;
        try (exfalso; exact (Hz u eq_refl));
        cbn [digits_of_uint] in *; eexists _, _;
        (split; [reflexivity|]); inversion Hd; subst;
        repeat split; try assumption; discriminate.
  - unfold int_of_digits. rewrite uint_of_digits_of_uint.
    rewrite DecimalN.Unsigned.of_to, N2Z.inj_abs_N.
    destruct (z <? 0)%Z eqn:E; lia.
Qed.

Lemma match_number_int (float_repr : pystr -> pystr) (z : Z) (rest : pystr) :
  ends_value rest = true ->
  match_number float_repr (int_repr z ++ rest) = Some (PyInt z, rest).
Proof.
  intros Hrest. destruct (int_repr_digits z) as (ip & -> & Hip & Hz).
  assert (Hnd : not_digit rest) by (apply ends_value_not_digit; exact Hrest).
  unfold match_number. rewrite <- app_assoc.
  rewrite scan_sign_app by exact Hip.
  rewrite scan_int_app by auto.
  rewrite scan_frac_nil, scan_exp_nil, Hz; [reflexivity| |];
    destruct rest as [|c rest]; trivial; cbn [ends_value] in Hrest;
    norm_ch; lia.
Qed.


(** ** Strings *)

Lemma hexval_hexdigit (d : N) : d < 16 -> hexval (hexdigit d) = Some d.
Proof.
  intros H. unfold hexval, hexdigit. destruct (d <? 10) eqn:E.
  - replace ((48 <=? 48 + d) && (48 + d <=? 57)) with true by lia.
    f_equal. lia.
  - replace ((48 <=? 87 + d) && (87 + d <=? 57)) with false by lia.
    replace ((97 <=? 87 + d) && (87 + d <=? 102)) with true by lia.
    f_equal. lia.
Qed.

Lemma hex4_escape (c : N) :
  c < 65536 ->
  hex4 (hexdigit (c / 4096)) (hexdigit ((c / 256) mod 16))
       (hexdigit ((c / 16) mod 16)) (hexdigit (c mod 16)) = Some c.
Proof.
  intros H. unfold hex4. rewrite !hexval_hexdigit by lia. f_equal. lia.
Qed.

Lemma scanstring_quote (r : pystr) : scanstring (DQUOTE :: r) = Some ([], r).
Proof. reflexivity. Qed.

Lemma scanstring_plain (c : N) (r : pystr) :
  c <> 34 -> c <> 92 -> 32 <= c ->
  scanstring (c :: r) = cons_str c (scanstring r).
Proof.
  intros H1 H2 H3. cbn [scanstring]. unfold DQUOTE, BACKSLASH.
  replace (c =? 34) with false by lia. replace (c =? 92) with false by lia.
  replace (c <? 32) with false by lia. reflexivity.
Qed.

Lemma scanstring_escape (e x : N) (r : pystr) :
  unescape e = Some x ->
  scanstring (BACKSLASH :: e :: r) = cons_str x (scanstring r).
Proof.
  intros H. cbn [scanstring]. cbn [BACKSLASH DQUOTE N.eqb Pos.eqb].
  destruct (e =? ch "u") eqn:E.
  - apply N.eqb_eq in E. subst e. discriminate.
  - rewrite H. reflexivity.
Qed.

Lemma scanstring_u (h1 h2 h3 h4 u : N) (r : pystr) :
  hex4 h1 h2 h3 h4 = Some u ->
  is_high_surrogate u = false ->
  scanstring (BACKSLASH :: ch "u" :: h1 :: h2 :: h3 :: h4 :: r)
  = cons_str u (scanstring r).
Proof.
  intros H Hu. cbn [scanstring]. cbn [BACKSLASH DQUOTE N.eqb Pos.eqb].
  rewrite N.eqb_refl, H, Hu. reflexivity.
Qed.

Lemma scanstring_u_lone (h1 h2 h3 h4 u : N) (r : pystr) :
  hex4 h1 h2 h3 h4 = Some u ->
  no_low_escape r ->
  scanstring (BACKSLASH :: ch "u" :: h1 :: h2 :: h3 :: h4 :: r)
  = cons_str u (scanstring r).
Proof.
  intros H Hr. cbn [scanstring]. cbn [BACKSLASH DQUOTE N.eqb Pos.eqb].
  rewrite N.eqb_refl, H.
  destruct (is_high_surrogate u); [|reflexivity].
  destruct r as [|b [|u' [|g1 [|g2 [|g3 [|g4 r3]]]]]]; try reflexivity.
  cbn [no_low_escape] in Hr.
  destruct ((b =? BACKSLASH) && (u' =? ch "u")); [|reflexivity].
  destruct (Hr eq_refl) as (u2 & -> & ->). reflexivity.
Qed.

Lemma scanstring_u_pair (h1 h2 h3 h4 g1 g2 g3 g4 hi lo : N) (r : pystr) :
  hex4 h1 h2 h3 h4 = Some hi ->
  hex4 g1 g2 g3 g4 = Some lo ->
  is_high_surrogate hi = true ->
  is_low_surrogate lo = true ->
  scanstring (BACKSLASH :: ch "u" :: h1 :: h2 :: h3 :: h4
              :: BACKSLASH :: ch "u" :: g1 :: g2 :: g3 :: g4 :: r)
  = cons_str (join_surrogates hi lo) (scanstring r).
Proof.
  intros H1 H2 Hhi Hlo. cbn [scanstring].
  cbn [BACKSLASH DQUOTE N.eqb Pos.eqb].
  rewrite N.eqb_refl, H1, Hhi. cbn [andb]. rewrite H2, Hlo. reflexivity.
Qed.

(** The four forms of [escape_char]. *)
Lemma escape_char_cases (c : N) :
  c < 0x110000 ->
  (exists e, escape_char c = [BACKSLASH; e] /\ unescape e = Some c)
  \/ (escape_char c = [c] /\ c <> 34 /\ c <> 92 /\ 32 <= c)
  \/ (c < 65536 /\ escape_char c = escape_u c)
  \/ (exists hi lo,
        escape_char c = escape_u hi ++ escape_u lo
        /\ hi < 65536 /\ lo < 65536
        /\ is_high_surrogate hi = true /\ is_low_surrogate lo = true
        /\ join_surrogates hi lo = c).
Proof.
  intros Hc. unfold escape_char, DQUOTE, BACKSLASH.
  destruct (c =? 34) eqn:E1.
  { left. exists 34. split; [reflexivity|]. cbv. f_equal. lia. }
  destruct (c =? 92) eqn:E2.
  { left. exists 92. split; [reflexivity|]. cbv. f_equal. lia. }
  destruct (c =? 10) eqn:E3.
  { left. eexists. split; [reflexivity|]. cbv. f_equal. lia. }
  destruct (c =? 13) eqn:E4.
  { left. eexists. split; [reflexivity|]. cbv. f_equal. lia. }
  destruct (c =? 9) eqn:E5.
  { left. eexists. split; [reflexivity|]. cbv. f_equal. lia. }
  destruct (c =? 8) eqn:E6.
  { left. eexists. split; [reflexivity|]. cbv. f_equal. lia. }
  destruct (c =? 12) eqn:E7.
  { left. eexists. split; [reflexivity|]. cbv. f_equal. lia. }
  destruct ((32 <=? c) && (c <=? 126)) eqn:E8.
  { right. left. repeat split; lia. }
  destruct (c <? 65536) eqn:E9.
  { right. right. left. split; [lia | reflexivity]. }
  right. right. right. eexists _, _. split; [reflexivity|].
  unfold is_high_surrogate, is_low_surrogate, join_surrogates.
  repeat split; lia.
Qed.

Lemma scanstring_escape_u (c : N) (r : pystr) :
  c < 65536 -> is_high_surrogate c = false ->
  scanstring (escape_u c ++ r) = cons_str c (scanstring r).
Proof.
  intros Hc Hh. apply scanstring_u; [apply hex4_escape; exact Hc | exact Hh].
Qed.

Lemma scanstring_escape_u_lone (c : N) (r : pystr) :
  c < 65536 -> no_low_escape r ->
  scanstring (escape_u c ++ r) = cons_str c (scanstring r).
Proof.
  intros Hc Hr. apply scanstring_u_lone; [apply hex4_escape; exact Hc | exact Hr].
Qed.

Lemma no_low_escape_escape_u (c : N) (r : pystr) :
  c < 65536 -> is_low_surrogate c = false -> no_low_escape (escape_u c ++ r).
Proof.
  intros Hc Hl. cbn [escape_u app no_low_escape]. intros _.
  exists c. split; [apply hex4_escape; exact Hc | exact Hl].
Qed.

(** After the escapes of a string whose first character is no low
    surrogate, and after the closing quote, no low surrogate's escape
    comes first. *)
Lemma no_low_escape_dumps (s rest : pystr) :
  match s with
  | [] => True
  | c :: _ => c < 0x110000 /\ is_low_surrogate c = false
  end ->
  no_low_escape (flat_map escape_char s ++ DQUOTE :: rest).
Proof.
  destruct s as [|c s]; intros H.
  - cbn [flat_map app no_low_escape].
    destruct rest as [|u [|g1 [|g2 [|g3 [|g4 r]]]]]; try exact I.
    cbn [DQUOTE BACKSLASH N.eqb Pos.eqb andb]. discriminate.
  - destruct H as [Hc Hl]. cbn [flat_map]. rewrite <- app_assoc.
    set (tail := flat_map escape_char s ++ DQUOTE :: rest).
    destruct (escape_char_cases c Hc)
      as [(e & -> & He)|[(-> & H1 & H2 & H3)|[(Hc' & ->)|
          (hi & lo & -> & Hhi & Hlo & Hh & _)]]].
    + cbn [app no_low_escape].
      destruct tail as [|g1 [|g2 [|g3 [|g4 r]]]]; try exact I.
      destruct (e =? ch "u") eqn:E.
      * apply N.eqb_eq in E. subst e. discriminate.
      * rewrite andb_false_r. discriminate.
    + cbn [app no_low_escape].
      destruct tail as [|u [|g1 [|g2 [|g3 [|g4 r]]]]]; try exact I.
      unfold BACKSLASH. replace (c =? 92) with false by lia. discriminate.
    + apply no_low_escape_escape_u; assumption.
    + rewrite <- app_assoc. apply no_low_escape_escape_u; [exact Hhi|].
      unfold is_high_surrogate, is_low_surrogate in *. lia.
Qed.

(** [scanstring] reads back what [encode_basestring_ascii] wrote. *)
Lemma scanstring_dumps (s rest : pystr) :
  wf_str s = true ->
  scanstring (flat_map escape_char s ++ DQUOTE :: rest) = Some (s, rest).
Proof.
  induction s as [|c s IH]; intros Hwf.
  - reflexivity.
  - cbn [wf_str] in Hwf. apply andb_true_iff in Hwf. destruct Hwf as [Hwf Hs].
    apply andb_true_iff in Hwf. destruct Hwf as [Hc Hpair].
    apply N.ltb_lt in Hc. specialize (IH Hs).
    cbn [flat_map]. rewrite <- app_assoc.
    destruct (escape_char_cases c Hc)
      as [(e & -> & He)|[(-> & H1 & H2 & H3)|[(Hc' & ->)|
          (hi & lo & -> & Hhi & Hlo & Hh & Hl & Hj)]]].
    + cbn [app]. rewrite (scanstring_escape e c _ He), IH. reflexivity.
    + cbn [app]. rewrite scanstring_plain by assumption. rewrite IH.
      reflexivity.
    + destruct (is_high_surrogate c) eqn:Eh.
      * rewrite scanstring_escape_u_lone; [rewrite IH; reflexivity|exact Hc'|].
        apply no_low_escape_dumps. destruct s as [|c2 s]; [exact I|].
        cbn [wf_str] in Hs. apply andb_true_iff in Hs. destruct Hs as [Hs _].
        apply andb_true_iff in Hs. destruct Hs as [Hc2 _].
        cbn [andb] in Hpair. apply negb_true_iff in Hpair.
        split; [lia | exact Hpair].
      * rewrite scanstring_escape_u by assumption. rewrite IH. reflexivity.
    + rewrite <- app_assoc. cbn [escape_u app].
      rewrite (scanstring_u_pair _ _ _ _ _ _ _ _ hi lo _
                 (hex4_escape hi Hhi) (hex4_escape lo Hlo) Hh Hl).
      rewrite IH, Hj. reflexivity.
Qed.


(** ** Induction on objects *)

Lemma pyobj_induction (P : pyobj -> Prop) :
  P PyNone ->
  (forall b, P (PyBool b)) ->
  (forall z, P (PyInt z)) ->
  (forall t, P (PyFloat t)) ->
  (forall s, P (PyStr s)) ->
  (forall l, Forall P l -> P (PyList l)) ->
  (forall d, Forall (fun kv => P (snd kv)) d -> P (PyDict d)) ->
  forall o, P o.
Proof.
  intros HN HB HI HF HS HL HD.
  fix IH 1. intros [| b | z | t | s | l | d].
  - exact HN.
  - apply HB.
  - apply HI.
  - apply HF.
  - apply HS.
  - apply HL. induction l as [|x l IHl]; constructor; [apply IH | exact IHl].
  - apply HD. induction d as [|[k x] d IHd]; constructor;
      [apply IH | exact IHd].
Qed.

(** ** Reading back what [json.dumps] wrote *)

Ltac norm_lit :=
  repeat match goal with
  | |- context [lit ?s] =>
    let v := eval vm_compute in (lit s) in change (lit s) with v
  | H : context [lit ?s] |- _ =>
    let v := eval vm_compute in (lit s) in change (lit s) with v in H
  end.

Lemma skip_ws_head (c : N) (r : pystr) :
  is_whitespace c = false -> skip_ws (c :: r) = c :: r.
Proof. intros H. cbn [skip_ws]. rewrite H. reflexivity. Qed.

Lemma scan_once_number (float_repr : pystr -> pystr) (n : nat) (s : pystr) :
  number_start s ->
  scan_once float_repr (S n) s = match_number float_repr s.
Proof.
  destruct s as [|c r]; [intros []|]. intros H. cbn [number_start] in H.
  cbn [scan_once]. unfold DQUOTE, str_startswith. norm_ch. norm_lit.
  unfold is_digit in H.
  replace (c =? 34) with false by lia.
  replace (c =? 123) with false by lia.
  replace (c =? 91) with false by lia.
  cbn [starts_with].
  replace (110 =? c) with false by lia.
  replace (116 =? c) with false by lia.
  replace (102 =? c) with false by lia.
  replace (78 =? c) with false by lia.
  replace (73 =? c) with false by lia.
  cbn [andb].
  destruct (45 =? c) eqn:E; [|reflexivity].
  destruct r as [|d r]; [reflexivity|].
  replace (73 =? d) with false by lia. reflexivity.
Qed.

Lemma number_start_parts (neg : bool) (ip r : pystr) :
  int_part ip -> number_start (sign neg ++ ip ++ r).
Proof.
  intros Hip. destruct (int_part_head ip r Hip) as (d & ip' & -> & Hd).
  destruct neg; cbn [sign app number_start]; auto.
Qed.

Lemma scan_once_int (float_repr : pystr -> pystr) (n : nat) (z : Z)
      (rest : pystr) :
  ends_value rest = true ->
  scan_once float_repr (S n) (int_repr z ++ rest) = Some (PyInt z, rest).
Proof.
  intros Hr. rewrite scan_once_number.
  - apply match_number_int. exact Hr.
  - destruct (int_repr_digits z) as (ip & -> & Hip & _).
    rewrite <- app_assoc. apply number_start_parts. exact Hip.
Qed.

Lemma scan_once_float (float_repr : pystr -> pystr) (n : nat)
      (t rest : pystr) :
  float_text float_repr t = true ->
  ends_value rest = true ->
  scan_once float_repr (S n) (t ++ rest) = Some (PyFloat t, rest).
Proof.
  intros Ht Hr. unfold float_text in Ht.
  rewrite !orb_true_iff, andb_true_iff, !str_eqb_eq in Ht.
  destruct Ht as [[[-> | ->] | ->] | [Hl Hfix]]; try reflexivity.
  apply is_float_lexeme_parts in Hl.
  rewrite scan_once_number.
  - rewrite match_number_float by assumption. rewrite Hfix. reflexivity.
  - destruct Hl as (neg & ip & f & e & -> & Hip & _).
    rewrite <- !app_assoc. apply number_start_parts. exact Hip.
Qed.

Lemma scan_once_str (float_repr : pystr -> pystr) (n : nat)
      (s rest : pystr) :
  wf_str s = true ->
  scan_once float_repr (S n) (encode_basestring_ascii s ++ rest)
  = Some (PyStr s, rest).
Proof.
  intros Hs. unfold encode_basestring_ascii. cbn [app scan_once].
  rewrite N.eqb_refl. rewrite <- app_assoc. cbn [app].
  rewrite scanstring_dumps by exact Hs. reflexivity.
Qed.

Lemma value_start_number (s : pystr) : number_start s -> value_start s.
Proof.
  destruct s as [|c r]; [intros []|]. cbn [number_start value_start].
  unfold is_digit, is_whitespace. lia.
Qed.

Lemma value_start_app (s r : pystr) : value_start s -> value_start (s ++ r).
Proof. destruct s; [intros []|]. exact (fun H => H). Qed.

Lemma dumps_start (float_repr : pystr -> pystr) (o : pyobj) :
  wf_obj float_repr o = true -> value_start (dumps_compact o).
Proof.
  destruct o as [| [|] | z | t | s | l | d]; cbn [wf_obj]; intros H;
    try (cbv; repeat split; discriminate).
  - unfold dumps_compact. cbn [dumps_with].
    destruct (int_repr_digits z) as (ip & -> & Hip & _).
    apply value_start_number.
    rewrite <- (List.app_nil_r ip). apply number_start_parts. exact Hip.
  - unfold dumps_compact. cbn [dumps_with]. unfold float_text in H.
    rewrite !orb_true_iff, andb_true_iff, !str_eqb_eq in H.
    destruct H as [[[-> | ->] | ->] | [Hl _]];
      try (cbv; repeat split; discriminate).
    apply is_float_lexeme_parts in Hl.
    destruct Hl as (neg & ip & f & e & -> & Hip & _).
    apply value_start_number, number_start_parts. exact Hip.
Qed.

Lemma skip_ws_start (s : pystr) : value_start s -> skip_ws s = s.
Proof.
  destruct s as [|c r]; [intros []|]. intros [H _]. apply skip_ws_head.
  exact H.
Qed.

Lemma str_join_start (l : list pyobj) (float_repr : pystr -> pystr)
      (x : pyobj) (r : pystr) :
  wf_obj float_repr x = true ->
  value_start (str_join (lit ",") (map dumps_compact (x :: l)) ++ r).
Proof.
  intros Hx. apply value_start_app. cbn [map str_join].
  destruct (map dumps_compact l).
  - apply (dumps_start float_repr). exact Hx.
  - apply value_start_app, (dumps_start float_repr). exact Hx.
Qed.

Lemma parse_items_dumps (float_repr : pystr -> pystr) (l : list pyobj) :
  Forall (reads_back float_repr) l ->
  forallb (wf_obj float_repr) l = true ->
  l <> [] ->
  forall (n : nat) (acc : list pyobj) (rest : pystr),
    (list_sum (map (fun x => S (weight x)) l) <= n)%nat ->
    parse_items float_repr n acc
      (str_join (lit ",") (map dumps_compact l) ++ 93 :: rest)
    = Some (PyList (acc ++ l), rest).
Proof.
  induction 1 as [|x l Hx Hl IH]; intros Hwf Hne n acc rest Hn;
    [congruence|].
  cbn [forallb] in Hwf. apply andb_true_iff in Hwf. destruct Hwf as [Hwx Hwl].
  cbn [map] in Hn. unfold list_sum in Hn. cbn [fold_right] in Hn.
  fold (list_sum (map (fun x => S (weight x)) l)) in Hn.
  destruct n as [|n]; [lia|].
  cbn [parse_items]. destruct l as [|y l].
  - cbn [map str_join].
    rewrite (Hx Hwx n (93 :: rest)) by (try reflexivity; lia).
    cbn [skip_ws]. change (is_whitespace 93) with false. cbv iota.
    norm_ch. cbn [N.eqb Pos.eqb]. reflexivity.
  - change (str_join (lit ",") (map dumps_compact (x :: y :: l)))
      with (dumps_compact x ++ lit ","
            ++ str_join (lit ",") (map dumps_compact (y :: l))).
    rewrite <- !app_assoc.
    rewrite (Hx Hwx n) by (try reflexivity; lia).
    norm_lit. cbn [app skip_ws]. change (is_whitespace 44) with false.
    cbv iota. norm_ch. cbn [N.eqb Pos.eqb].
    rewrite skip_ws_start.
    2:{ cbn [forallb] in Hwl. apply andb_true_iff in Hwl.
        apply (str_join_start l float_repr y). tauto. }
    rewrite (IH Hwl) by (try discriminate; lia).
    rewrite <- app_assoc. reflexivity.
Qed.

Lemma distinct_absent (acc d : pydict) (k : pystr) (v : pyobj) :
  distinct (map fst (acc ++ (k, v) :: d)) = true -> dict_has acc k = false.
Proof.
  unfold dict_has. induction acc as [|[k0 v0] acc IH]; cbn [app map fst];
    [reflexivity|].
  cbn [distinct dict_get]. rewrite andb_true_iff, negb_true_iff.
  intros [Hk Hd]. rewrite map_app, existsb_app in Hk.
  apply orb_false_iff in Hk. destruct Hk as [_ Hk]. cbn [map fst existsb] in Hk.
  apply orb_false_iff in Hk. destruct Hk as [Hk _]. rewrite Hk. auto.
Qed.

Lemma parse_pairs_dumps (float_repr : pystr -> pystr) (d : pydict) :
  Forall (fun kv => reads_back float_repr (snd kv)) d ->
  forallb (fun '(k, v) => wf_str k && wf_obj float_repr v) d = true ->
  d <> [] ->
  forall (n : nat) (acc : pydict) (rest : pystr),
    (list_sum (map (fun '(_, x) => S (weight x)) d) <= n)%nat ->
    distinct (map fst (acc ++ d)) = true ->
    parse_pairs float_repr n acc
      (str_join (lit ",")
         (map (fun '(k, v) =>
                 encode_basestring_ascii k ++ lit ":" ++ dumps_compact v) d)
       ++ 125 :: rest)
    = Some (PyDict (acc ++ d), rest).
Proof.
  induction 1 as [|[k x] d Hx Hd IH]; intros Hwf Hne n acc rest Hn Hdis;
    [congruence|].
  cbn [snd] in Hx.
  cbn [forallb] in Hwf. apply andb_true_iff in Hwf. destruct Hwf as [Hwx Hwd].
  apply andb_true_iff in Hwx. destruct Hwx as [Hk Hwx].
  cbn [map] in Hn. unfold list_sum in Hn. cbn [fold_right] in Hn.
  fold (list_sum (map (fun '(_, x) => S (weight x)) d)) in Hn.
  destruct n as [|n]; [lia|].
  pose proof (distinct_absent acc d k x Hdis) as Habs.
  assert (Hhead : forall tail,
    ends_value tail = true ->
    parse_pairs float_repr (S n) acc
      ((encode_basestring_ascii k ++ lit ":" ++ dumps_compact x) ++ tail)
    = match skip_ws tail with
      | [] => None
      | c :: r4 =>
        if c =? ch "}" then Some (PyDict (acc ++ [(k, x)]), r4)
        else if c =? ch ","
             then parse_pairs float_repr n (acc ++ [(k, x)]) (skip_ws r4)
             else None
      end).
  { intros tail Ht. unfold encode_basestring_ascii. cbn [app parse_pairs].
    rewrite N.eqb_refl. rewrite <- !app_assoc. cbn [app].
    rewrite scanstring_dumps by exact Hk.
    norm_lit. cbn [app skip_ws]. change (is_whitespace 58) with false.
    cbv iota. norm_ch. cbn [N.eqb Pos.eqb].
    rewrite skip_ws_start
      by (apply value_start_app, (dumps_start float_repr); exact Hwx).
    rewrite (Hx Hwx n tail) by (try exact Ht; lia).
    rewrite dict_set_absent by exact Habs. reflexivity. }
  destruct d as [|[k' y] d].
  - cbn [map str_join]. rewrite Hhead by reflexivity.
    cbn [skip_ws]. change (is_whitespace 125) with false. cbv iota.
    norm_ch. cbn [N.eqb Pos.eqb]. reflexivity.
  - change (str_join (lit ",")
              (map (fun '(k, v) =>
                      encode_basestring_ascii k ++ lit ":" ++ dumps_compact v)
                   ((k, x) :: (k', y) :: d)))
      with ((encode_basestring_ascii k ++ lit ":" ++ dumps_compact x)
            ++ lit ","
            ++ str_join (lit ",")
                 (map (fun '(k, v) =>
                         encode_basestring_ascii k ++ lit ":"
                         ++ dumps_compact v)
                      ((k', y) :: d))).
    rewrite <- (app_assoc _ (lit "," ++ _) (125 :: rest)).
    rewrite Hhead by reflexivity.
    rewrite <- app_assoc.
    norm_lit. cbn [app skip_ws]. change (is_whitespace 44) with false.
    cbv iota. norm_ch. cbn [N.eqb Pos.eqb].
    rewrite skip_ws_start by (cbn [map str_join]; destruct (map _ d); cbv;
                              repeat split; discriminate).
    rewrite (IH Hwd) by (try discriminate; try lia;
                         rewrite <- app_assoc; exact Hdis).
    rewrite <- app_assoc. reflexivity.
Qed.

(** [scan_once] reads back the compact serialisation of every well-formed
    object. *)
Lemma scan_once_dumps (float_repr : pystr -> pystr) (o : pyobj) :
  reads_back float_repr o.
Proof.
  induction o as [| b | z | t | s | l IH | d IH] using pyobj_induction;
    intros Hwf n rest Hn Hr; cbn [weight] in Hn;
    (destruct n as [|n]; [lia|]); cbn [wf_obj] in Hwf.
  - reflexivity.
  - destruct b; reflexivity.
  - apply scan_once_int. exact Hr.
  - apply scan_once_float; assumption.
  - apply scan_once_str. exact Hwf.
  - unfold dumps_compact. cbn [dumps_with]. fold dumps_compact.
    cbn [app scan_once]. norm_ch. cbn [DQUOTE N.eqb Pos.eqb].
    rewrite <- app_assoc. cbn [app]. destruct l as [|x l].
    + reflexivity.
    + rewrite skip_ws_start.
      2:{ cbn [forallb] in Hwf. apply andb_true_iff in Hwf.
          apply (str_join_start l float_repr x). tauto. }
      pose proof (str_join_start l float_repr x (93 :: rest)) as Hs.
      destruct (str_join (lit ",") (map dumps_compact (x :: l)) ++ 93 :: rest)
        as [|c r] eqn:E.
      * cbn [forallb] in Hwf. apply andb_true_iff in Hwf.
        destruct Hs; tauto.
      * assert (Hc : (c =? 93) = false).
        { cbn [forallb] in Hwf. apply andb_true_iff in Hwf.
          destruct Hs as (_ & Hc & _); [tauto | lia]. }
        rewrite Hc, <- E.
        apply (parse_items_dumps float_repr (x :: l) IH Hwf);
          [discriminate | lia].
  - apply andb_true_iff in Hwf. destruct Hwf as [Hwf Hdis].
    unfold dumps_compact. cbn [dumps_with]. fold dumps_compact.
    cbn [app scan_once]. norm_ch. cbn [DQUOTE N.eqb Pos.eqb].
    rewrite <- app_assoc. cbn [app]. destruct d as [|[k x] d].
    + reflexivity.
    + pose proof (parse_pairs_dumps float_repr ((k, x) :: d) IH Hwf
                    ltac:(discriminate) n [] rest ltac:(lia) Hdis) as Hp.
      cbn [app] in Hp.
      destruct (str_join (lit ",")
                  (map (fun '(k, v) =>
                          encode_basestring_ascii k ++ lit ":"
                          ++ dumps_compact v) ((k, x) :: d)) ++ 125 :: rest)
        as [|c r] eqn:E.
      * destruct n; discriminate.
      * assert (Hc : c = 34).
        { cbn [map str_join] in E. unfold encode_basestring_ascii in E.
          destruct (map _ d) in E; cbn [app] in E; injection E as <- _;
            reflexivity. }
        subst c. cbn [skip_ws]. change (is_whitespace 34) with false.
        cbv iota. cbn [N.eqb Pos.eqb]. exact Hp.
Qed.

Lemma loads_dumps (float_repr : pystr -> pystr) (o : pyobj) :
  wf_obj float_repr o = true ->
  (weight o <= S (List.length (dumps_compact o)))%nat ->
  loads float_repr (dumps_compact o) = Some o.
Proof.
  intros Hwf Hw. unfold loads.
  pose proof (dumps_start float_repr o Hwf) as Hs.
  rewrite (skip_ws_start _ Hs).
  replace (str_startswith (dumps_compact o) [65279]) with false.
  - rewrite <- (List.app_nil_r (dumps_compact o)) at 2.
    rewrite (scan_once_dumps float_repr o Hwf _ [] Hw eq_refl). reflexivity.
  - destruct (dumps_compact o) as [|c r]; [destruct Hs|].
    destruct Hs as (_ & _ & Hc). unfold str_startswith. cbn [starts_with].
    replace (65279 =? c) with false by lia. reflexivity.
Qed.

Lemma sum_le_join {A} (w : A -> nat) (txt : A -> pystr) (sep : pystr)
      (l : list A) :
  (1 <= List.length sep)%nat ->
  Forall (fun a => (w a <= List.length (txt a))%nat) l ->
  (list_sum (map (fun a => S (w a)) l)
   <= S (List.length (str_join sep (map txt l))))%nat.
Proof.
  intros Hsep H. induction H as [|a l Ha Hl IH]; [simpl; lia|].
  cbn [map]. unfold list_sum. cbn [fold_right].
  fold (list_sum (map (fun a => S (w a)) l)).
  destruct l as [|b l].
  - cbn [map str_join list_sum fold_right]. lia.
  - change (str_join sep (txt a :: map txt (b :: l)))
      with (txt a ++ sep ++ str_join sep (map txt (b :: l))).
    rewrite !length_app. lia.
Qed.

(** The length of the text is fuel enough. *)
Lemma weight_le_length (float_repr : pystr -> pystr) (o : pyobj) :
  wf_obj float_repr o = true ->
  (weight o <= List.length (dumps_compact o))%nat.
Proof.
  induction o as [| b | z | t | s | l IH | d IH] using pyobj_induction;
    intros Hwf;
    try (pose proof (dumps_start float_repr _ Hwf) as Hs;
         destruct (dumps_compact _); [destruct Hs | simpl; lia]).
  - cbn [wf_obj] in Hwf. unfold dumps_compact. cbn [dumps_with weight].
    fold dumps_compact. cbn [List.length]. rewrite length_app.
    cbn [List.length].
    pose proof (sum_le_join weight dumps_compact (lit ",") l) as H.
    assert (Hl : Forall (fun a => (weight a <= List.length (dumps_compact a))%nat) l).
    { rewrite forallb_forall in Hwf. rewrite Forall_forall in *. auto. }
    specialize (H ltac:(cbv; lia) Hl). lia.
  - cbn [wf_obj] in Hwf. apply andb_true_iff in Hwf. destruct Hwf as [Hwf _].
    unfold dumps_compact. cbn [dumps_with weight].
    fold dumps_compact. cbn [List.length]. rewrite length_app.
    cbn [List.length].
    pose proof (sum_le_join (fun kv => weight (snd kv))
                  (fun '(k, v) =>
                     encode_basestring_ascii k ++ lit ":" ++ dumps_compact v)
                  (lit ",") d) as H.
    assert (Hl : Forall (fun kv : pystr * pyobj =>
                  (weight (snd kv)
                   <= List.length
                        (let '(k, v) := kv in
                         encode_basestring_ascii k ++ lit ":"
                         ++ dumps_compact v))%nat) d).
    { rewrite forallb_forall in Hwf. rewrite Forall_forall in *.
      intros [k v] Hin. specialize (IH _ Hin). specialize (Hwf _ Hin).
      cbn [snd] in *. apply andb_true_iff in Hwf.
      rewrite !length_app. specialize (IH (proj2 Hwf)). lia. }
    specialize (H ltac:(cbv; lia) Hl).
    replace (map (fun '(_, x) => S (weight x)) d)
      with (map (fun a => S (weight (snd a))) d)
      by (apply map_ext; intros [k v]; reflexivity).
    apply le_n_S. eapply Nat.le_trans; [exact H|].
    rewrite Nat.add_1_r. apply le_n.
Qed.

Lemma loads_dumps_wf (float_repr : pystr -> pystr) (o : pyobj) :
  wf_obj float_repr o = true ->
  loads float_repr (dumps_compact o) = Some o.
Proof.
  intros Hwf. apply loads_dumps; [exact Hwf|].
  pose proof (weight_le_length float_repr o Hwf). lia.
Qed.


(** ** What [json.loads] gives is well-formed *)

Lemma hexval_bound (c d : N) : hexval c = Some d -> d < 16.
Proof.
  unfold hexval.
  repeat match goal with
  | |- context [if ?b then _ else _] => destruct b eqn:?
  end; intros H; inversion H; lia.
Qed.

Lemma hex4_bound (a b c d u : N) : hex4 a b c d = Some u -> u < 65536.
Proof.
  unfold hex4.
  destruct (hexval a) as [x|] eqn:Ea; [|discriminate].
  destruct (hexval b) as [y|] eqn:Eb; [|discriminate].
  destruct (hexval c) as [z|] eqn:Ec; [|discriminate].
  destruct (hexval d) as [w|] eqn:Ed; [|discriminate].
  apply hexval_bound in Ea, Eb, Ec, Ed. intros H. inversion H. lia.
Qed.

Lemma unescape_small (e x : N) : unescape e = Some x -> x < 128.
Proof.
  unfold unescape, DQUOTE, BACKSLASH. norm_ch.
  repeat match goal with
  | |- context [if ?b then _ else _] => destruct b eqn:?
  end; intros H; inversion H; lia.
Qed.

Lemma cons_str_inv (c : N) (r : option (pystr * pystr)) (str rest : pystr) :
  cons_str c r = Some (str, rest) ->
  exists str', r = Some (str', rest) /\ str = c :: str'.
Proof.
  destruct r as [[s' r']|]; [|discriminate]. cbn [cons_str].
  intros H. injection H as <- <-. eauto.
Qed.

Lemma scalars_tail (c : N) (s : pystr) : scalars (c :: s) -> scalars s.
Proof. intros H. inversion H. assumption. Qed.

Lemma wf_str_cons (c : N) (str : pystr) :
  c < 0x110000 ->
  (is_high_surrogate c = true ->
   match str with c2 :: _ => is_low_surrogate c2 = false | [] => True end) ->
  wf_str str = true ->
  wf_str (c :: str) = true.
Proof.
  intros Hc Hp Hs. cbn [wf_str]. rewrite Hs, andb_true_r.
  apply andb_true_iff. split; [lia|]. apply negb_true_iff.
  destruct (is_high_surrogate c); [|reflexivity].
  destruct str; [reflexivity|]. cbn [andb]. auto.
Qed.

Lemma scanstring_wf_aux (n : nat) :
  forall s str rest,
    (List.length s <= n)%nat ->
    scalars s ->
    scanstring s = Some (str, rest) ->
    wf_str str = true /\ scalars rest /\ low_from_escape s str.
Proof.
  induction n as [|n IH]; intros s str rest Hlen Hs H.
  { destruct s; [discriminate | simpl in Hlen; lia]. }
  destruct s as [|c r]; [discriminate|].
  assert (Hc : Utf8.scalar c = true) by (inversion Hs; assumption).
  assert (Hr : scalars r) by (inversion Hs; assumption).
  cbn [List.length] in Hlen. cbn [scanstring] in H.
  destruct (c =? DQUOTE) eqn:Eq.
  { injection H as <- <-. split; [reflexivity | split; [exact Hr | exact I]]. }
  destruct (c =? BACKSLASH) eqn:Eb.
  2:{ destruct (c <? 32) eqn:E32; [discriminate|].
      apply cons_str_inv in H. destruct H as (str' & H & ->).
      destruct (IH r str' rest ltac:(lia) Hr H) as (Hw & Hrest & _).
      utf8_unfold. unfold is_high_surrogate, is_low_surrogate.
      split; [|split; [exact Hrest|]].
      - apply wf_str_cons; [lia | | exact Hw].
        unfold is_high_surrogate. lia.
      - cbn [low_from_escape]. unfold is_low_surrogate. lia. }
  destruct r as [|e r1]; [discriminate|]. apply scalars_tail in Hr.
  cbn [List.length] in Hlen.
  destruct (e =? ch "u") eqn:Eu.
  2:{ destruct (unescape e) as [x|] eqn:Ex; [|discriminate].
      apply unescape_small in Ex.
      apply cons_str_inv in H. destruct H as (str' & H & ->).
      destruct (IH r1 str' rest ltac:(lia) Hr H) as (Hw & Hrest & _).
      split; [|split; [exact Hrest|]].
      - apply wf_str_cons; [lia | | exact Hw].
        unfold is_high_surrogate. lia.
      - cbn [low_from_escape]. unfold is_low_surrogate. lia. }
  destruct r1 as [|h1 [|h2 [|h3 [|h4 r2]]]]; try discriminate.
  do 4 apply scalars_tail in Hr. cbn [List.length] in Hlen.
  destruct (hex4 h1 h2 h3 h4) as [u|] eqn:Eh; [|discriminate].
  pose proof (hex4_bound h1 h2 h3 h4 u Eh) as Hu.
  apply N.eqb_eq in Eb, Eu. subst c e.
  (* the cases that end in [cons_str u (scanstring r2)] *)
  assert (Hlone :
    (is_high_surrogate u = true ->
     forall g1 g2 g3 g4 r3 u2,
       r2 = BACKSLASH :: ch "u" :: g1 :: g2 :: g3 :: g4 :: r3 ->
       hex4 g1 g2 g3 g4 = Some u2 -> is_low_surrogate u2 = false) ->
    cons_str u (scanstring r2) = Some (str, rest) ->
    wf_str str = true /\ scalars rest
    /\ low_from_escape
         (BACKSLASH :: ch "u" :: h1 :: h2 :: h3 :: h4 :: r2) str).
  { intros Hnl H'. apply cons_str_inv in H'. destruct H' as (str' & H' & ->).
    destruct (IH r2 str' rest ltac:(lia) Hr H') as (Hw & Hrest & Hle).
    split; [|split; [exact Hrest|]].
    - apply wf_str_cons; [lia | | exact Hw]. intros Hhigh.
      destruct str' as [|c2 str']; [exact I|]. cbn [low_from_escape] in Hle.
      destruct (is_low_surrogate c2) eqn:El; [|reflexivity].
      destruct (Hle eq_refl) as (g1 & g2 & g3 & g4 & r3 & -> & Hg).
      rewrite <- El. exact (Hnl Hhigh g1 g2 g3 g4 r3 c2 eq_refl Hg).
    - cbn [low_from_escape]. intros _. eexists _, _, _, _, _.
      split; [reflexivity | exact Eh]. }
  destruct (is_high_surrogate u) eqn:Ehigh.
  2:{ apply Hlone; [discriminate | exact H]. }
  destruct r2 as [|b [|u' [|g1 [|g2 [|g3 [|g4 r3]]]]]];
    try (apply Hlone; [intros _ ? ? ? ? ? ? ?; discriminate | exact H]).
  destruct ((b =? BACKSLASH) && (u' =? ch "u")) eqn:Ebu.
  2:{ apply Hlone; [|exact H]. intros _ ? ? ? ? ? ? Heq. injection Heq.
      intros; subst. rewrite !N.eqb_refl in Ebu. discriminate. }
  destruct (hex4 g1 g2 g3 g4) as [u2|] eqn:Eg; [|discriminate].
  destruct (is_low_surrogate u2) eqn:Elow.
  2:{ apply Hlone; [|exact H]. intros _ ? ? ? ? ? ? Heq Hg. injection Heq.
      intros; subst. rewrite Eg in Hg. injection Hg as <-. exact Elow. }
  do 6 apply scalars_tail in Hr. cbn [List.length] in Hlen.
  apply cons_str_inv in H. destruct H as (str' & H & ->).
  destruct (IH r3 str' rest ltac:(lia) Hr H) as (Hw & Hrest & _).
  pose proof (hex4_bound g1 g2 g3 g4 u2 Eg) as Hu2.
  unfold is_high_surrogate, is_low_surrogate, join_surrogates in *.
  split; [|split; [exact Hrest|]].
  - apply wf_str_cons; [lia | | exact Hw]. unfold is_high_surrogate. lia.
  - cbn [low_from_escape]. unfold is_low_surrogate. lia.
Qed.

Lemma scanstring_wf (s str rest : pystr) :
  scalars s ->
  scanstring s = Some (str, rest) ->
  wf_str str = true /\ scalars rest.
Proof.
  intros Hs H.
  destruct (scanstring_wf_aux (List.length s) s str rest (le_n _) Hs H)
    as (Hw & Hr & _).
  auto.
Qed.

Lemma scalars_app_r (a b : pystr) : scalars (a ++ b) -> scalars b.
Proof. intros H. apply Forall_app in H. tauto. Qed.

Lemma scalars_skip_ws (s : pystr) : scalars s -> scalars (skip_ws s).
Proof.
  induction s as [|c s IH]; intros H; [exact H|]. cbn [skip_ws].
  destruct (is_whitespace c); [|exact H]. apply IH.
  exact (scalars_tail c s H).
Qed.

Lemma scalars_skipn (k : nat) (s : pystr) : scalars s -> scalars (skipn k s).
Proof.
  revert s. induction k as [|k IH]; intros s H; [exact H|].
  destruct s as [|c s]; [exact H|]. cbn [skipn]. apply IH.
  exact (scalars_tail c s H).
Qed.

Lemma match_number_rest (float_repr : pystr -> pystr) (s r : pystr)
      (v : pyobj) :
  match_number float_repr s = Some (v, r) -> exists pre, s = pre ++ r.
Proof.
  unfold match_number.
  destruct (scan_sign s) as [neg s1] eqn:Esg.
  destruct (scan_int s1) as [[ip r1]|] eqn:Ei; [|discriminate].
  destruct (scan_frac r1) as [f r2] eqn:Ef.
  destruct (scan_exp r2) as [e r3] eqn:Ee.
  destruct (scan_int_spec s1 ip r1 Ei) as [-> _].
  destruct (scan_frac_spec r1 f r2 Ef) as [-> _].
  destruct (scan_exp_spec r2 e r3 Ee) as [-> _].
  apply scan_sign_spec in Esg. subst s.
  intros H. exists (sign neg ++ ip ++ f ++ e).
  assert (r = r3) as ->.
  { destruct f; [destruct e|]; injection H as _ <-; reflexivity. }
  rewrite <- !app_assoc. reflexivity.
Qed.

Lemma match_number_wf (float_repr : pystr -> pystr) (s r : pystr)
      (v : pyobj) :
  float_repr_stable float_repr ->
  scalars s ->
  match_number float_repr s = Some (v, r) ->
  wf_obj float_repr v = true /\ scalars r.
Proof.
  intros Hfr Hs H. split.
  - destruct (match_number_spec float_repr s r v H)
      as [[z ->]|(t & -> & Ht)]; [reflexivity|].
    cbn [wf_obj]. apply Hfr, is_float_lexeme_parts. exact Ht.
  - destruct (match_number_rest float_repr s r v H) as [pre ->].
    exact (scalars_app_r pre r Hs).
Qed.

Lemma dict_set_keys (p : pystr -> bool) (d : pydict) (k : pystr) (v : pyobj) :
  existsb p (map fst (dict_set d k v)) = true ->
  existsb p (map fst d) = true \/ p k = true.
Proof.
  induction d as [|[k0 v0] d IH]; cbn [dict_set map fst existsb].
  - rewrite orb_false_r. auto.
  - destruct (str_eqb k0 k); cbn [map fst existsb]; [auto|].
    rewrite !orb_true_iff. intros [H|H]; [auto|].
    destruct (IH H); auto.
Qed.

Lemma dict_set_wf (float_repr : pystr -> pystr) (d : pydict) (k : pystr)
      (v : pyobj) :
  wf_dict float_repr d = true ->
  wf_str k = true ->
  wf_obj float_repr v = true ->
  wf_dict float_repr (dict_set d k v) = true.
Proof.
  unfold wf_dict. intros Hd Hk Hv.
  apply andb_true_iff in Hd. destruct Hd as [Hall Hdis].
  apply andb_true_iff. split.
  - clear Hdis. induction d as [|[k0 v0] d IH]; cbn [dict_set forallb].
    + rewrite Hk, Hv. reflexivity.
    + cbn [forallb] in Hall. apply andb_true_iff in Hall.
      destruct Hall as [H0 Hall].
      destruct (str_eqb k0 k); cbn [forallb].
      * apply andb_true_iff in H0. destruct H0 as [H0 _].
        rewrite H0, Hv, Hall. reflexivity.
      * rewrite H0, (IH Hall). reflexivity.
  - clear Hall. induction d as [|[k0 v0] d IH]; cbn [dict_set map fst distinct].
    + reflexivity.
    + cbn [map fst distinct] in Hdis. apply andb_true_iff in Hdis.
      destruct Hdis as [H0 Hdis].
      destruct (str_eqb k0 k) eqn:E; cbn [map fst distinct].
      * rewrite H0, Hdis. reflexivity.
      * rewrite (IH Hdis), andb_true_r. apply negb_true_iff.
        apply negb_true_iff in H0.
        destruct (existsb (str_eqb k0) (map fst (dict_set d k v))) eqn:Ex;
          [|reflexivity].
        destruct (dict_set_keys (str_eqb k0) d k v Ex); congruence.
Qed.

Lemma forallb_snoc {A} (p : A -> bool) (l : list A) (a : A) :
  forallb p l = true -> p a = true -> forallb p (l ++ [a]) = true.
Proof.
  intros Hl Ha. rewrite forallb_app, Hl. cbn [forallb]. rewrite Ha.
  reflexivity.
Qed.

Lemma scan_once_wf (float_repr : pystr -> pystr) :
  float_repr_stable float_repr ->
  forall n : nat,
    (forall s v r,
        scalars s ->
        scan_once float_repr n s = Some (v, r) ->
        wf_obj float_repr v = true /\ scalars r)
    /\ (forall s acc v r,
           scalars s ->
           wf_dict float_repr acc = true ->
           parse_pairs float_repr n acc s = Some (v, r) ->
           wf_obj float_repr v = true /\ scalars r)
    /\ (forall s acc v r,
           scalars s ->
           forallb (wf_obj float_repr) acc = true ->
           parse_items float_repr n acc s = Some (v, r) ->
           wf_obj float_repr v = true /\ scalars r).
Proof.
  intros Hfr. induction n as [|n (IH1 & IH2 & IH3)].
  { repeat split; intros; discriminate. }
  split; [|split].
  - intros s v r Hs H. destruct s as [|c s']; [discriminate|].
    cbn [scan_once] in H.
    destruct (c =? DQUOTE).
    { destruct (scanstring s') as [[str rest]|] eqn:E; [|discriminate].
      injection H as <- <-.
      apply (scanstring_wf s' str rest (scalars_tail c s' Hs) E). }
    destruct (c =? ch "{").
    { pose proof (scalars_skip_ws s' (scalars_tail c s' Hs)) as Hk.
      destruct (skip_ws s') as [|x r']; [discriminate|].
      destruct (x =? ch "}").
      - injection H as <- <-. split; [reflexivity|].
        exact (scalars_tail x r' Hk).
      - exact (IH2 (x :: r') [] v r Hk eq_refl H). }
    destruct (c =? ch "[").
    { pose proof (scalars_skip_ws s' (scalars_tail c s' Hs)) as Hk.
      destruct (skip_ws s') as [|x r']; [discriminate|].
      destruct (x =? ch "]").
      - injection H as <- <-. split; [reflexivity|].
        exact (scalars_tail x r' Hk).
      - exact (IH3 (x :: r') [] v r Hk eq_refl H). }
    pose proof (fun k => scalars_skipn k (c :: s') Hs) as Hk.
    repeat match type of H with
    | (if ?b then _ else _) = _ =>
      destruct b;
      [injection H as <- <-; split;
        [reflexivity
        |first [exact (Hk 3%nat) | exact (Hk 4%nat) | exact (Hk 5%nat)
               |exact (Hk 8%nat) | exact (Hk 9%nat)]]|]
    end.
    exact (match_number_wf float_repr (c :: s') r v Hfr Hs H).
  - intros s acc v r Hs Hacc H. destruct s as [|q s']; [discriminate|].
    cbn [parse_pairs] in H.
    destruct (q =? DQUOTE); [|discriminate].
    destruct (scanstring s') as [[key r1]|] eqn:Ek; [|discriminate].
    destruct (scanstring_wf s' key r1 (scalars_tail q s' Hs) Ek)
      as [Hkey Hr1].
    apply scalars_skip_ws in Hr1.
    destruct (skip_ws r1) as [|colon r2]; [discriminate|].
    destruct (colon =? ch ":"); [|discriminate].
    apply scalars_tail, scalars_skip_ws in Hr1.
    destruct (scan_once float_repr n (skip_ws r2)) as [[val r3]|] eqn:Ev;
      [|discriminate].
    destruct (IH1 (skip_ws r2) val r3 Hr1 Ev) as [Hval Hr3].
    apply scalars_skip_ws in Hr3.
    pose proof (dict_set_wf float_repr acc key val Hacc Hkey Hval) as Hd.
    destruct (skip_ws r3) as [|x r4]; [discriminate|].
    apply scalars_tail in Hr3.
    destruct (x =? ch "}").
    { injection H as <- <-. split; [exact Hd | exact Hr3]. }
    destruct (x =? ch ","); [|discriminate].
    exact (IH2 (skip_ws r4) (dict_set acc key val) v r
             (scalars_skip_ws r4 Hr3) Hd H).
  - intros s acc v r Hs Hacc H. cbn [parse_items] in H.
    destruct (scan_once float_repr n s) as [[val r1]|] eqn:Ev;
      [|discriminate].
    destruct (IH1 s val r1 Hs Ev) as [Hval Hr1].
    apply scalars_skip_ws in Hr1.
    destruct (skip_ws r1) as [|x r2]; [discriminate|].
    apply scalars_tail in Hr1.
    pose proof (forallb_snoc (wf_obj float_repr) acc val Hacc Hval) as Hl.
    destruct (x =? ch "]").
    { injection H as <- <-. split; [exact Hl | exact Hr1]. }
    destruct (x =? ch ","); [|discriminate].
    exact (IH3 (skip_ws r2) (acc ++ [val]) v r
             (scalars_skip_ws r2 Hr1) Hl H).
Qed.

Lemma loads_wf (float_repr : pystr -> pystr) (s : pystr) (o : pyobj) :
  float_repr_stable float_repr ->
  scalars s ->
  loads float_repr s = Some o ->
  wf_obj float_repr o = true.
Proof.
  intros Hfr Hs. unfold loads.
  destruct (str_startswith s [65279]); [discriminate|].
  destruct (scan_once float_repr (S (List.length s)) (skip_ws s))
    as [[v r]|] eqn:E; [|discriminate].
  destruct (skip_ws r); [|discriminate]. intros H. injection H as <-.
  apply (proj1 (scan_once_wf float_repr Hfr (S (List.length s)))
           (skip_ws s) v r (scalars_skip_ws s Hs) E).
Qed.


(** ** Running the fixes twice *)

Lemma dict_set_same (d : pydict) (k : pystr) (v : pyobj) :
  dict_get d k = Some v -> dict_set d k v = d.
Proof.
  induction d as [|[k0 v0] d IH]; cbn [dict_get dict_set]; [discriminate|].
  destruct (str_eqb k0 k).
  - intros H. injection H as <-. reflexivity.
  - intros H. rewrite IH by exact H. reflexivity.
Qed.

Lemma dict_set_set (d : pydict) (k : pystr) (v v' : pyobj) :
  dict_set (dict_set d k v) k v' = dict_set d k v'.
Proof.
  induction d as [|[k0 v0] d IH]; cbn [dict_set].
  - rewrite str_eqb_refl. reflexivity.
  - destruct (str_eqb k0 k) eqn:E; cbn [dict_set]; rewrite E.
    + reflexivity.
    + rewrite IH. reflexivity.
Qed.

Lemma dict_has_set (d : pydict) (k : pystr) (v : pyobj) :
  dict_has (dict_set d k v) k = true.
Proof. unfold dict_has. rewrite dict_get_set_same. reflexivity. Qed.

Lemma dict_has_set_other (d : pydict) (k k' : pystr) (v : pyobj) :
  k <> k' -> dict_has (dict_set d k v) k' = dict_has d k'.
Proof.
  intros H. unfold dict_has. rewrite dict_get_set_other by exact H.
  reflexivity.
Qed.

Lemma mapM_inv {A B} (f : A -> result B) (a : A) (l : list A) (rs : list B) :
  mapM f (a :: l) = Ok rs ->
  exists b bs, f a = Ok b /\ mapM f l = Ok bs /\ rs = b :: bs.
Proof.
  cbn [mapM]. destruct (f a) as [b|]; [|discriminate]. cbn [bind].
  destruct (mapM f l) as [bs|]; [|discriminate]. cbn [bind].
  intros H. injection H as <-. eauto.
Qed.

Lemma mapM_settled (body : pyobj -> result (pyobj * bool)) (l : list pyobj) :
  settles body ->
  forall rs,
    mapM body l = Ok rs ->
    mapM body (map fst rs) = Ok (map (fun r => (fst r, false)) rs).
Proof.
  intros Hb. induction l as [|x l IH]; intros rs H.
  - injection H as <-. reflexivity.
  - apply mapM_inv in H. destruct H as ([x' c] & bs & Hx & Hl & ->).
    cbn [map fst mapM]. rewrite (Hb x x' c Hx). cbn [bind].
    rewrite (IH bs Hl). reflexivity.
Qed.

Lemma mapM_inert (body : pyobj -> result (pyobj * bool)) (l : list pyobj) :
  inert_on_str body ->
  forallb is_str l = true ->
  forall rs, mapM body l = Ok rs -> existsb snd rs = false.
Proof.
  intros Hb. induction l as [|x l IH]; intros Hl rs H.
  - injection H as <-. reflexivity.
  - cbn [forallb] in Hl. apply andb_true_iff in Hl. destruct Hl as [Hx Hl].
    apply mapM_inv in H. destruct H as ([x' c] & bs & Hbx & Hbl & ->).
    destruct x; try discriminate.
    cbn [existsb snd]. rewrite (Hb s x' c Hbx), (IH Hl bs Hbl). reflexivity.
Qed.

Lemma existsb_false_map {A B} (f : A -> B) (l : list A) :
  existsb snd (map (fun r => (f r, false)) l) = false.
Proof. induction l; simpl; auto. Qed.

Lemma for_each_settled (body : pyobj -> result (pyobj * bool))
      (o o' : pyobj) (c : bool) :
  settles body -> inert_on_str body ->
  for_each o body = Ok (o', c) ->
  for_each o' body = Ok (o', false).
Proof.
  intros Hs Hi. unfold for_each.
  destruct (py_iter o) as [items|] eqn:Eit; [|discriminate]. cbn [bind].
  destruct (mapM body items) as [rs|] eqn:Em; [|discriminate]. cbn [bind].
  intros H. injection H as <- <-.
  destruct o as [| | | |s|l|d]; try discriminate; cbn [py_iter] in Eit;
    injection Eit as <-; cbn [store_items py_iter bind].
  - rewrite Em. cbn [bind store_items]. f_equal. f_equal.
    eapply (mapM_inert body _ Hi); [|exact Em].
    clear. induction s; simpl; auto.
  - rewrite (mapM_settled body l Hs rs Em). cbn [bind store_items].
    rewrite map_map. cbn [fst]. rewrite existsb_false_map. reflexivity.
  - rewrite Em. cbn [bind store_items]. f_equal. f_equal.
    eapply (mapM_inert body _ Hi); [|exact Em].
    clear. induction d; simpl; auto.
Qed.

Lemma get_update_settled (k : pystr) (default : pyobj)
      (body : pyobj -> result (pyobj * bool)) :
  settles body ->
  (forall v' c, body default = Ok (v', c) -> c = false) ->
  settles (get_update k default body).
Proof.
  intros Hs Hd o o' c. unfold get_update.
  destruct o as [| | | | | |d]; try discriminate. cbn [py_get bind store].
  unfold dict_has.
  destruct (dict_get d k) as [v|] eqn:Eg; cbn [negb].
  - destruct (body v) as [[v' c']|] eqn:Eb; [|discriminate]. cbn [bind].
    intros H. injection H as <- <-. cbn [py_get bind store].
    unfold dict_has. rewrite dict_get_set_same.
    rewrite (Hs v v' c' Eb). cbn [bind]. rewrite dict_set_set. reflexivity.
  - destruct (body default) as [[v' c']|] eqn:Eb; [|discriminate]. cbn [bind].
    intros H. injection H as <- <-. cbn [py_get bind store].
    unfold dict_has. rewrite Eg, Eb. cbn [bind].
    rewrite (Hd v' c' eq_refl). reflexivity.
Qed.

Lemma get_update_inert (k : pystr) (default : pyobj)
      (body : pyobj -> result (pyobj * bool)) :
  inert_on_str (get_update k default body).
Proof. intros s x' c H. discriminate. Qed.

Lemma fix_tool_call_settled : settles fix_tool_call.
Proof.
  intros tc tc' c. unfold fix_tool_call.
  destruct tc as [| | | |s|l|d]; try discriminate;
    cbn [py_contains bind py_setitem].
  - destruct (str_contains s (lit "index")) eqn:E; cbn [negb bind];
      [|discriminate].
    intros H. injection H as <- <-. cbn [py_contains bind]. rewrite E.
    reflexivity.
  - match goal with |- context [negb ?b] => destruct b eqn:E end;
      cbn [negb bind]; [|discriminate].
    intros H. injection H as <- <-. cbn [py_contains bind]. rewrite E.
    reflexivity.
  - destruct (dict_has d (lit "index")) eqn:E; cbn [negb bind];
      intros H; injection H as <- <-; cbn [py_contains bind].
    + rewrite E. reflexivity.
    + rewrite dict_has_set. reflexivity.
Qed.

Lemma fix_tool_call_inert : inert_on_str fix_tool_call.
Proof.
  intros s x' c. unfold fix_tool_call. cbn [py_contains bind py_setitem].
  destruct (str_contains s (lit "index")); cbn [negb bind];
    [|discriminate].
  intros H. injection H as _ <-. reflexivity.
Qed.

Lemma for_each_nil (body : pyobj -> result (pyobj * bool)) (v' : pyobj)
      (c : bool) :
  for_each (PyList []) body = Ok (v', c) -> c = false.
Proof. intros H. injection H as _ <-. reflexivity. Qed.

Lemma fix_choice_nested (choice : pyobj) :
  fix_choice choice
  = get_update (lit "delta") (PyDict [])
      (get_update (lit "tool_calls") (PyList [])
         (fun tool_calls => for_each tool_calls fix_tool_call)) choice.
Proof.
  unfold fix_choice, get_update.
  destruct (py_get choice (lit "delta") (PyDict [])) as [delta|];
    [|reflexivity].
  cbn [bind].
  destruct (py_get delta (lit "tool_calls") (PyList [])) as [tcs|];
    [|reflexivity].
  cbn [bind].
  destruct (for_each tcs fix_tool_call) as [[tcs' c]|]; reflexivity.
Qed.

Lemma fix_choice_settled : settles fix_choice.
Proof.
  intros x x' c. rewrite !fix_choice_nested. revert x x' c.
  apply get_update_settled.
  - apply get_update_settled.
    + intros o o' c. apply for_each_settled.
      * exact fix_tool_call_settled.
      * exact fix_tool_call_inert.
    + intros v' c. apply for_each_nil.
  - intros v' c H. unfold get_update in H. cbn in H.
    injection H as _ <-. reflexivity.
Qed.

Lemma fix_choice_inert : inert_on_str fix_choice.
Proof.
  intros s x' c. rewrite fix_choice_nested. apply get_update_inert.
Qed.

Lemma add_missing_index_settled : settles add_missing_index.
Proof.
  apply (get_update_settled (lit "choices") (PyList [])
           (fun choices => for_each choices fix_choice)).
  - intros o o' c. apply for_each_settled.
    + exact fix_choice_settled.
    + exact fix_choice_inert.
  - intros v' c. apply for_each_nil.
Qed.

(** Fix 2 reads nothing of the key [model]. *)
Lemma add_missing_index_model (d : pydict) (v : pyobj) :
  add_missing_index (PyDict d) = Ok (PyDict d, false) ->
  add_missing_index (PyDict (dict_set d (lit "model") v))
  = Ok (PyDict (dict_set d (lit "model") v), false).
Proof.
  assert (Hne : lit "model" <> lit "choices") by discriminate.
  unfold add_missing_index. cbn [py_get bind store].
  unfold dict_has. rewrite (dict_get_set_other d _ _ v Hne).
  destruct (dict_get d (lit "choices")) as [choices|] eqn:Eg.
  - destruct (for_each choices fix_choice) as [[choices' c]|];
      [|discriminate].
    cbn [bind]. intros H. injection H as H ->.
    assert (Hc : dict_get d (lit "choices") = Some choices').
    { rewrite <- H at 1. apply dict_get_set_same. }
    rewrite dict_set_same; [reflexivity|].
    rewrite (dict_get_set_other d _ _ v Hne). exact Hc.
  - destruct (for_each (PyList []) fix_choice) as [[choices' c]|];
      [|discriminate].
    cbn [bind]. intros H. injection H as ->. reflexivity.
Qed.

Lemma fix_payload_settled (MODEL_NAME : pystr) (p p' : pyobj) (c : bool) :
  fix_payload MODEL_NAME p = Ok (p', c) ->
  exists c', fix_payload MODEL_NAME p' = Ok (p', c').
Proof.
  unfold fix_payload.
  destruct (add_missing_index p) as [[p1 c1]|] eqn:Ea; [|discriminate].
  cbn [bind]. apply add_missing_index_settled in Ea.
  unfold rewrite_model. destruct MODEL_NAME as [|m0 m]; cbn [bind].
  - intros H. injection H as <- <-. rewrite Ea. cbn [bind]. eauto.
  - destruct p1 as [| | | | | |d1]; try discriminate. cbn [py_get bind].
    destruct (dict_get d1 (lit "model")) as [model|] eqn:Eg.
    + destruct model as [| | | |s| |]; try discriminate.
      cbn [py_startswith bind].
      destruct (str_startswith s (lit "gpt-4o-mini")) eqn:Es;
        cbn [py_setitem bind]; intros H; injection H as <- <-.
      * rewrite (add_missing_index_model d1 _ Ea). cbn [bind py_get].
        rewrite dict_get_set_same. cbn [py_startswith bind].
        destruct (str_startswith (m0 :: m) (lit "gpt-4o-mini"));
          cbn [py_setitem bind].
        -- rewrite dict_set_set. eauto.
        -- eauto.
      * rewrite Ea. cbn [bind py_get]. rewrite Eg. cbn [py_startswith bind].
        rewrite Es. eauto.
    + cbn [py_startswith bind].
      change (str_startswith [] (lit "gpt-4o-mini")) with false.
      intros H. injection H as <- <-.
      rewrite Ea. cbn [bind py_get]. rewrite Eg. cbn [py_startswith bind].
      change (str_startswith [] (lit "gpt-4o-mini")) with false. eauto.
Qed.

Lemma fix_payload_dict (MODEL_NAME : pystr) (p p' : pyobj) (c : bool) :
  fix_payload MODEL_NAME p = Ok (p', c) -> is_dict p' = true.
Proof.
  unfold fix_payload, add_missing_index.
  destruct p as [| | | | | |d]; try discriminate. cbn [py_get bind store].
  destruct (for_each _ fix_choice) as [[ch' c1]|]; [|discriminate].
  cbn [bind].
  assert (Hd : exists d1,
             (if dict_has d (lit "choices")
              then PyDict (dict_set d (lit "choices") ch') else PyDict d)
             = PyDict d1).
  { destruct (dict_has d (lit "choices")); eauto. }
  destruct Hd as [d1 ->]. unfold rewrite_model.
  destruct (match MODEL_NAME with [] => _ | _ :: _ => _ end) as [[|]|];
    cbn [bind py_setitem]; intros H; try discriminate;
    injection H as <- <-; reflexivity.
Qed.

(** ** The fixes keep the payload one that can be read back *)

Lemma wf_dict_get (float_repr : pystr -> pystr) (d : pydict) (k : pystr)
      (v : pyobj) :
  wf_dict float_repr d = true ->
  dict_get d k = Some v ->
  wf_obj float_repr v = true.
Proof.
  unfold wf_dict. intros H. apply andb_true_iff in H. destruct H as [H _].
  induction d as [|[k0 v0] d IH]; cbn [dict_get]; [discriminate|].
  cbn [forallb] in H. apply andb_true_iff in H. destruct H as [H0 H].
  apply andb_true_iff in H0. destruct H0 as [_ H0].
  destruct (str_eqb k0 k).
  - intros E. injection E as <-. exact H0.
  - apply IH. exact H.
Qed.

Lemma mapM_wf (float_repr : pystr -> pystr)
      (body : pyobj -> result (pyobj * bool)) (l : list pyobj) :
  keeps_wf float_repr body ->
  forallb (wf_obj float_repr) l = true ->
  forall rs,
    mapM body l = Ok rs ->
    forallb (wf_obj float_repr) (map fst rs) = true.
Proof.
  intros Hb. induction l as [|x l IH]; intros Hl rs H.
  - injection H as <-. reflexivity.
  - cbn [forallb] in Hl. apply andb_true_iff in Hl. destruct Hl as [Hx Hl].
    apply mapM_inv in H. destruct H as ([x' c] & bs & Hbx & Hbl & ->).
    cbn [map fst forallb]. rewrite (Hb x x' c Hx Hbx), (IH Hl bs Hbl).
    reflexivity.
Qed.

Lemma for_each_wf (float_repr : pystr -> pystr)
      (body : pyobj -> result (pyobj * bool)) :
  keeps_wf float_repr body ->
  keeps_wf float_repr (fun o => for_each o body).
Proof.
  intros Hb o o' c Ho. unfold for_each.
  destruct (py_iter o) as [items|] eqn:Eit; [|discriminate]. cbn [bind].
  destruct (mapM body items) as [rs|] eqn:Em; [|discriminate]. cbn [bind].
  intros H. injection H as <- _.
  destruct o as [| | | |s|l|d]; try discriminate; cbn [store_items];
    try exact Ho.
  cbn [py_iter] in Eit. injection Eit as <-.
  exact (mapM_wf float_repr body l Hb Ho rs Em).
Qed.

Lemma get_update_wf (float_repr : pystr -> pystr) (k : pystr)
      (default : pyobj) (body : pyobj -> result (pyobj * bool)) :
  wf_str k = true ->
  wf_obj float_repr default = true ->
  keeps_wf float_repr body ->
  keeps_wf float_repr (get_update k default body).
Proof.
  intros Hk Hd Hb o o' c Ho. unfold get_update.
  destruct o as [| | | | | |d]; try discriminate. cbn [py_get bind store].
  unfold dict_has.
  destruct (dict_get d k) as [v|] eqn:Eg; cbn [negb].
  - destruct (body v) as [[v' c']|] eqn:Eb; [|discriminate]. cbn [bind].
    intros H. injection H as <- _.
    apply (dict_set_wf float_repr d k v' Ho Hk).
    apply (Hb v v' c'); [|exact Eb].
    exact (wf_dict_get float_repr d k v Ho Eg).
  - destruct (body default) as [[v' c']|]; [|discriminate]. cbn [bind].
    intros H. injection H as <- _. exact Ho.
Qed.

Lemma fix_tool_call_wf (float_repr : pystr -> pystr) :
  keeps_wf float_repr fix_tool_call.
Proof.
  intros tc tc' c Ho. unfold fix_tool_call.
  destruct (py_contains (lit "index") tc) as [[|]|]; cbn [negb bind];
    try discriminate.
  - intros H. injection H as <- _. exact Ho.
  - destruct tc as [| | | | | |d]; try discriminate. cbn [py_setitem bind].
    intros H. injection H as <- _.
    apply (dict_set_wf float_repr d (lit "index") (PyInt 0) Ho);
      reflexivity.
Qed.

Lemma fix_choice_wf (float_repr : pystr -> pystr) :
  keeps_wf float_repr fix_choice.
Proof.
  intros x x' c. rewrite fix_choice_nested. revert x x' c.
  apply get_update_wf; [reflexivity | reflexivity |].
  apply get_update_wf; [reflexivity | reflexivity |].
  apply for_each_wf, fix_tool_call_wf.
Qed.

Lemma add_missing_index_wf (float_repr : pystr -> pystr) :
  keeps_wf float_repr add_missing_index.
Proof.
  apply (get_update_wf float_repr (lit "choices") (PyList [])
           (fun choices => for_each choices fix_choice));
    [reflexivity | reflexivity |].
  apply for_each_wf, fix_choice_wf.
Qed.

Lemma fix_payload_wf (float_repr : pystr -> pystr) (MODEL_NAME : pystr) :
  wf_str MODEL_NAME = true ->
  keeps_wf float_repr (fix_payload MODEL_NAME).
Proof.
  intros HM p p' c Hp. unfold fix_payload.
  destruct (add_missing_index p) as [[p1 c1]|] eqn:Ea; [|discriminate].
  cbn [bind]. apply (add_missing_index_wf float_repr p p1 c1 Hp) in Ea.
  unfold rewrite_model.
  destruct (match MODEL_NAME with [] => _ | _ :: _ => _ end) as [[|]|];
    cbn [bind]; try discriminate.
  - destruct p1 as [| | | | | |d1]; try discriminate. cbn [py_setitem bind].
    intros H. injection H as <- _.
    apply (dict_set_wf float_repr d1 (lit "model") (PyStr MODEL_NAME) Ea);
      [reflexivity | exact HM].
  - intros H. injection H as <- _. exact Ea.
Qed.

(** ** Fixing a fixed line *)

Lemma add_space_startswith (line : pystr) :
  str_startswith line (lit "data: ") = true -> add_space line = line.
Proof. intros H. unfold add_space. rewrite H, andb_false_r. reflexivity. Qed.

Lemma add_space_idempotent (line : pystr) :
  add_space (add_space line) = add_space line.
Proof.
  unfold add_space at 2 3.
  destruct (str_startswith line (lit "data:")
            && negb (str_startswith line (lit "data: "))) eqn:E.
  - apply add_space_startswith. reflexivity.
  - unfold add_space. rewrite E. reflexivity.
Qed.

Lemma add_space_scalars (line : pystr) :
  scalars line -> scalars (add_space line).
Proof.
  intros H. unfold add_space.
  destruct (_ && _); [|exact H].
  apply Forall_app. split.
  - repeat constructor.
  - apply scalars_skipn. exact H.
Qed.

(** [fix_sse_line] on the encoding of a line that fix 1 leaves as it
    is. *)
Lemma fix_sse_line_encoded (float_repr : pystr -> pystr) (MODEL_NAME : pystr)
      (line : pystr) (b : bytes) :
  Utf8.encode line = Ok b ->
  add_space line = line ->
  fix_sse_line float_repr MODEL_NAME b
  = if negb (str_startswith line (lit "data: {")) then Ok b
    else
      match loads float_repr (skipn 6 line) with
      | None => Ok b
      | Some payload =>
        '(payload', changed) <- fix_payload MODEL_NAME payload ;;
        if changed
        then Utf8.encode (lit "data: " ++ dumps_compact payload')
        else Ok b
      end.
Proof.
  intros He Ha. unfold fix_sse_line. cbv zeta.
  rewrite (decode_encode line b He), Ha, He. reflexivity.
Qed.

Lemma dumps_compact_dict (o : pyobj) :
  is_dict o = true ->
  str_startswith (lit "data: " ++ dumps_compact o) (lit "data: {") = true.
Proof. destruct o; try discriminate. intros _. reflexivity. Qed.


(** ** What [json.dumps] writes is ASCII *)

Lemma ascii_text_app (s t : pystr) :
  ascii_text s -> ascii_text t -> ascii_text (s ++ t).
Proof. intros Hs Ht. apply Forall_app. split; assumption. Qed.

Lemma digits_ascii (ds : pystr) : digits ds -> ascii_text ds.
Proof.
  intros H. eapply Forall_impl; [|exact H].
  intros c Hc. unfold is_digit in Hc. cbv beta in Hc. lia.
Qed.

Lemma hexdigit_ascii (d : N) : d < 16 -> hexdigit d < 128.
Proof. unfold hexdigit. destruct (d <? 10); lia. Qed.

Lemma escape_u_ascii (c : N) : c < 65536 -> ascii_text (escape_u c).
Proof.
  intros H. unfold escape_u.
  constructor; [reflexivity|]. constructor; [reflexivity|].
  constructor; [apply hexdigit_ascii; lia|].
  constructor; [apply hexdigit_ascii; lia|].
  constructor; [apply hexdigit_ascii; lia|].
  constructor; [apply hexdigit_ascii; lia|]. constructor.
Qed.

Lemma escape_char_ascii (c : N) :
  c < 0x110000 -> ascii_text (escape_char c).
Proof.
  intros H. unfold escape_char.
  repeat match goal with
         | |- ascii_text (if ?b then _ else _) => destruct b eqn:?
         end;
    try (repeat constructor; fail).
  - constructor; [lia | constructor].
  - apply escape_u_ascii. lia.
  - apply ascii_text_app; apply escape_u_ascii; lia.
Qed.

Lemma encode_basestring_ascii_ascii (s : pystr) :
  wf_str s = true -> ascii_text (encode_basestring_ascii s).
Proof.
  intros H. unfold encode_basestring_ascii.
  constructor; [reflexivity|]. apply ascii_text_app; [|repeat constructor].
  induction s as [|c s IH]; [constructor|].
  cbn [wf_str] in H. apply andb_true_iff in H. destruct H as [H Hs].
  apply andb_true_iff in H. destruct H as [Hc _].
  cbn [flat_map]. apply ascii_text_app.
  - apply escape_char_ascii. lia.
  - apply IH. exact Hs.
Qed.

Lemma sign_ascii (neg : bool) : ascii_text (sign neg).
Proof. destruct neg; repeat constructor. Qed.

Lemma int_part_ascii (ip : pystr) : int_part ip -> ascii_text ip.
Proof.
  intros [->|(d & ds & -> & Hd & _ & Hds)]; [repeat constructor|].
  apply digits_ascii. constructor; assumption.
Qed.

Lemma int_repr_ascii (z : Z) : ascii_text (int_repr z).
Proof.
  destruct (int_repr_digits z) as (ip & -> & Hip & _).
  apply ascii_text_app; [apply sign_ascii | apply int_part_ascii, Hip].
Qed.

Lemma float_lexeme_ascii (t : pystr) :
  is_float_lexeme t = true -> ascii_text t.
Proof.
  intros H. apply is_float_lexeme_parts in H.
  destruct H as (neg & ip & f & e & -> & Hip & Hf & He & _).
  apply ascii_text_app; [apply sign_ascii|].
  apply ascii_text_app; [apply int_part_ascii, Hip|].
  apply ascii_text_app.
  - destruct Hf as [->|(c & fs & -> & Hd)]; [constructor|].
    constructor; [reflexivity | apply digits_ascii, Hd].
  - destruct He as [->|(x & sg & c & es & -> & Hx & Hsg & Hd)]; [constructor|].
    constructor; [destruct Hx as [->| ->]; reflexivity|].
    apply ascii_text_app; [|apply digits_ascii, Hd].
    destruct Hsg as [->|[->| ->]]; repeat constructor.
Qed.

Lemma float_text_ascii (float_repr : pystr -> pystr) (t : pystr) :
  float_text float_repr t = true -> ascii_text t.
Proof.
  unfold float_text. rewrite !orb_true_iff, andb_true_iff, !str_eqb_eq.
  intros [[[->| ->]| ->]|[H _]]; try (repeat constructor; fail).
  apply float_lexeme_ascii, H.
Qed.

Lemma str_join_ascii (sep : pystr) (chunks : list pystr) :
  ascii_text sep -> Forall ascii_text chunks ->
  ascii_text (str_join sep chunks).
Proof.
  intros Hsep H. induction H as [|x r Hx Hr IH]; [constructor|].
  cbn [str_join]. destruct r as [|y r]; [exact Hx|].
  apply ascii_text_app; [exact Hx|]. apply ascii_text_app; [exact Hsep|].
  exact IH.
Qed.

Lemma dumps_with_ascii (float_repr : pystr -> pystr)
      (item_sep key_sep : pystr) (o : pyobj) :
  ascii_text item_sep -> ascii_text key_sep ->
  wf_obj float_repr o = true ->
  ascii_text (dumps_with item_sep key_sep o).
Proof.
  intros Hi Hk. induction o as [| b | z | t | s | l IH | d IH]
                  using pyobj_induction; intros Hwf; cbn [dumps_with].
  - repeat constructor.
  - destruct b; repeat constructor.
  - apply int_repr_ascii.
  - exact (float_text_ascii float_repr t Hwf).
  - apply encode_basestring_ascii_ascii. exact Hwf.
  - constructor; [reflexivity|].
    apply ascii_text_app; [|repeat constructor].
    apply str_join_ascii; [exact Hi|].
    cbn [wf_obj] in Hwf. induction IH as [|x r Hx Hr IHr]; [constructor|].
    cbn [forallb] in Hwf. apply andb_true_iff in Hwf.
    destruct Hwf as [Hwx Hwr]. cbn [map]. constructor; auto.
  - constructor; [reflexivity|].
    apply ascii_text_app; [|repeat constructor].
    apply str_join_ascii; [exact Hi|].
    cbn [wf_obj] in Hwf. apply andb_true_iff in Hwf.
    destruct Hwf as [Hwf _].
    induction IH as [|[k v] r Hx Hr IHr]; [constructor|].
    cbn [forallb] in Hwf. apply andb_true_iff in Hwf.
    destruct Hwf as [Hwx Hwr]. apply andb_true_iff in Hwx.
    destruct Hwx as [Hwk Hwv]. cbn [map]. constructor; [|auto].
    apply ascii_text_app; [apply encode_basestring_ascii_ascii, Hwk|].
    apply ascii_text_app; [exact Hk|]. apply Hx. exact Hwv.
Qed.

Lemma encode_ascii (s : pystr) :
  ascii_text s -> exists b, Utf8.encode s = Ok b.
Proof.
  intros H. apply encode_scalar. eapply Forall_impl; [|exact H].
  intros c Hc. cbv beta in Hc. unfold Utf8.scalar, Utf8.is_surrogate. lia.
Qed.


(** ** The exceptions of the fixes *)

Lemma mapM_raises {A B} (f : A -> result B) (l : list A) (e : exn) :
  mapM f l = Raise e -> exists x, In x l /\ f x = Raise e.
Proof.
  induction l as [|a l IH]; cbn [mapM]; [discriminate|].
  destruct (f a) as [b|e'] eqn:Ea; cbn [bind].
  - destruct (mapM f l) as [bs|e'] eqn:El; cbn [bind]; [discriminate|].
    intros H. injection H as ->. destruct (IH eq_refl) as (x & Hx & Hf).
    exists x. split; [right; exact Hx | exact Hf].
  - intros H. injection H as ->. exists a. split; [left; reflexivity|].
    exact Ea.
Qed.

Lemma py_get_type_errors (o : pyobj) (k : pystr) (default : pyobj) :
  type_errors (py_get o k default).
Proof.
  intros e. destruct o; cbn [py_get]; intros H; try discriminate;
    injection H as <-; auto.
Qed.

Lemma for_each_type_errors (o : pyobj)
      (body : pyobj -> result (pyobj * bool)) :
  (forall x, type_errors (body x)) ->
  type_errors (for_each o body).
Proof.
  intros Hb e. unfold for_each.
  destruct (py_iter o) as [items|e'] eqn:Ei; cbn [bind].
  - destruct (mapM body items) as [rs|e'] eqn:Em; cbn [bind];
      [discriminate|].
    intros H. injection H as ->.
    destruct (mapM_raises body items e Em) as (x & _ & Hx).
    exact (Hb x e Hx).
  - intros H. injection H as ->.
    destruct o; cbn [py_iter] in Ei; try discriminate; injection Ei as <-;
      auto.
Qed.

Lemma fix_tool_call_type_errors (tc : pyobj) : type_errors (fix_tool_call tc).
Proof.
  intros e. unfold fix_tool_call.
  destruct tc; cbn [py_contains py_setitem bind];
    try (intros H; injection H as <-; auto; fail);
    match goal with |- context [negb ?b] => destruct b end;
    cbn [negb bind]; intros H; try discriminate; injection H as <-; auto.
Qed.

Lemma get_update_type_errors (k : pystr) (default : pyobj)
      (body : pyobj -> result (pyobj * bool)) (o : pyobj) :
  (forall v, type_errors (body v)) ->
  type_errors (get_update k default body o).
Proof.
  intros Hb e. unfold get_update.
  destruct (py_get o k default) as [v|e'] eqn:Eg; cbn [bind].
  - destruct (body v) as [[v' c]|e'] eqn:Eb; cbn [bind]; [discriminate|].
    intros H. injection H as ->. exact (Hb v e Eb).
  - intros H. injection H as ->. exact (py_get_type_errors o k default e Eg).
Qed.

Lemma fix_choice_type_errors (choice : pyobj) :
  type_errors (fix_choice choice).
Proof.
  rewrite fix_choice_nested. apply get_update_type_errors. intros delta.
  apply get_update_type_errors. intros tcs.
  apply for_each_type_errors, fix_tool_call_type_errors.
Qed.

Lemma add_missing_index_type_errors (payload : pyobj) :
  type_errors (add_missing_index payload).
Proof.
  apply (get_update_type_errors (lit "choices") (PyList [])
           (fun choices => for_each choices fix_choice)).
  intros choices. apply for_each_type_errors, fix_choice_type_errors.
Qed.

Lemma rewrite_model_type_errors (MODEL_NAME : pystr) (payload : pyobj)
      (changed : bool) :
  type_errors (rewrite_model MODEL_NAME payload changed).
Proof.
  intros e. unfold rewrite_model. destruct MODEL_NAME as [|m0 m]; cbn [bind].
  - discriminate.
  - destruct payload as [| | | | | |d]; cbn [py_get bind];
      try (intros H; injection H as <-; auto; fail).
    destruct (match dict_get d (lit "model") with
              | Some v => v | None => PyStr [] end) as [| | | |s| |];
      cbn [py_startswith bind];
      try (intros H; injection H as <-; auto; fail).
    destruct (str_startswith s (lit "gpt-4o-mini")); cbn [py_setitem bind];
      discriminate.
Qed.

Lemma fix_payload_type_errors (MODEL_NAME : pystr) (payload : pyobj) :
  type_errors (fix_payload MODEL_NAME payload).
Proof.
  intros e. unfold fix_payload.
  destruct (add_missing_index payload) as [[p1 c1]|e'] eqn:Ea; cbn [bind].
  - apply rewrite_model_type_errors.
  - intros H. injection H as ->.
    exact (add_missing_index_type_errors payload e Ea).
Qed.

(** ** The prefix of a data line *)

Lemma add_space_data (line : pystr) :
  str_startswith (add_space line) (lit "data: ")
  = str_startswith line (lit "data:").
Proof.
  unfold add_space.
  destruct (str_startswith line (lit "data:")) eqn:E1;
    destruct (str_startswith line (lit "data: ")) eqn:E2;
    cbn [andb negb]; try reflexivity; try exact E2.
  apply (starts_with_prefix N.eqb (lit "data:") (lit " ") line) in E2.
  unfold str_startswith in E1. congruence.
Qed.

Lemma decode_data (t : bytes) :
  Utf8.decode (blit "data: " ++ t) = lit "data: " ++ Utf8.decode t.
Proof.
  change (blit "data: " ++ t)
    with (byte_of_N 100 :: byte_of_N 97 :: byte_of_N 116 :: byte_of_N 97
          :: byte_of_N 58 :: byte_of_N 32 :: t).
  rewrite !decode_1 by lia. reflexivity.
Qed.

Lemma encode_data (s : pystr) (y : bytes) :
  Utf8.encode s = Ok y ->
  bytes_startswith y (blit "data: ") = str_startswith s (lit "data: ").
Proof.
  intros H. destruct (str_startswith s (lit "data: ")) eqn:Es.
  - apply str_startswith_app in Es. destruct Es as [t ->].
    rewrite encode_app in H.
    change (Utf8.encode (lit "data: ")) with (Ok (blit "data: ")) in H.
    cbn [bind] in H. destruct (Utf8.encode t) as [y'|]; [|discriminate].
    cbn [bind] in H. injection H as <-.
    apply bytes_startswith_app. exists y'. reflexivity.
  - destruct (bytes_startswith y (blit "data: ")) eqn:Ey; [|reflexivity].
    apply bytes_startswith_app in Ey. destruct Ey as [t ->].
    apply decode_encode in H. rewrite decode_data in H.
    rewrite <- H in Es. discriminate.
Qed.

Lemma encode_decode_encode (s : pystr) (y : bytes) :
  Utf8.encode s = Ok y -> Utf8.encode (Utf8.decode y) = Ok y.
Proof. intros H. rewrite (decode_encode s y H). exact H. Qed.

(** What [fix_sse_line] returns is the encoding of a text: of the line
    with its space, or of the line that it wrote anew. *)
Lemma fix_sse_line_encodes (float_repr : pystr -> pystr) (MODEL_NAME : pystr)
      (x y : bytes) :
  fix_sse_line float_repr MODEL_NAME x = Ok y ->
  exists s,
    Utf8.encode s = Ok y
    /\ str_startswith s (lit "data: ")
       = str_startswith (Utf8.decode x) (lit "data:").
Proof.
  unfold fix_sse_line. cbv zeta.
  pose proof (add_space_data (Utf8.decode x)) as Ha.
  remember (add_space (Utf8.decode x)) as line eqn:Hline. clear Hline.
  destruct (str_startswith line (lit "data: {")) eqn:Es; cbn [negb];
    [|intros H; exists line; auto].
  destruct (loads float_repr (skipn 6 line)) as [payload|];
    [|intros H; exists line; auto].
  destruct (fix_payload MODEL_NAME payload) as [[p' c]|]; cbn [bind];
    [|discriminate].
  destruct c; [|intros H; exists line; auto].
  intros H. exists (lit "data: " ++ dumps_compact p'). split; [exact H|].
  rewrite <- Ha.
  apply (starts_with_prefix N.eqb (lit "data: ") (lit "{") line) in Es.
  unfold str_startswith at 2. rewrite Es. reflexivity.
Qed.

(** ** The flag [changed] *)

Lemma mapM_truthful (body : pyobj -> result (pyobj * bool))
      (l : list pyobj) :
  truthful body ->
  forall rs,
    mapM body l = Ok rs -> existsb snd rs = false -> map fst rs = l.
Proof.
  intros Hb. induction l as [|x l IH]; intros rs H Hc.
  - injection H as <-. reflexivity.
  - apply mapM_inv in H. destruct H as ([x' c] & bs & Hx & Hl & ->).
    cbn [existsb snd] in Hc. apply orb_false_iff in Hc.
    destruct Hc as [-> Hc]. cbn [map fst].
    rewrite (Hb x x' Hx), (IH bs Hl Hc). reflexivity.
Qed.

Lemma for_each_truthful (body : pyobj -> result (pyobj * bool)) :
  truthful body -> truthful (fun o => for_each o body).
Proof.
  intros Hb o o'. unfold for_each.
  destruct (py_iter o) as [items|] eqn:Eit; [|discriminate]. cbn [bind].
  destruct (mapM body items) as [rs|] eqn:Em; [|discriminate]. cbn [bind].
  intros H. injection H as <- Hc.
  destruct o as [| | | |s|l|d]; try discriminate; cbn [store_items];
    try reflexivity.
  cbn [py_iter] in Eit. injection Eit as <-.
  rewrite (mapM_truthful body l Hb rs Em Hc). reflexivity.
Qed.

Lemma get_update_truthful (k : pystr) (default : pyobj)
      (body : pyobj -> result (pyobj * bool)) :
  truthful body -> truthful (get_update k default body).
Proof.
  intros Hb o o'. unfold get_update.
  destruct o as [| | | | | |d]; try discriminate. cbn [py_get bind store].
  unfold dict_has.
  destruct (dict_get d k) as [v|] eqn:Eg; cbn [negb].
  - destruct (body v) as [[v' c']|] eqn:Eb; [|discriminate]. cbn [bind].
    intros H. injection H as <- ->. rewrite (Hb v v' Eb).
    rewrite (dict_set_same d k v Eg). reflexivity.
  - destruct (body default) as [[v' c']|]; [|discriminate]. cbn [bind].
    intros H. injection H as <- _. reflexivity.
Qed.

Lemma fix_tool_call_truthful : truthful fix_tool_call.
Proof.
  intros tc tc'. unfold fix_tool_call.
  destruct (py_contains (lit "index") tc) as [[|]|]; cbn [negb bind];
    try discriminate.
  - intros H. injection H as <-. reflexivity.
  - destruct (py_setitem tc (lit "index") (PyInt 0)); discriminate.
Qed.

Lemma fix_choice_truthful : truthful fix_choice.
Proof.
  intros x x'. rewrite fix_choice_nested. revert x x'.
  apply get_update_truthful, get_update_truthful, for_each_truthful.
  exact fix_tool_call_truthful.
Qed.

Lemma add_missing_index_truthful : truthful add_missing_index.
Proof.
  apply (get_update_truthful (lit "choices") (PyList [])
           (fun choices => for_each choices fix_choice)).
  apply for_each_truthful, fix_choice_truthful.
Qed.

Lemma rewrite_model_unchanged (MODEL_NAME : pystr) (p p' : pyobj)
      (c : bool) :
  rewrite_model MODEL_NAME p c = Ok (p', false) -> p' = p /\ c = false.
Proof.
  unfold rewrite_model.
  destruct (match MODEL_NAME with [] => _ | _ :: _ => _ end) as [[|]|];
    cbn [bind]; try discriminate.
  - destruct (py_setitem p (lit "model") (PyStr MODEL_NAME)); discriminate.
  - intros H. injection H as <- <-. auto.
Qed.

(** ** The keys of the payload *)

Lemma dict_set_present (d : pydict) (k : pystr) (v : pyobj) :
  dict_has d k = true -> map fst (dict_set d k v) = map fst d.
Proof.
  unfold dict_has. induction d as [|[k0 v0] d IH];
    cbn [dict_get dict_set]; [discriminate|].
  destruct (str_eqb k0 k) eqn:E; cbn [map fst].
  - apply str_eqb_eq in E. subst k0. reflexivity.
  - intros H. rewrite (IH H). reflexivity.
Qed.

Lemma add_missing_index_keys (d : pydict) (p' : pyobj) (c : bool) :
  add_missing_index (PyDict d) = Ok (p', c) ->
  exists d',
    p' = PyDict d'
    /\ map fst d' = map fst d
    /\ forall k, k <> lit "choices" -> dict_get d' k = dict_get d k.
Proof.
  unfold add_missing_index. cbn [py_get bind store].
  destruct (for_each _ fix_choice) as [[ch' c1]|]; [|discriminate].
  cbn [bind]. intros H. injection H as <- _.
  destruct (dict_has d (lit "choices")) eqn:Eh.
  - exists (dict_set d (lit "choices") ch'). split; [reflexivity|]. split.
    + apply dict_set_present. exact Eh.
    + intros k Hk. apply dict_get_set_other. congruence.
  - exists d. auto.
Qed.

Lemma rewrite_model_keys (MODEL_NAME : pystr) (d : pydict) (p' : pyobj)
      (c c' : bool) :
  rewrite_model MODEL_NAME (PyDict d) c = Ok (p', c') ->
  exists d',
    p' = PyDict d'
    /\ map fst d' = map fst d
    /\ forall k, k <> lit "model" -> dict_get d' k = dict_get d k.
Proof.
  unfold rewrite_model. destruct MODEL_NAME as [|m0 m]; cbn [bind].
  - intros H. injection H as <- _. exists d. auto.
  - cbn [py_get bind].
    destruct (dict_get d (lit "model")) as [model|] eqn:Eg.
    + destruct model as [| | | |s| |]; try discriminate.
      cbn [py_startswith bind].
      destruct (str_startswith s (lit "gpt-4o-mini"));
        cbn [py_setitem bind]; intros H; injection H as <- _.
      * exists (dict_set d (lit "model") (PyStr (m0 :: m))).
        split; [reflexivity|]. split.
        -- apply dict_set_present. unfold dict_has. rewrite Eg. reflexivity.
        -- intros k Hk. apply dict_get_set_other. congruence.
      * exists d. auto.
    + cbn [py_startswith bind].
      change (str_startswith [] (lit "gpt-4o-mini")) with false.
      intros H. injection H as <- _. exists d. auto.
Qed.

(** ** Every tool call has its index *)








Lemma encode_ascii_bytes (s : pystr) (y : bytes) :
  ascii_text s -> Utf8.encode s = Ok y ->
  Forall (fun b => Byte.to_N b < 128) y.
Proof.
  intros H. revert y. induction H as [|c s Hc Hs IH]; intros y Hy.
  - injection Hy as <-. constructor.
  - apply encode_inv in Hy. destruct Hy as (_ & b' & Hb & ->).
    unfold Utf8.encode_char.
    assert (E : (c <? 128) = true) by lia. rewrite E. cbn [app].
    constructor; [|exact (IH b' Hb)].
    rewrite byte_to_of_N by lia. exact Hc.
Qed.


(** ** A client that hangs up *)

Lemma appends_ret {A} (a : A) : appends (ret a).
Proof. intros w. exists []. cbn. rewrite List.app_nil_r. reflexivity. Qed.

Lemma appends_lift {A} (r : result A) : appends (lift r).
Proof. intros w. exists []. cbn. rewrite List.app_nil_r. reflexivity. Qed.

Lemma appends_write (b : bytes) : appends (write b).
Proof.
  intros w. unfold write. destruct (credit w) as [[|k]|]; cbn [fst sent].
  - exists []. rewrite List.app_nil_r. reflexivity.
  - exists b. reflexivity.
  - exists b. reflexivity.
Qed.

Lemma appends_bind {A B} (m : io A) (k : A -> io B) :
  appends m -> (forall a, appends (k a)) -> appends (io_bind m k).
Proof.
  intros Hm Hk w. unfold io_bind. destruct (Hm w) as [t Ht].
  destruct (m w) as [w1 [a|e]]; cbn [fst] in *.
  - destruct (Hk a w1) as [t' Ht']. exists (t ++ t').
    rewrite Ht', Ht, app_assoc. reflexivity.
  - exists t. exact Ht.
Qed.

Lemma respects_ret {A} (a : A) : respects_hangup (ret a).
Proof. intros w w' Hw Hs. cbn. auto. Qed.

Lemma respects_lift {A} (r : result A) : respects_hangup (lift r).
Proof. intros w w' Hw Hs. cbn. auto. Qed.

Lemma respects_write (b : bytes) : respects_hangup (write b).
Proof.
  intros w w' Hw Hs. unfold write. rewrite Hw. cbn [fst snd sent credit].
  split; [reflexivity|].
  destruct (credit w') as [[|k]|]; cbn [fst snd sent].
  - right. split; [reflexivity|]. exists b. rewrite Hs. reflexivity.
  - left. rewrite Hs. auto.
  - left. rewrite Hs. auto.
Qed.

Lemma respects_bind {A B} (m : io A) (k : A -> io B) :
  respects_hangup m ->
  (forall a, respects_hangup (k a)) ->
  (forall a, appends (k a)) ->
  respects_hangup (io_bind m k).
Proof.
  intros Hm Hk Ha w w' Hw Hs. unfold io_bind.
  destruct (Hm w w' Hw Hs) as [Hc H].
  destruct (m w) as [w1 r1]; destruct (m w') as [w1' r1'];
    cbn [fst snd] in *.
  destruct H as [[-> Hsent]|[-> [t Ht]]].
  - destruct r1 as [a|e]; cbn [fst snd].
    + exact (Hk a w1 w1' Hc Hsent).
    + auto.
  - destruct r1 as [a|e]; cbn [fst snd].
    + split; [exact (proj1 (Hk a w1 w1 Hc eq_refl))|].
      right. split; [reflexivity|].
      destruct (Ha a w1) as [t' Ht']. exists (t ++ t').
      rewrite Ht', Ht, app_assoc. reflexivity.
    + split; [exact Hc|]. right. split; [reflexivity|]. exists t. exact Ht.
Qed.

Lemma appends_stream_line (float_repr : pystr -> pystr) (MODEL_NAME : pystr)
      (saw_done : bool) (raw_line : bytes) :
  appends (stream_line float_repr MODEL_NAME saw_done raw_line).
Proof.
  unfold stream_line. destruct (is_sentinel (rstrip_crlf raw_line)).
  - repeat (apply appends_bind; [|intros ?]);
      first [apply appends_write | apply appends_ret].
  - apply appends_bind; [apply appends_lift | intros fixed].
    apply appends_bind; [apply appends_write | intros _].
    apply appends_bind;
      [destruct (bytes_startswith fixed (blit "data: "));
       [apply appends_write | apply appends_ret] | intros _].
    apply appends_bind; [apply appends_ret | intros _]. apply appends_ret.
Qed.

Lemma respects_stream_line (float_repr : pystr -> pystr)
      (MODEL_NAME : pystr) (saw_done : bool) (raw_line : bytes) :
  respects_hangup (stream_line float_repr MODEL_NAME saw_done raw_line).
Proof.
  unfold stream_line, flush.
  destruct (is_sentinel (rstrip_crlf raw_line)).
  - apply respects_bind; [apply respects_write | intros _ | intros _].
    + apply respects_bind; [apply respects_ret | intros _ | intros _];
        [apply respects_ret | apply appends_ret].
    + apply appends_bind; [apply appends_ret | intros _; apply appends_ret].
  - assert (Hcond : forall fixed : bytes,
               respects_hangup
                 (if bytes_startswith fixed (blit "data: ")
                  then write LF else ret tt)
               /\ appends
                    (if bytes_startswith fixed (blit "data: ")
                     then write LF else ret tt)).
    { intros fixed. destruct (bytes_startswith fixed (blit "data: "));
        split; first [apply respects_write | apply respects_ret
                     | apply appends_write | apply appends_ret]. }
    assert (Htail : respects_hangup (ret tt ;;; ret saw_done)
                    /\ appends (ret tt ;;; ret saw_done)).
    { split.
      - apply respects_bind; [apply respects_ret | intros _ | intros _];
          [apply respects_ret | apply appends_ret].
      - apply appends_bind; [apply appends_ret | intros _; apply appends_ret]. }
    apply respects_bind; [apply respects_lift | intros fixed | intros fixed].
    + apply respects_bind; [apply respects_write | intros _ | intros _].
      * apply respects_bind; [apply (Hcond fixed) | intros _ | intros _];
          apply Htail.
      * apply appends_bind; [apply (Hcond fixed) | intros _; apply Htail].
    + apply appends_bind; [apply appends_write | intros _].
      apply appends_bind; [apply (Hcond fixed) | intros _; apply Htail].
Qed.

Lemma appends_stream_lines (float_repr : pystr -> pystr)
      (MODEL_NAME : pystr) (lines : list bytes) (saw_done : bool) :
  appends (stream_lines float_repr MODEL_NAME saw_done lines).
Proof.
  revert saw_done. induction lines as [|raw lines IH]; intros saw_done;
    cbn [stream_lines].
  - apply appends_ret.
  - apply appends_bind; [apply appends_stream_line | intros sd; apply IH].
Qed.

Lemma respects_stream_lines (float_repr : pystr -> pystr)
      (MODEL_NAME : pystr) (lines : list bytes) (saw_done : bool) :
  respects_hangup (stream_lines float_repr MODEL_NAME saw_done lines).
Proof.
  revert saw_done. induction lines as [|raw lines IH]; intros saw_done;
    cbn [stream_lines].
  - apply respects_ret.
  - apply respects_bind; [apply respects_stream_line | intros sd; apply IH |].
    intros sd. apply appends_stream_lines.
Qed.

Lemma respects_done : respects_hangup (write DONE ;;; flush).
Proof.
  apply respects_bind; [apply respects_write | intros _ | intros _];
    [apply respects_ret | apply appends_ret].
Qed.

Lemma appends_done : appends (write DONE ;;; flush).
Proof.
  apply appends_bind; [apply appends_write | intros _; apply appends_ret].
Qed.

(** [_stream_sse] lets no [BrokenPipeError] out. *)
Lemma _stream_sse_catches (float_repr : pystr -> pystr) (MODEL_NAME : pystr)
      (body : bytes) (w : wfile) (e : exn) :
  snd (_stream_sse float_repr MODEL_NAME body w) = Raise e ->
  client_gone e = false.
Proof.
  unfold _stream_sse.
  destruct (stream_lines float_repr MODEL_NAME false (readlines body) w)
    as [w1 [sd|e1]].
  - destruct sd; cbn [negb]; [discriminate|].
    destruct ((write DONE ;;; flush) w1) as [w2 [u|e2]]; [discriminate|].
    destruct (client_gone e2) eqn:E; cbn [snd]; [discriminate|].
    intros H. injection H as <-. exact E.
  - destruct (client_gone e1) eqn:E; cbn [snd]; [discriminate|].
    intros H. injection H as <-. exact E.
Qed.

Lemma _stream_sse_hangup (float_repr : pystr -> pystr) (MODEL_NAME : pystr)
      (body : bytes) (w w' : wfile) :
  credit w = None -> sent w' = sent w ->
  (exists t,
      sent (fst (_stream_sse float_repr MODEL_NAME body w))
      = sent (fst (_stream_sse float_repr MODEL_NAME body w')) ++ t)
  /\ (snd (_stream_sse float_repr MODEL_NAME body w') = Ok tt
      \/ snd (_stream_sse float_repr MODEL_NAME body w')
         = snd (_stream_sse float_repr MODEL_NAME body w)).
Proof.
  intros Hw Hs. unfold _stream_sse.
  destruct (respects_stream_lines float_repr MODEL_NAME (readlines body)
              false w w' Hw Hs) as [Hc H].
  destruct (stream_lines float_repr MODEL_NAME false (readlines body) w)
    as [w1 r1].
  destruct (stream_lines float_repr MODEL_NAME false (readlines body) w')
    as [w1' r1'].
  cbn [fst snd] in Hc, H.
  destruct H as [[-> Hsent]|[-> [t Ht]]].
  - destruct r1 as [sd|e].
    + destruct sd; cbn [negb fst snd].
      * split; [exists []; rewrite List.app_nil_r; congruence | auto].
      * destruct (respects_done w1 w1' Hc Hsent) as [_ H].
        destruct ((write DONE ;;; flush) w1) as [w2 r2].
        destruct ((write DONE ;;; flush) w1') as [w2' r2'].
        cbn [fst snd] in H.
        destruct H as [[-> Hsent2]|[-> [t Ht]]].
        -- destruct r2 as [[]|e2]; cbn [fst snd].
           ++ split; [exists []; rewrite List.app_nil_r; congruence | auto].
           ++ destruct (client_gone e2); cbn [fst snd];
                (split; [exists []; rewrite List.app_nil_r; congruence
                        | auto]).
        -- cbn [client_gone fst snd]. split; [|auto].
           exists t. destruct r2 as [[]|e2]; cbn [fst];
             [exact Ht | destruct (client_gone e2); exact Ht].
    + destruct (client_gone e); cbn [fst snd];
        (split; [exists []; rewrite List.app_nil_r; congruence | auto]).
  - cbn [client_gone fst snd]. split; [|auto].
    destruct r1 as [sd|e].
    + destruct sd; cbn [negb fst]; [exists t; exact Ht|].
      destruct (appends_done w1) as [t' Ht'].
      destruct ((write DONE ;;; flush) w1) as [w2 r2]. cbn [fst] in Ht'.
      exists (t ++ t').
      assert (Hw2 : sent w2 = sent w1' ++ t ++ t').
      { rewrite Ht', Ht, app_assoc. reflexivity. }
      destruct r2 as [[]|e2]; cbn [fst];
        [exact Hw2 | destruct (client_gone e2); exact Hw2].
    + exists t. destruct (client_gone e); exact Ht.
Qed.

(** ** A line on which the rewriter raises *)

Lemma encode_raises (s : pystr) (e : exn) :
  Utf8.encode s = Raise e -> e = UnicodeEncodeError.
Proof.
  induction s as [|c s IH]; cbn [Utf8.encode]; [discriminate|].
  destruct (Utf8.scalar c).
  - destruct (Utf8.encode s) as [b|e']; cbn [bind]; [discriminate|].
    intros H. injection H as <-. apply IH. reflexivity.
  - intros H. injection H as <-. reflexivity.
Qed.

Lemma fix_sse_line_not_gone (float_repr : pystr -> pystr)
      (MODEL_NAME : pystr) (x : bytes) (e : exn) :
  fix_sse_line float_repr MODEL_NAME x = Raise e -> client_gone e = false.
Proof.
  assert (He : forall s, Utf8.encode s = Raise e -> client_gone e = false).
  { intros s H. rewrite (encode_raises s e H). reflexivity. }
  unfold fix_sse_line. cbv zeta.
  destruct (negb _); [apply He|].
  destruct (loads float_repr _) as [payload|]; [|apply He].
  destruct (fix_payload MODEL_NAME payload) as [[p' c]|e'] eqn:Ef;
    cbn [bind].
  - destruct c; apply He.
  - intros H. injection H as ->.
    destruct (fix_payload_type_errors MODEL_NAME payload e Ef) as [-> | ->];
      reflexivity.
Qed.

Lemma forwarded_raises (float_repr : pystr -> pystr) (MODEL_NAME : pystr)
      (raw_line : bytes) (e : exn) :
  forwarded float_repr MODEL_NAME raw_line = Raise e ->
  is_sentinel (rstrip_crlf raw_line) = false
  /\ fix_sse_line float_repr MODEL_NAME (rstrip_crlf raw_line) = Raise e.
Proof.
  unfold forwarded. destruct (is_sentinel (rstrip_crlf raw_line));
    [discriminate|].
  destruct (fix_sse_line float_repr MODEL_NAME (rstrip_crlf raw_line));
    cbn [bind]; [discriminate|].
  intros H. injection H as <-. auto.
Qed.

Lemma stream_lines_raises (float_repr : pystr -> pystr) (MODEL_NAME : pystr)
      (pre : list bytes) (raw : bytes) (post : list bytes) (e : exn) :
  forwarded float_repr MODEL_NAME raw = Raise e ->
  forall (chunks : list bytes) (saw_done : bool) (w : wfile),
    credit w = None ->
    mapM (forwarded float_repr MODEL_NAME) pre = Ok chunks ->
    stream_lines float_repr MODEL_NAME saw_done (pre ++ raw :: post) w
    = ({| sent := sent w ++ List.concat chunks; credit := None |}, Raise e).
Proof.
  intros Hr. apply forwarded_raises in Hr. destruct Hr as [Hsent Hfix].
  induction pre as [|p pre IH]; intros chunks saw_done w Hw H.
  - injection H as <-. cbn [app stream_lines List.concat].
    unfold io_bind, stream_line. rewrite Hsent. unfold io_bind, lift.
    rewrite Hfix, List.app_nil_r. destruct w as [s c]. cbn in Hw. subst c.
    reflexivity.
  - apply mapM_inv in H. destruct H as (chunk & cs & Hp & Hpre & ->).
    cbn [app stream_lines]. unfold io_bind.
    rewrite (stream_line_forwarded float_repr MODEL_NAME saw_done p chunk
               w Hw Hp).
    rewrite (IH cs (saw_done || sentinel_line p)
               {| sent := sent w ++ chunk; credit := None |} eq_refl Hpre).
    cbn [sent List.concat].
    rewrite <- app_assoc. reflexivity.
Qed.

(** ** The end of a line *)

Lemma rstrip_crlf_all (t : bytes) :
  forallb is_CR_or_LF t = true -> rstrip_crlf t = [].
Proof.
  induction t as [|b t IH]; [reflexivity|]. cbn [forallb rstrip_crlf].
  intros H. apply andb_true_iff in H. destruct H as [Hb Ht].
  rewrite (IH Ht), Hb. reflexivity.
Qed.

Lemma rstrip_crlf_app (l t : bytes) :
  forallb is_CR_or_LF t = true -> rstrip_crlf (l ++ t) = rstrip_crlf l.
Proof.
  intros Ht. induction l as [|b l IH]; cbn [app rstrip_crlf].
  - apply rstrip_crlf_all. exact Ht.
  - rewrite IH. reflexivity.
Qed.

(** ** Lines of other fields *)

Lemma readlines_line (x rest : bytes) :
  existsb (Byte.eqb x0a) x = false ->
  readlines (x ++ LF ++ rest) = (x ++ LF) :: readlines rest.
Proof.
  induction x as [|b x IH]; intros H.
  - reflexivity.
  - cbn [existsb] in H. apply orb_false_iff in H. destruct H as [Hb Hx].
    cbn [app readlines].
    assert (E : Byte.eqb b x0a = false).
    { destruct (Byte.eqb b x0a) eqn:E; [|reflexivity].
      apply byte_eqb_eq in E. subst b. discriminate. }
    rewrite E. change (x ++ x0a :: rest) with (x ++ LF ++ rest).
    rewrite (IH Hx). reflexivity.
Qed.

Lemma readlines_lines (xs : list bytes) :
  Forall (fun x => existsb (Byte.eqb x0a) x = false) xs ->
  readlines (List.concat (map (fun x => x ++ LF) xs))
  = map (fun x => x ++ LF) xs.
Proof.
  induction 1 as [|x xs Hx _ IH]; [reflexivity|].
  cbn [map List.concat]. rewrite <- app_assoc.
  rewrite (readlines_line x _ Hx), IH. reflexivity.
Qed.

Lemma fix_sse_line_other_field (float_repr : pystr -> pystr)
      (MODEL_NAME : pystr) (x : bytes) :
  Utf8.encode (Utf8.decode x) = Ok x ->
  bytes_startswith x (blit "data:") = false ->
  fix_sse_line float_repr MODEL_NAME x = Ok x.
Proof.
  intros Henc Hx.
  assert (Hs : str_startswith (Utf8.decode x) (lit "data:") = false).
  { destruct (str_startswith (Utf8.decode x) (lit "data:")) eqn:E;
      [|reflexivity].
    rewrite (encode_startswith_data _ x Henc E) in Hx. discriminate. }
  unfold fix_sse_line. cbv zeta. unfold add_space. rewrite Hs. cbn [andb].
  destruct (str_startswith (Utf8.decode x) (lit "data: {")) eqn:E.
  - apply (starts_with_prefix N.eqb (lit "data:") (lit " {")) in E.
    unfold str_startswith in Hs. congruence.
  - exact Henc.
Qed.

Lemma forwarded_other_field (float_repr : pystr -> pystr)
      (MODEL_NAME : pystr) (x : bytes) :
  other_field x ->
  forwarded float_repr MODEL_NAME (x ++ LF) = Ok (x ++ LF)
  /\ sentinel_line (x ++ LF) = false.
Proof.
  intros (Henc & Hd & Hr & _).
  assert (Hx : rstrip_crlf (x ++ LF) = x).
  { rewrite (rstrip_crlf_app x LF eq_refl). exact Hr. }
  assert (Hsent : is_sentinel x = false).
  { destruct (is_sentinel x) eqn:E; [|reflexivity].
    apply is_sentinel_spec in E. destruct E as [-> | ->]; discriminate. }
  assert (Hp : bytes_startswith x (blit "data: ") = false).
  { destruct (bytes_startswith x (blit "data: ")) eqn:E; [|reflexivity].
    apply (starts_with_prefix Byte.eqb (blit "data:") (blit " ") x) in E.
    unfold bytes_startswith in Hd. congruence. }
  unfold forwarded, sentinel_line. rewrite Hx, Hsent.
  rewrite (fix_sse_line_other_field float_repr MODEL_NAME x Henc Hd).
  cbn [bind]. rewrite Hp, List.app_nil_r. auto.
Qed.

Lemma forwarded_other_fields (float_repr : pystr -> pystr)
      (MODEL_NAME : pystr) (xs : list bytes) :
  Forall other_field xs ->
  mapM (forwarded float_repr MODEL_NAME) (map (fun x => x ++ LF) xs)
  = Ok (map (fun x => x ++ LF) xs)
  /\ existsb sentinel_line (map (fun x => x ++ LF) xs) = false.
Proof.
  induction 1 as [|x xs Hx _ [IH1 IH2]]; [auto|].
  destruct (forwarded_other_field float_repr MODEL_NAME x Hx) as [H1 H2].
  cbn [map mapM existsb]. rewrite H1, H2, IH1, IH2. auto.
Qed.




(** ** Control characters *)

Ltac forall_tails H :=
  try (let H' := fresh "Ht" in
       pose proof (Forall_inv_tail H) as H'; forall_tails H').

Lemma decode_keeps_out (k : N) (x : bytes) :
  k < 0x80 ->
  Forall (fun b => Byte.to_N b <> k) x ->
  Forall (fun c => c <> k) (Utf8.decode x).
Proof.
  intros Hk.
  remember (List.length x) as n eqn:Hn.
  assert (Hlen : (List.length x <= n)%nat) by lia. clear Hn.
  revert x Hlen. induction n as [|n IH]; intros x Hlen H.
  - destruct x; [constructor | simpl in Hlen; lia].
  - destruct x as [|b1 r1]; [constructor|].
    pose proof (Forall_inv H) as Hb1. cbv beta in Hb1.
    cbn [Utf8.decode]. decode_cases; forall_tails H;
      repeat constructor;
      try (apply IH; [simpl in *; lia | assumption]);
      utf8_unfold; lia.
Qed.

Lemma encode_keeps_out (k : N) (s : pystr) (y : bytes) :
  k < 0x80 ->
  Forall (fun c => c <> k) s ->
  Utf8.encode s = Ok y ->
  Forall (fun b => Byte.to_N b <> k) y.
Proof.
  intros Hk H. revert y. induction H as [|c s Hc Hs IH]; intros y Hy.
  - injection Hy as <-. constructor.
  - apply encode_inv in Hy. destruct Hy as (Hsc & b' & Hb & ->).
    apply Forall_app. split; [|exact (IH b' Hb)].
    unfold Utf8.encode_char. utf8_unfold.
    repeat match goal with
           | |- context [if ?b then _ else _] => destruct b eqn:?
           end;
      repeat constructor; rewrite byte_to_of_N by lia; lia.
Qed.

Lemma no_control_app (s t : pystr) :
  no_control s -> no_control t -> no_control (s ++ t).
Proof. intros Hs Ht. apply Forall_app. split; assumption. Qed.

Lemma digits_no_control (ds : pystr) : digits ds -> no_control ds.
Proof.
  intros H. eapply Forall_impl; [|exact H].
  intros c Hc. unfold is_digit in Hc. cbv beta in Hc. lia.
Qed.

Lemma hexdigit_no_control (d : N) : 32 <= hexdigit d.
Proof. unfold hexdigit. destruct (d <? 10); lia. Qed.

Lemma escape_u_no_control (c : N) : no_control (escape_u c).
Proof.
  unfold escape_u.
  constructor; [discriminate|]. constructor; [discriminate|].
  repeat (constructor; [apply hexdigit_no_control|]). constructor.
Qed.

Lemma escape_char_no_control (c : N) : no_control (escape_char c).
Proof.
  unfold escape_char.
  repeat match goal with
         | |- no_control (if ?b then _ else _) => destruct b eqn:?
         end;
    try (repeat (constructor; [discriminate|]); constructor; fail).
  - constructor; [lia | constructor].
  - apply escape_u_no_control.
  - apply no_control_app; apply escape_u_no_control.
Qed.

Lemma encode_basestring_ascii_no_control (s : pystr) :
  no_control (encode_basestring_ascii s).
Proof.
  unfold encode_basestring_ascii.
  constructor; [discriminate|].
  apply no_control_app; [|constructor; [discriminate | constructor]].
  induction s as [|c s IH]; [constructor|].
  cbn [flat_map]. apply no_control_app; [apply escape_char_no_control|].
  exact IH.
Qed.

Lemma sign_no_control (neg : bool) : no_control (sign neg).
Proof. destruct neg; repeat constructor. discriminate. Qed.

Lemma int_part_no_control (ip : pystr) : int_part ip -> no_control ip.
Proof.
  intros [->|(d & ds & -> & Hd & _ & Hds)].
  - constructor; [discriminate | constructor].
  - apply digits_no_control. constructor; assumption.
Qed.

Lemma int_repr_no_control (z : Z) : no_control (int_repr z).
Proof.
  destruct (int_repr_digits z) as (ip & -> & Hip & _).
  apply no_control_app;
    [apply sign_no_control | apply int_part_no_control, Hip].
Qed.

Lemma float_lexeme_no_control (t : pystr) :
  is_float_lexeme t = true -> no_control t.
Proof.
  intros H. apply is_float_lexeme_parts in H.
  destruct H as (neg & ip & f & e & -> & Hip & Hf & He & _).
  apply no_control_app; [apply sign_no_control|].
  apply no_control_app; [apply int_part_no_control, Hip|].
  apply no_control_app.
  - destruct Hf as [->|(c & fs & -> & Hd)]; [constructor|].
    constructor; [discriminate | apply digits_no_control, Hd].
  - destruct He as [->|(x & sg & c & es & -> & Hx & Hsg & Hd)]; [constructor|].
    constructor; [destruct Hx as [->| ->]; discriminate|].
    apply no_control_app; [|apply digits_no_control, Hd].
    destruct Hsg as [->|[->| ->]]; repeat constructor; discriminate.
Qed.

Lemma float_text_no_control (float_repr : pystr -> pystr) (t : pystr) :
  float_text float_repr t = true -> no_control t.
Proof.
  unfold float_text. rewrite !orb_true_iff, andb_true_iff, !str_eqb_eq.
  intros [[[->| ->]| ->]|[H _]];
    try (repeat (constructor; [discriminate|]); constructor; fail).
  apply float_lexeme_no_control, H.
Qed.

Lemma str_join_no_control (sep : pystr) (chunks : list pystr) :
  no_control sep -> Forall no_control chunks ->
  no_control (str_join sep chunks).
Proof.
  intros Hsep H. induction H as [|x r Hx Hr IH]; [constructor|].
  cbn [str_join]. destruct r as [|y r]; [exact Hx|].
  apply no_control_app; [exact Hx|]. apply no_control_app; [exact Hsep|].
  exact IH.
Qed.

Lemma dumps_with_no_control (float_repr : pystr -> pystr)
      (item_sep key_sep : pystr) (o : pyobj) :
  no_control item_sep -> no_control key_sep ->
  wf_obj float_repr o = true ->
  no_control (dumps_with item_sep key_sep o).
Proof.
  intros Hi Hk. induction o as [| b | z | t | s | l IH | d IH]
                  using pyobj_induction; intros Hwf; cbn [dumps_with].
  - repeat (constructor; [discriminate|]). constructor.
  - destruct b; repeat (constructor; [discriminate|]); constructor.
  - apply int_repr_no_control.
  - exact (float_text_no_control float_repr t Hwf).
  - apply encode_basestring_ascii_no_control.
  - constructor; [discriminate|].
    apply no_control_app; [|constructor; [discriminate | constructor]].
    apply str_join_no_control; [exact Hi|].
    cbn [wf_obj] in Hwf. induction IH as [|x r Hx Hr IHr]; [constructor|].
    cbn [forallb] in Hwf. apply andb_true_iff in Hwf.
    destruct Hwf as [Hwx Hwr]. cbn [map]. constructor; auto.
  - constructor; [discriminate|].
    apply no_control_app; [|constructor; [discriminate | constructor]].
    apply str_join_no_control; [exact Hi|].
    cbn [wf_obj] in Hwf. apply andb_true_iff in Hwf.
    destruct Hwf as [Hwf _].
    induction IH as [|[k v] r Hx Hr IHr]; [constructor|].
    cbn [forallb] in Hwf. apply andb_true_iff in Hwf.
    destruct Hwf as [Hwx Hwr]. apply andb_true_iff in Hwx.
    destruct Hwx as [Hwk Hwv]. cbn [map]. constructor; [|auto].
    apply no_control_app; [apply encode_basestring_ascii_no_control|].
    apply no_control_app; [exact Hk|]. apply Hx. exact Hwv.
Qed.

Lemma no_control_keeps_out (k : N) (s : pystr) :
  k < 32 -> no_control s -> Forall (fun c => c <> k) s.
Proof.
  intros Hk H. eapply Forall_impl; [|exact H].
  intros c Hc. cbv beta in Hc. lia.
Qed.

Lemma skipn_keeps_out {A} (P : A -> Prop) (n : nat) (l : list A) :
  Forall P l -> Forall P (skipn n l).
Proof.
  revert l. induction n as [|n IH]; intros l H; [exact H|].
  destruct l as [|a l]; [exact H|]. cbn [skipn]. apply IH.
  exact (Forall_inv_tail H).
Qed.

Lemma add_space_keeps_out (k : N) (line : pystr) :
  k < 32 ->
  Forall (fun c => c <> k) line ->
  Forall (fun c => c <> k) (add_space line).
Proof.
  intros Hk H. unfold add_space. destruct (_ && _); [|exact H].
  apply Forall_app. split; [|apply skipn_keeps_out; exact H].
  apply (no_control_keeps_out k _ Hk).
  repeat (constructor; [discriminate|]). constructor.
Qed.


(** ** Reading back what [json.dumps] wrote with its default separators *)

Lemma dumps_default_start (float_repr : pystr -> pystr) (o : pyobj) :
  wf_obj float_repr o = true -> value_start (dumps_default o).
Proof.
  destruct o as [| [|] | z | t | s | l | d]; cbn [wf_obj]; intros H;
    try (cbv; repeat split; discriminate).
  - exact (dumps_start float_repr (PyInt z) eq_refl).
  - exact (dumps_start float_repr (PyFloat t) H).
Qed.

Lemma skip_ws_space (s : pystr) : value_start s -> skip_ws (32 :: s) = s.
Proof. intros H. cbn [skip_ws]. apply skip_ws_start. exact H. Qed.

Lemma str_join_start_default (l : list pyobj) (float_repr : pystr -> pystr)
      (x : pyobj) (r : pystr) :
  wf_obj float_repr x = true ->
  value_start (str_join (lit ", ") (map dumps_default (x :: l)) ++ r).
Proof.
  intros Hx. apply value_start_app. cbn [map str_join].
  destruct (map dumps_default l).
  - apply (dumps_default_start float_repr). exact Hx.
  - apply value_start_app, (dumps_default_start float_repr). exact Hx.
Qed.

Lemma parse_items_default (float_repr : pystr -> pystr) (l : list pyobj) :
  Forall (reads_back_default float_repr) l ->
  forallb (wf_obj float_repr) l = true ->
  l <> [] ->
  forall (n : nat) (acc : list pyobj) (rest : pystr),
    (list_sum (map (fun x => S (weight x)) l) <= n)%nat ->
    parse_items float_repr n acc
      (str_join (lit ", ") (map dumps_default l) ++ 93 :: rest)
    = Some (PyList (acc ++ l), rest).
Proof.
  induction 1 as [|x l Hx Hl IH]; intros Hwf Hne n acc rest Hn;
    [congruence|].
  cbn [forallb] in Hwf. apply andb_true_iff in Hwf. destruct Hwf as [Hwx Hwl].
  cbn [map] in Hn. unfold list_sum in Hn. cbn [fold_right] in Hn.
  fold (list_sum (map (fun x => S (weight x)) l)) in Hn.
  destruct n as [|n]; [lia|].
  cbn [parse_items]. destruct l as [|y l].
  - cbn [map str_join].
    rewrite (Hx Hwx n (93 :: rest)) by (try reflexivity; lia).
    cbn [skip_ws]. change (is_whitespace 93) with false. cbv iota.
    norm_ch. cbn [N.eqb Pos.eqb]. reflexivity.
  - change (str_join (lit ", ") (map dumps_default (x :: y :: l)))
      with (dumps_default x ++ lit ", "
            ++ str_join (lit ", ") (map dumps_default (y :: l))).
    rewrite <- !app_assoc.
    rewrite (Hx Hwx n) by (try reflexivity; lia).
    change (lit ", " ++ ?t) with (44 :: 32 :: t).
    cbn [skip_ws]. change (is_whitespace 44) with false.
    cbv iota. norm_ch. cbn [N.eqb Pos.eqb].
    rewrite skip_ws_space.
    2:{ cbn [forallb] in Hwl. apply andb_true_iff in Hwl.
        apply (str_join_start_default l float_repr y). tauto. }
    rewrite (IH Hwl) by (try discriminate; lia).
    rewrite <- app_assoc. reflexivity.
Qed.

Lemma parse_pairs_default (float_repr : pystr -> pystr) (d : pydict) :
  Forall (fun kv => reads_back_default float_repr (snd kv)) d ->
  forallb (fun '(k, v) => wf_str k && wf_obj float_repr v) d = true ->
  d <> [] ->
  forall (n : nat) (acc : pydict) (rest : pystr),
    (list_sum (map (fun '(_, x) => S (weight x)) d) <= n)%nat ->
    distinct (map fst (acc ++ d)) = true ->
    parse_pairs float_repr n acc
      (str_join (lit ", ")
         (map (fun '(k, v) =>
                 encode_basestring_ascii k ++ lit ": " ++ dumps_default v) d)
       ++ 125 :: rest)
    = Some (PyDict (acc ++ d), rest).
Proof.
  induction 1 as [|[k x] d Hx Hd IH]; intros Hwf Hne n acc rest Hn Hdis;
    [congruence|].
  cbn [snd] in Hx.
  cbn [forallb] in Hwf. apply andb_true_iff in Hwf. destruct Hwf as [Hwx Hwd].
  apply andb_true_iff in Hwx. destruct Hwx as [Hk Hwx].
  cbn [map] in Hn. unfold list_sum in Hn. cbn [fold_right] in Hn.
  fold (list_sum (map (fun '(_, x) => S (weight x)) d)) in Hn.
  destruct n as [|n]; [lia|].
  pose proof (distinct_absent acc d k x Hdis) as Habs.
  assert (Hhead : forall tail,
    ends_value tail = true ->
    parse_pairs float_repr (S n) acc
      ((encode_basestring_ascii k ++ lit ": " ++ dumps_default x) ++ tail)
    = match skip_ws tail with
      | [] => None
      | c :: r4 =>
        if c =? ch "}" then Some (PyDict (acc ++ [(k, x)]), r4)
        else if c =? ch ","
             then parse_pairs float_repr n (acc ++ [(k, x)]) (skip_ws r4)
             else None
      end).
  { intros tail Ht. unfold encode_basestring_ascii. cbn [app parse_pairs].
    rewrite N.eqb_refl. rewrite <- !app_assoc. cbn [app].
    rewrite scanstring_dumps by exact Hk.
    change (lit ": " ++ ?t) with (58 :: 32 :: t).
    cbn [skip_ws]. change (is_whitespace 58) with false.
    cbv iota. norm_ch. cbn [N.eqb Pos.eqb].
    rewrite skip_ws_space
      by (apply value_start_app, (dumps_default_start float_repr);
          exact Hwx).
    rewrite (Hx Hwx n tail) by (try exact Ht; lia).
    rewrite dict_set_absent by exact Habs. reflexivity. }
  destruct d as [|[k' y] d].
  - cbn [map str_join]. rewrite Hhead by reflexivity.
    cbn [skip_ws]. change (is_whitespace 125) with false. cbv iota.
    norm_ch. cbn [N.eqb Pos.eqb]. reflexivity.
  - change (str_join (lit ", ")
              (map (fun '(k, v) =>
                      encode_basestring_ascii k ++ lit ": "
                      ++ dumps_default v)
                   ((k, x) :: (k', y) :: d)))
      with ((encode_basestring_ascii k ++ lit ": " ++ dumps_default x)
            ++ lit ", "
            ++ str_join (lit ", ")
                 (map (fun '(k, v) =>
                         encode_basestring_ascii k ++ lit ": "
                         ++ dumps_default v)
                      ((k', y) :: d))).
    rewrite <- (app_assoc _ (lit ", " ++ _) (125 :: rest)).
    rewrite Hhead by reflexivity.
    rewrite <- app_assoc.
    change (lit ", " ++ ?t) with (44 :: 32 :: t).
    cbn [skip_ws]. change (is_whitespace 44) with false.
    cbv iota. norm_ch. cbn [N.eqb Pos.eqb].
    rewrite skip_ws_space by (cbn [map str_join]; destruct (map _ d); cbv;
                              repeat split; discriminate).
    rewrite (IH Hwd) by (try discriminate; try lia;
                         rewrite <- app_assoc; exact Hdis).
    rewrite <- app_assoc. reflexivity.
Qed.

(** [scan_once] reads back the default serialisation of every well-formed
    object. *)
Lemma scan_once_default (float_repr : pystr -> pystr) (o : pyobj) :
  reads_back_default float_repr o.
Proof.
  induction o as [| b | z | t | s | l IH | d IH] using pyobj_induction;
    intros Hwf n rest Hn Hr; cbn [weight] in Hn;
    (destruct n as [|n]; [lia|]); cbn [wf_obj] in Hwf.
  - reflexivity.
  - destruct b; reflexivity.
  - apply scan_once_int. exact Hr.
  - apply scan_once_float; assumption.
  - apply scan_once_str. exact Hwf.
  - unfold dumps_default. cbn [dumps_with]. fold dumps_default.
    cbn [app scan_once]. norm_ch. cbn [DQUOTE N.eqb Pos.eqb].
    rewrite <- app_assoc. cbn [app]. destruct l as [|x l].
    + reflexivity.
    + rewrite skip_ws_start.
      2:{ cbn [forallb] in Hwf. apply andb_true_iff in Hwf.
          apply (str_join_start_default l float_repr x). tauto. }
      pose proof (str_join_start_default l float_repr x (93 :: rest)) as Hs.
      destruct (str_join (lit ", ") (map dumps_default (x :: l))
                ++ 93 :: rest) as [|c r] eqn:E.
      * cbn [forallb] in Hwf. apply andb_true_iff in Hwf.
        destruct Hs; tauto.
      * assert (Hc : (c =? 93) = false).
        { cbn [forallb] in Hwf. apply andb_true_iff in Hwf.
          destruct Hs as (_ & Hc & _); [tauto | lia]. }
        rewrite Hc, <- E.
        apply (parse_items_default float_repr (x :: l) IH Hwf);
          [discriminate | lia].
  - apply andb_true_iff in Hwf. destruct Hwf as [Hwf Hdis].
    unfold dumps_default. cbn [dumps_with]. fold dumps_default.
    cbn [app scan_once]. norm_ch. cbn [DQUOTE N.eqb Pos.eqb].
    rewrite <- app_assoc. cbn [app]. destruct d as [|[k x] d].
    + reflexivity.
    + pose proof (parse_pairs_default float_repr ((k, x) :: d) IH Hwf
                    ltac:(discriminate) n [] rest ltac:(lia) Hdis) as Hp.
      cbn [app] in Hp.
      destruct (str_join (lit ", ")
                  (map (fun '(k, v) =>
                          encode_basestring_ascii k ++ lit ": "
                          ++ dumps_default v) ((k, x) :: d)) ++ 125 :: rest)
        as [|c r] eqn:E.
      * destruct n; discriminate.
      * assert (Hc : c = 34).
        { cbn [map str_join] in E. unfold encode_basestring_ascii in E.
          destruct (map _ d) in E; cbn [app] in E; injection E as <- _;
            reflexivity. }
        subst c. cbn [skip_ws]. change (is_whitespace 34) with false.
        cbv iota. cbn [N.eqb Pos.eqb]. exact Hp.
Qed.

(** The length of the text is fuel enough. *)
Lemma weight_le_length_default (float_repr : pystr -> pystr) (o : pyobj) :
  wf_obj float_repr o = true ->
  (weight o <= List.length (dumps_default o))%nat.
Proof.
  induction o as [| b | z | t | s | l IH | d IH] using pyobj_induction;
    intros Hwf;
    try (pose proof (dumps_default_start float_repr _ Hwf) as Hs;
         destruct (dumps_default _); [destruct Hs | simpl; lia]).
  - cbn [wf_obj] in Hwf. unfold dumps_default. cbn [dumps_with weight].
    fold dumps_default. cbn [List.length]. rewrite length_app.
    cbn [List.length].
    pose proof (sum_le_join weight dumps_default (lit ", ") l) as H.
    assert (Hl : Forall (fun a => (weight a <= List.length (dumps_default a))%nat) l).
    { rewrite forallb_forall in Hwf. rewrite Forall_forall in *. auto. }
    specialize (H ltac:(cbv; lia) Hl). lia.
  - cbn [wf_obj] in Hwf. apply andb_true_iff in Hwf. destruct Hwf as [Hwf _].
    unfold dumps_default. cbn [dumps_with weight].
    fold dumps_default. cbn [List.length]. rewrite length_app.
    cbn [List.length].
    pose proof (sum_le_join (fun kv => weight (snd kv))
                  (fun '(k, v) =>
                     encode_basestring_ascii k ++ lit ": " ++ dumps_default v)
                  (lit ", ") d) as H.
    assert (Hl : Forall (fun kv : pystr * pyobj =>
                  (weight (snd kv)
                   <= List.length
                        (let '(k, v) := kv in
                         encode_basestring_ascii k ++ lit ": "
                         ++ dumps_default v))%nat) d).
    { rewrite forallb_forall in Hwf. rewrite Forall_forall in *.
      intros [k v] Hin. specialize (IH _ Hin). specialize (Hwf _ Hin).
      cbn [snd] in *. apply andb_true_iff in Hwf.
      rewrite !length_app. specialize (IH (proj2 Hwf)). lia. }
    specialize (H ltac:(cbv; lia) Hl).
    replace (map (fun '(_, x) => S (weight x)) d)
      with (map (fun a => S (weight (snd a))) d)
      by (apply map_ext; intros [k v]; reflexivity).
    apply le_n_S. eapply Nat.le_trans; [exact H|].
    rewrite Nat.add_1_r. apply le_n.
Qed.

Lemma loads_dumps_default (float_repr : pystr -> pystr) (o : pyobj) :
  wf_obj float_repr o = true ->
  loads float_repr (dumps_default o) = Some o.
Proof.
  intros Hwf. unfold loads.
  pose proof (dumps_default_start float_repr o Hwf) as Hs.
  assert (Hw : (weight o <= S (List.length (dumps_default o)))%nat).
  { pose proof (weight_le_length_default float_repr o Hwf). lia. }
  rewrite (skip_ws_start _ Hs).
  replace (str_startswith (dumps_default o) [65279]) with false.
  - rewrite <- (List.app_nil_r (dumps_default o)) at 2.
    rewrite (scan_once_default float_repr o Hwf _ [] Hw eq_refl).
    reflexivity.
  - destruct (dumps_default o) as [|c r]; [destruct Hs|].
    destruct Hs as (_ & _ & Hc). unfold str_startswith. cbn [starts_with].
    replace (65279 =? c) with false by lia. reflexivity.
Qed.


(** * Theorems *)

(** C1: [fix_sse_line] is not total.  On the line
    [data: {"choices":5}] the payload parses, [for choice in 5] raises
    [TypeError], and nothing catches it: the call raises whatever the
    model name and the float printer are. *)
Theorem fix_sse_line_raises_on_non_array_choices :
  forall (float_repr : pystr -> pystr) (MODEL_NAME : pystr),
    fix_sse_line float_repr MODEL_NAME (blit "data: {'choices':5}")
    = Raise TypeError.
Proof.
  intros float_repr MODEL_NAME. vm_compute. reflexivity.
Qed.

(** C3, as the spec states it, fails: with no replacement model the
    scenario's body does not produce the expected stream. *)
Lemma scenario_stream_differs :
  sent (fst (_stream_sse repr_as_read [] scenario_body connected))
  <> scenario_expected.
Proof.
  vm_compute. discriminate.
Qed.

(** C3, amended: with no replacement model the scenario's body produces
    the expected events, each followed by one more LF for the blank line
    of the upstream that the loop forwards, and the call returns. *)
Theorem scenario_stream :
  forall float_repr : pystr -> pystr,
    _stream_sse float_repr [] scenario_body connected
    = ({| sent := scenario_written; credit := None |}, Ok tt).
Proof.
  intros float_repr. vm_compute. reflexivity.
Qed.

(** C10: the sentinel test is byte equality after [rstrip(b"\r\n")].  A
    line that is [data: [DONE]] or [data:[DONE]] once its trailing CR and
    LF are gone is answered with the canonical sentinel and sets
    [saw_done]; any other line goes through [fix_sse_line] and leaves
    [saw_done] as it was.  So do the variants with a trailing space, with
    two spaces and in lower case, which the client gets back as they
    are. *)
Theorem sentinel_detection_is_exact :
  forall (float_repr : pystr -> pystr) (MODEL_NAME : pystr)
         (saw_done : bool) (raw_line : bytes),
    let line := rstrip_crlf raw_line in
    (line = blit "data: [DONE]" \/ line = blit "data:[DONE]" ->
     stream_line float_repr MODEL_NAME saw_done raw_line
     = (write DONE ;;; flush ;;; ret true))
    /\ (line <> blit "data: [DONE]" -> line <> blit "data:[DONE]" ->
        stream_line float_repr MODEL_NAME saw_done raw_line
        = (fixed <~ lift (fix_sse_line float_repr MODEL_NAME line) ;;
           write (fixed ++ LF) ;;;
           (if bytes_startswith fixed (blit "data: ")
            then write LF else ret tt) ;;;
           flush ;;;
           ret saw_done))
    /\ stream_line float_repr MODEL_NAME saw_done
         (blit "data:[DONE]" ++ CR ++ LF) connected
       = ({| sent := DONE; credit := None |}, Ok true)
    /\ stream_line float_repr MODEL_NAME saw_done
         (blit "data: [DONE] " ++ LF) connected
       = ({| sent := blit "data: [DONE] " ++ LF ++ LF; credit := None |},
          Ok saw_done)
    /\ stream_line float_repr MODEL_NAME saw_done
         (blit "data:  [DONE]" ++ LF) connected
       = ({| sent := blit "data:  [DONE]" ++ LF ++ LF; credit := None |},
          Ok saw_done)
    /\ stream_line float_repr MODEL_NAME saw_done
         (blit "data: [done]" ++ LF) connected
       = ({| sent := blit "data: [done]" ++ LF ++ LF; credit := None |},
          Ok saw_done).
Proof.
  intros float_repr MODEL_NAME saw_done raw_line line.
  split; [|split].
  - intros H. apply is_sentinel_spec in H.
    unfold stream_line. fold line. rewrite H. reflexivity.
  - intros H1 H2. unfold stream_line. fold line.
    destruct (is_sentinel line) eqn:E; [|reflexivity].
    apply is_sentinel_spec in E. tauto.
  - repeat split; vm_compute; reflexivity.
Qed.

Lemma sentinel_detection_is_exact_witness :
  stream_line repr_as_read [] false (blit "data:[DONE]" ++ CR ++ LF)
  = (write DONE ;;; flush ;;; ret true).
Proof.
  apply (proj1 (sentinel_detection_is_exact repr_as_read [] false
                  (blit "data:[DONE]" ++ CR ++ LF))).
  right. vm_compute. reflexivity.
Defined.

(** C5, as the spec states it, fails: the byte FF does not start with
    [data:], and [errors="replace"] turns it into the three bytes of
    U+FFFD. *)
Lemma invalid_utf8_line_is_rewritten :
  bytes_startswith [xff] (blit "data:") = false
  /\ fix_sse_line repr_as_read [] [xff] = Ok [xef; xbf; xbd]
  /\ fix_sse_line repr_as_read [] [xff] <> Ok [xff].
Proof.
  repeat split; try (vm_compute; reflexivity).
  vm_compute. discriminate.
Qed.

(** C5, amended: a line that is the UTF-8 encoding of a string and does not
    start with the bytes [data:] is returned unchanged. *)
Theorem fix_sse_line_identity_on_non_data_lines :
  forall (float_repr : pystr -> pystr) (MODEL_NAME : pystr)
         (s : pystr) (x : bytes),
    Utf8.encode s = Ok x ->
    bytes_startswith x (blit "data:") = false ->
    fix_sse_line float_repr MODEL_NAME x = Ok x.
Proof.
  intros float_repr MODEL_NAME s x Henc Hx.
  assert (Hs : str_startswith s (lit "data:") = false).
  { destruct (str_startswith s (lit "data:")) eqn:E; [|reflexivity].
    rewrite (encode_startswith_data s x Henc E) in Hx. discriminate. }
  unfold fix_sse_line. rewrite (decode_encode s x Henc).
  unfold add_space. rewrite Hs. cbn [andb].
  destruct (str_startswith s (lit "data: {")) eqn:E.
  - apply (starts_with_prefix N.eqb (lit "data:") (lit " {")) in E.
    unfold str_startswith in Hs. congruence.
  - exact Henc.
Qed.

Lemma fix_sse_line_identity_on_non_data_lines_witness :
  fix_sse_line repr_as_read (lit "custom-model") (blit "event: ping")
  = Ok (blit "event: ping").
Proof.
  apply (fix_sse_line_identity_on_non_data_lines repr_as_read
           (lit "custom-model") (lit "event: ping"));
    vm_compute; reflexivity.
Defined.







(** C4, as the spec states it, fails: an upstream that sends the sentinel
    twice gets it written twice. *)
Lemma sentinel_written_twice :
  _stream_sse repr_as_read [] two_sentinels_body connected
  = ({| sent := DONE ++ DONE; credit := None |}, Ok tt)
  /\ count_infix DONE (DONE ++ DONE) = 2%nat.
Proof.
  split; vm_compute; reflexivity.
Qed.

(** C4, amended: when the rewriter raises on no line of the upstream body
    and the client stays, the loop returns having written, line by line,
    the canonical sentinel for every line that is [data: [DONE]] or
    [data:[DONE]] once its CR and LF are gone and [forwarded] for the
    others, and after them one more sentinel when no line was one; so the
    output contains the canonical sentinel at least once. *)
Theorem sentinel_is_written :
  forall (float_repr : pystr -> pystr) (MODEL_NAME : pystr)
         (body : bytes) (chunks : list bytes),
    mapM (forwarded float_repr MODEL_NAME) (readlines body) = Ok chunks ->
    let written :=
      List.concat chunks
      ++ (if existsb sentinel_line (readlines body) then [] else DONE) in
    _stream_sse float_repr MODEL_NAME body connected
    = ({| sent := written; credit := None |}, Ok tt)
    /\ (1 <= count_infix DONE written)%nat
    /\ (forall raw_line : bytes,
          sentinel_line raw_line = true ->
          forwarded float_repr MODEL_NAME raw_line = Ok DONE)
    /\ sentinel_line (blit "data: [DONE]" ++ LF) = true
    /\ sentinel_line (blit "data:[DONE]" ++ CR ++ LF) = true.
Proof.
  intros float_repr MODEL_NAME body chunks H written.
  split; [|split; [|split; [|split]]].
  - unfold _stream_sse.
    rewrite (stream_lines_forwarded float_repr MODEL_NAME (readlines body)
               chunks false connected eq_refl H).
    cbn [orb sent connected app]. unfold written.
    destruct (existsb sentinel_line (readlines body)); cbn [negb].
    + rewrite List.app_nil_r. reflexivity.
    + reflexivity.
  - unfold written.
    destruct (existsb sentinel_line (readlines body)) eqn:E.
    + destruct (sentinel_line_chunk float_repr MODEL_NAME (readlines body)
                  chunks H E) as (a & b & ->).
      rewrite List.app_nil_r. apply count_infix_app.
    + rewrite <- (List.app_nil_r DONE) at 2. apply count_infix_app.
  - intros raw_line Hr. unfold forwarded. unfold sentinel_line in Hr.
    rewrite Hr. reflexivity.
  - vm_compute. reflexivity.
  - vm_compute. reflexivity.
Qed.

Lemma sentinel_is_written_witness :
  _stream_sse repr_as_read [] scenario_body connected
  = ({| sent := scenario_written; credit := None |}, Ok tt)
  /\ (1 <= count_infix DONE scenario_written)%nat.
Proof.
  destruct (sentinel_is_written repr_as_read [] scenario_body
              [blit "data: {'choices':[{'delta':{'tool_calls':[{'type':'function','index':0}]}}]}"
               ++ LF ++ LF; LF; DONE; LF]
              ltac:(vm_compute; reflexivity)) as (H1 & H2 & _).
  split; [exact H1 | exact H2].
Defined.

(** * Further properties *)

(** ** The Event Rewriter *)

(** X1: [fix_sse_line] is idempotent where it returns: fixing the bytes
    that it returned gives the same bytes, and when it raises there is
    nothing to fix again.  The replacement model is a text that
    [json.loads] can give back, and [float_repr] prints a float so that
    it is read back as printed. *)
Theorem fix_sse_line_idempotent :
  forall (float_repr : pystr -> pystr) (MODEL_NAME : pystr) (x : bytes),
    float_repr_stable float_repr ->
    wf_str MODEL_NAME = true ->
    (y <- fix_sse_line float_repr MODEL_NAME x ;;
     fix_sse_line float_repr MODEL_NAME y)
    = fix_sse_line float_repr MODEL_NAME x.
Proof.
  intros float_repr MODEL_NAME x Hfr HM.
  pose proof (add_space_scalars _ (decode_scalar x)) as Hsc.
  pose proof (add_space_idempotent (Utf8.decode x)) as Hidem.
  unfold fix_sse_line at 1 3. cbv zeta.
  remember (add_space (Utf8.decode x)) as line eqn:Hline. clear Hline x.
  destruct (encode_scalar line Hsc) as [b Hb].
  pose proof (fix_sse_line_encoded float_repr MODEL_NAME line b Hb Hidem)
    as Hfix.
  destruct (str_startswith line (lit "data: {")) eqn:Es; cbn [negb] in *.
  2: { rewrite Hb. cbn [bind]. exact Hfix. }
  destruct (loads float_repr (skipn 6 line)) as [payload|] eqn:El.
  2: { rewrite Hb. cbn [bind]. exact Hfix. }
  destruct (fix_payload MODEL_NAME payload) as [[p' c]|] eqn:Ef;
    cbn [bind] in *; [|reflexivity].
  destruct c.
  2: { rewrite Hb. cbn [bind]. exact Hfix. }
  destruct (Utf8.encode (lit "data: " ++ dumps_compact p')) as [b2|] eqn:E2;
    cbn [bind]; [|reflexivity].
  rewrite (fix_sse_line_encoded float_repr MODEL_NAME _ b2 E2
             (add_space_startswith (lit "data: " ++ dumps_compact p')
                eq_refl)).
  rewrite (dumps_compact_dict p' (fix_payload_dict MODEL_NAME _ _ _ Ef)).
  cbn [negb].
  change (skipn 6 (lit "data: " ++ dumps_compact p')) with (dumps_compact p').
  assert (Hwf : wf_obj float_repr p' = true).
  { apply (fix_payload_wf float_repr MODEL_NAME HM payload p' true);
      [|exact Ef].
    apply (loads_wf float_repr (skipn 6 line) payload Hfr);
      [apply scalars_skipn; exact Hsc | exact El]. }
  rewrite (loads_dumps_wf float_repr p' Hwf).
  destruct (fix_payload_settled MODEL_NAME payload p' true Ef) as [c' ->].
  cbn [bind]. destruct c'; [exact E2 | reflexivity].
Qed.

Lemma fix_sse_line_idempotent_witness :
  float_repr_stable repr_as_read
  /\ wf_str (lit "custom-model") = true
  /\ (y <- fix_sse_line repr_as_read (lit "custom-model")
            (blit "data:{'model':'gpt-4o-mini','choices':[{'delta':{'tool_calls':[{}]}}]}") ;;
      fix_sse_line repr_as_read (lit "custom-model") y)
     = fix_sse_line repr_as_read (lit "custom-model")
         (blit "data:{'model':'gpt-4o-mini','choices':[{'delta':{'tool_calls':[{}]}}]}").
Proof.
  assert (H : float_repr_stable repr_as_read).
  { intros t Ht. unfold float_text, repr_as_read.
    rewrite Ht, str_eqb_refl. apply orb_true_r. }
  split; [exact H|]. split; [reflexivity|].
  apply (fix_sse_line_idempotent repr_as_read (lit "custom-model") _ H).
  reflexivity.
Defined.





(** X4: what [fix_sse_line] returns starts with [data: ], colon and
    space, exactly when the decoded input starts with [data:]: every
    data line leaves with its space, and no other line becomes a data
    line. *)
Theorem data_prefix_is_normalised :
  forall (float_repr : pystr -> pystr) (MODEL_NAME : pystr) (x y : bytes),
    fix_sse_line float_repr MODEL_NAME x = Ok y ->
    bytes_startswith y (blit "data: ")
    = str_startswith (Utf8.decode x) (lit "data:").
Proof.
  intros float_repr MODEL_NAME x y H.
  destruct (fix_sse_line_encodes float_repr MODEL_NAME x y H)
    as (s & Hs & Hp).
  rewrite (encode_data s y Hs). exact Hp.
Qed.

Lemma data_prefix_is_normalised_witness :
  bytes_startswith (blit "data: [1]") (blit "data: ")
  = str_startswith (Utf8.decode (blit "data:[1]")) (lit "data:").
Proof.
  apply (data_prefix_is_normalised repr_as_read [] (blit "data:[1]")
           (blit "data: [1]")).
  vm_compute. reflexivity.
Defined.

(** X5: what [fix_sse_line] returns is UTF-8, whatever bytes it was
    given: decoding it replaces nothing, and encoding the decoded text
    gives it back. *)
Theorem fixed_line_is_utf8 :
  forall (float_repr : pystr -> pystr) (MODEL_NAME : pystr) (x y : bytes),
    fix_sse_line float_repr MODEL_NAME x = Ok y ->
    Utf8.encode (Utf8.decode y) = Ok y.
Proof.
  intros float_repr MODEL_NAME x y H.
  destruct (fix_sse_line_encodes float_repr MODEL_NAME x y H)
    as (s & Hs & _).
  exact (encode_decode_encode s y Hs).
Qed.

Lemma fixed_line_is_utf8_witness :
  fix_sse_line repr_as_read [] [xff; x41] = Ok [xef; xbf; xbd; x41]
  /\ Utf8.encode (Utf8.decode [xef; xbf; xbd; x41])
     = Ok [xef; xbf; xbd; x41].
Proof.
  split; [vm_compute; reflexivity|].
  apply (fixed_line_is_utf8 repr_as_read [] [xff; x41]).
  vm_compute. reflexivity.
Defined.

(** X6: the flag [changed] misses no mutation: when the fixes end with
    [changed] false, the payload is as it was parsed, so that returning
    the line as it came drops no fix. *)
Theorem unchanged_payload_is_untouched :
  forall (MODEL_NAME : pystr) (payload payload' : pyobj),
    fix_payload MODEL_NAME payload = Ok (payload', false) ->
    payload' = payload.
Proof.
  intros MODEL_NAME payload payload'. unfold fix_payload.
  destruct (add_missing_index payload) as [[p1 c1]|] eqn:Ea;
    [|discriminate].
  cbn [bind]. intros H.
  apply rewrite_model_unchanged in H. destruct H as [-> ->].
  exact (add_missing_index_truthful payload p1 Ea).
Qed.

Lemma unchanged_payload_is_untouched_witness :
  fix_payload (lit "custom-model")
    (PyDict [(lit "model", PyStr (lit "gpt-4"));
             (lit "choices",
              PyList [PyDict [(lit "delta",
                PyDict [(lit "tool_calls",
                  PyList [PyDict [(lit "index", PyInt 2)]])])]])])
  = Ok (PyDict [(lit "model", PyStr (lit "gpt-4"));
                (lit "choices",
                 PyList [PyDict [(lit "delta",
                   PyDict [(lit "tool_calls",
                     PyList [PyDict [(lit "index", PyInt 2)]])])]])],
        false)
  /\ PyDict [(lit "model", PyStr (lit "gpt-4"));
             (lit "choices",
              PyList [PyDict [(lit "delta",
                PyDict [(lit "tool_calls",
                  PyList [PyDict [(lit "index", PyInt 2)]])])]])]
     = PyDict [(lit "model", PyStr (lit "gpt-4"));
               (lit "choices",
                PyList [PyDict [(lit "delta",
                  PyDict [(lit "tool_calls",
                    PyList [PyDict [(lit "index", PyInt 2)]])])]])].
Proof.
  split; [vm_compute; reflexivity|].
  apply (unchanged_payload_is_untouched (lit "custom-model")).
  vm_compute. reflexivity.
Defined.

(** X7: the fixes keep the keys of the payload, in their order, and the
    value of every key but [choices] and [model]; no [model] key is added
    to a payload that has none. *)
Theorem fixes_keep_top_level_keys :
  forall (MODEL_NAME : pystr) (d : pydict) (payload' : pyobj) (c : bool),
    fix_payload MODEL_NAME (PyDict d) = Ok (payload', c) ->
    exists d',
      payload' = PyDict d'
      /\ map fst d' = map fst d
      /\ forall k,
          k <> lit "choices" -> k <> lit "model" ->
          dict_get d' k = dict_get d k.
Proof.
  intros MODEL_NAME d payload' c. unfold fix_payload.
  destruct (add_missing_index (PyDict d)) as [[p1 c1]|] eqn:Ea;
    [|discriminate].
  cbn [bind]. intros H.
  destruct (add_missing_index_keys d p1 c1 Ea) as (d1 & -> & Hk1 & Hv1).
  destruct (rewrite_model_keys MODEL_NAME d1 payload' c1 c H)
    as (d2 & -> & Hk2 & Hv2).
  exists d2. split; [reflexivity|]. split; [congruence|].
  intros k Hc Hm. rewrite (Hv2 k Hm). exact (Hv1 k Hc).
Qed.

Lemma fixes_keep_top_level_keys_witness :
  exists d',
    PyDict [(lit "id", PyStr (lit "a")); (lit "model", PyStr (lit "m"));
            (lit "choices", PyList [])]
    = PyDict d'
    /\ map fst d' = [lit "id"; lit "model"; lit "choices"]
    /\ forall k,
        k <> lit "choices" -> k <> lit "model" ->
        dict_get d' k
        = dict_get [(lit "id", PyStr (lit "a"));
                    (lit "model", PyStr (lit "gpt-4o-mini"));
                    (lit "choices", PyList [])] k.
Proof.
  apply (fixes_keep_top_level_keys (lit "m")
           [(lit "id", PyStr (lit "a"));
            (lit "model", PyStr (lit "gpt-4o-mini"));
            (lit "choices", PyList [])] _ true).
  vm_compute. reflexivity.
Defined.



(** X9: when a fix applies, [fix_sse_line] returns, and the line that it
    writes is [data: ] and ASCII JSON that parses back to the payload as
    the fixes left it: no value of the payload is lost by serialising it
    again. *)
Theorem rewritten_line_reads_back :
  forall (float_repr : pystr -> pystr) (MODEL_NAME : pystr) (x : bytes)
         (payload payload' : pyobj),
    float_repr_stable float_repr ->
    wf_str MODEL_NAME = true ->
    let line := add_space (Utf8.decode x) in
    str_startswith line (lit "data: {") = true ->
    loads float_repr (skipn 6 line) = Some payload ->
    fix_payload MODEL_NAME payload = Ok (payload', true) ->
    exists y,
      fix_sse_line float_repr MODEL_NAME x = Ok y
      /\ Utf8.decode y = lit "data: " ++ dumps_compact payload'
      /\ loads float_repr (skipn 6 (Utf8.decode y)) = Some payload'
      /\ Forall (fun b => Byte.to_N b < 128) y.
Proof.
  intros float_repr MODEL_NAME x payload payload' Hfr HM line Hs Hl Hf.
  assert (Hwf : wf_obj float_repr payload' = true).
  { apply (fix_payload_wf float_repr MODEL_NAME HM payload payload' true);
      [|exact Hf].
    apply (loads_wf float_repr (skipn 6 line) payload Hfr); [|exact Hl].
    apply scalars_skipn, add_space_scalars, decode_scalar. }
  assert (Ha : ascii_text (lit "data: " ++ dumps_compact payload')).
  { apply ascii_text_app; [repeat constructor|].
    apply (dumps_with_ascii float_repr); [repeat constructor .. | exact Hwf]. }
  destruct (encode_ascii _ Ha) as [y Hy]. exists y.
  split; [|split; [|split]].
  - unfold fix_sse_line. cbv zeta. fold line. rewrite Hs, Hl, Hf.
    exact Hy.
  - exact (decode_encode _ y Hy).
  - rewrite (decode_encode _ y Hy).
    exact (loads_dumps_wf float_repr payload' Hwf).
  - exact (encode_ascii_bytes _ y Ha Hy).
Qed.

Lemma rewritten_line_reads_back_witness :
  exists y,
    fix_sse_line repr_as_read (lit "custom-model")
      (blit "data:{'model':'gpt-4o-mini','n':[1.5,null]}") = Ok y
    /\ Utf8.decode y
       = lit "data: "
         ++ dumps_compact
              (PyDict [(lit "model", PyStr (lit "custom-model"));
                       (lit "n", PyList [PyFloat (lit "1.5"); PyNone])])
    /\ loads repr_as_read (skipn 6 (Utf8.decode y))
       = Some (PyDict [(lit "model", PyStr (lit "custom-model"));
                       (lit "n", PyList [PyFloat (lit "1.5"); PyNone])])
    /\ Forall (fun b => Byte.to_N b < 128) y.
Proof.
  apply (rewritten_line_reads_back repr_as_read (lit "custom-model")
           (blit "data:{'model':'gpt-4o-mini','n':[1.5,null]}")
           (PyDict [(lit "model", PyStr (lit "gpt-4o-mini"));
                    (lit "n", PyList [PyFloat (lit "1.5"); PyNone])])).
  - intros t Ht. unfold float_text, repr_as_read.
    rewrite Ht, str_eqb_refl. apply orb_true_r.
  - reflexivity.
  - vm_compute. reflexivity.
  - vm_compute. reflexivity.
  - vm_compute. reflexivity.
Defined.

(** ** The streaming loop *)

(** X10: a client that hangs up after any number of writes is no error:
    [_stream_sse] never lets a [BrokenPipeError] out, the client has
    received a prefix of what a client that stays receives, and the
    handler returns normally unless it ends as it does for a client that
    stays. *)
Theorem client_hangup_is_silent :
  forall (float_repr : pystr -> pystr) (MODEL_NAME : pystr) (body : bytes)
         (n : nat),
    let stays := _stream_sse float_repr MODEL_NAME body connected in
    let leaves :=
      _stream_sse float_repr MODEL_NAME body
        {| sent := []; credit := Some n |} in
    (exists t, sent (fst stays) = sent (fst leaves) ++ t)
    /\ (snd leaves = Ok tt \/ snd leaves = snd stays)
    /\ snd leaves <> Raise BrokenPipeError.
Proof.
  intros float_repr MODEL_NAME body n stays leaves.
  destruct (_stream_sse_hangup float_repr MODEL_NAME body connected
              {| sent := []; credit := Some n |} eq_refl eq_refl)
    as [H1 H2].
  split; [exact H1|]. split; [exact H2|].
  intros H.
  pose proof (_stream_sse_catches float_repr MODEL_NAME body _ _ H) as Hc.
  discriminate.
Qed.

(** X11: when the rewriter raises on a line, the loop writes what it
    wrote for the lines before it, nothing for that line or after it, no
    sentinel, and the exception leaves [_stream_sse]. *)
Theorem raising_line_ends_the_stream :
  forall (float_repr : pystr -> pystr) (MODEL_NAME : pystr) (body : bytes)
         (pre : list bytes) (raw_line : bytes) (post chunks : list bytes)
         (e : exn),
    readlines body = pre ++ raw_line :: post ->
    mapM (forwarded float_repr MODEL_NAME) pre = Ok chunks ->
    forwarded float_repr MODEL_NAME raw_line = Raise e ->
    _stream_sse float_repr MODEL_NAME body connected
    = ({| sent := List.concat chunks; credit := None |}, Raise e).
Proof.
  intros float_repr MODEL_NAME body pre raw_line post chunks e Hb Hpre Hr.
  unfold _stream_sse. rewrite Hb.
  rewrite (stream_lines_raises float_repr MODEL_NAME pre raw_line post e Hr
             chunks false connected eq_refl Hpre).
  destruct (forwarded_raises float_repr MODEL_NAME raw_line e Hr)
    as [_ Hfix].
  rewrite (fix_sse_line_not_gone float_repr MODEL_NAME _ e Hfix).
  reflexivity.
Qed.

Lemma raising_line_ends_the_stream_witness :
  _stream_sse repr_as_read []
    (blit "data: {'id':1}" ++ LF ++ blit "data: {'choices':5}" ++ LF
     ++ blit "data: [DONE]" ++ LF)
    connected
  = ({| sent := blit "data: {'id':1}" ++ LF ++ LF; credit := None |},
     Raise TypeError).
Proof.
  apply (raising_line_ends_the_stream repr_as_read []
           (blit "data: {'id':1}" ++ LF ++ blit "data: {'choices':5}" ++ LF
            ++ blit "data: [DONE]" ++ LF)
           [blit "data: {'id':1}" ++ LF]
           (blit "data: {'choices':5}" ++ LF)
           [blit "data: [DONE]" ++ LF]
           [blit "data: {'id':1}" ++ LF ++ LF]
           TypeError);
    vm_compute; reflexivity.
Defined.

(** X12: the loop does the same for a line whatever run of CR and LF ends
    it: LF, CR LF, or none at the end of the body. *)
Theorem line_ending_is_immaterial :
  forall (float_repr : pystr -> pystr) (MODEL_NAME : pystr)
         (saw_done : bool) (line ending : bytes),
    forallb is_CR_or_LF ending = true ->
    stream_line float_repr MODEL_NAME saw_done (line ++ ending)
    = stream_line float_repr MODEL_NAME saw_done line.
Proof.
  intros float_repr MODEL_NAME saw_done line ending H.
  unfold stream_line. rewrite (rstrip_crlf_app line ending H). reflexivity.
Qed.

Lemma line_ending_is_immaterial_witness :
  stream_line repr_as_read [] false (blit "data:[DONE]" ++ CR ++ LF)
  = stream_line repr_as_read [] false (blit "data:[DONE]").
Proof.
  apply (line_ending_is_immaterial repr_as_read [] false
           (blit "data:[DONE]") (CR ++ LF)).
  reflexivity.
Defined.

(** X13: a body of lines of other fields than [data], each UTF-8 and
    ended by LF, reaches the client byte for byte, with the sentinel
    after it. *)
Theorem other_fields_pass_through :
  forall (float_repr : pystr -> pystr) (MODEL_NAME : pystr)
         (lines : list bytes),
    Forall other_field lines ->
    let body := List.concat (map (fun x => x ++ LF) lines) in
    _stream_sse float_repr MODEL_NAME body connected
    = ({| sent := body ++ DONE; credit := None |}, Ok tt).
Proof.
  intros float_repr MODEL_NAME lines H body.
  assert (Hl : readlines body = map (fun x => x ++ LF) lines).
  { apply readlines_lines. eapply Forall_impl; [|exact H].
    intros x (_ & _ & _ & Hx). exact Hx. }
  destruct (forwarded_other_fields float_repr MODEL_NAME lines H)
    as [Hm He].
  unfold _stream_sse. rewrite Hl.
  rewrite (stream_lines_forwarded float_repr MODEL_NAME _ _ false connected
             eq_refl Hm).
  rewrite He. reflexivity.
Qed.

Lemma other_fields_pass_through_witness :
  _stream_sse repr_as_read (lit "custom-model")
    (List.concat (map (fun x => x ++ LF)
                    [blit ": keep-alive"; blit "event: ping"; []]))
    connected
  = ({| sent :=
          List.concat (map (fun x => x ++ LF)
                         [blit ": keep-alive"; blit "event: ping"; []])
          ++ DONE;
        credit := None |}, Ok tt).
Proof.
  apply (other_fields_pass_through repr_as_read (lit "custom-model")
           [blit ": keep-alive"; blit "event: ping"; []]).
  repeat constructor.
Defined.

(** ** The request body *)



(** X15: the body that [_proxy] forwards is the body it read, unless a
    replacement model is configured and the body is a JSON object whose
    [model] is a string that starts with [gpt-4o-mini]; then it is the
    serialisation of the object with the replacement as its [model]. *)
Theorem request_body_is_kept_or_rewritten :
  forall (float_repr : pystr -> pystr) (MODEL_NAME : pystr)
         (decode_detected : bytes -> option pystr)
         (body body' : option bytes),
    request_body float_repr MODEL_NAME decode_detected body = Ok body' ->
    body' = body
    \/ (MODEL_NAME <> []
        /\ exists b d m b',
            body = Some b
            /\ loads_bytes float_repr decode_detected b = Some (PyDict d)
            /\ dict_get d (lit "model") = Some (PyStr m)
            /\ str_startswith m (lit "gpt-4o-mini") = true
            /\ Utf8.encode
                 (dumps_default
                    (PyDict (dict_set d (lit "model") (PyStr MODEL_NAME))))
               = Ok b'
            /\ body' = Some b').
Proof.
  intros float_repr MODEL_NAME decode_detected body body'.
  unfold request_body.
  destruct body as [[|b0 b]|];
    try (intros H; injection H as <-; left; reflexivity).
  destruct MODEL_NAME as [|m0 m];
    try (intros H; injection H as <-; left; reflexivity).
  destruct (loads_bytes float_repr decode_detected (b0 :: b))
    as [req|] eqn:El;
    try (intros H; injection H as <-; left; reflexivity).
  destruct req as [| | | | | |d]; cbn [py_get bind]; try discriminate.
  destruct (dict_get d (lit "model")) as [[| | | |s| |]|] eqn:Eg;
    cbn [py_startswith bind]; try discriminate.
  - destruct (str_startswith s (lit "gpt-4o-mini")) eqn:Es;
      cbn [py_setitem bind].
    + destruct (Utf8.encode _) as [b'|e'] eqn:Ee; cbn [bind].
      * intros H. injection H as <-. right. split; [discriminate|].
        exists (b0 :: b), d, s, b'. auto 10.
      * destruct (is_ValueError e'); [|discriminate].
        intros H. injection H as <-. left. reflexivity.
    + intros H. injection H as <-. left. reflexivity.
  - change (str_startswith [] (lit "gpt-4o-mini")) with false.
    intros H. injection H as <-. left. reflexivity.
Qed.

Lemma request_body_is_kept_or_rewritten_witness :
  Some (blit "{'model':'gpt-4','messages':[]}")
  = Some (blit "{'model':'gpt-4','messages':[]}")
  \/ (lit "custom-model" <> []
      /\ exists b d m b',
          Some (blit "{'model':'gpt-4','messages':[]}") = Some b
          /\ loads_bytes repr_as_read decode_ascii b = Some (PyDict d)
          /\ dict_get d (lit "model") = Some (PyStr m)
          /\ str_startswith m (lit "gpt-4o-mini") = true
          /\ Utf8.encode
               (dumps_default
                  (PyDict (dict_set d (lit "model")
                             (PyStr (lit "custom-model")))))
             = Ok b'
          /\ Some (blit "{'model':'gpt-4','messages':[]}") = Some b').
Proof.
  apply (request_body_is_kept_or_rewritten repr_as_read (lit "custom-model")
           decode_ascii (Some (blit "{'model':'gpt-4','messages':[]}"))).
  vm_compute. reflexivity.
Defined.

(** X16: when the request body is rewritten, what is forwarded is ASCII
    JSON that parses back to the request object with the replacement as
    its [model]: every other key keeps its place and its value.  The
    body is one that decodes to a text without surrogates, as UTF-8
    does. *)
Theorem rewritten_request_reads_back :
  forall (float_repr : pystr -> pystr) (MODEL_NAME : pystr)
         (decode_detected : bytes -> option pystr)
         (body : bytes) (text : pystr) (d : pydict) (m : pystr),
    float_repr_stable float_repr ->
    wf_str MODEL_NAME = true ->
    MODEL_NAME <> [] ->
    body <> [] ->
    decode_detected body = Some text ->
    scalars text ->
    loads float_repr text = Some (PyDict d) ->
    dict_get d (lit "model") = Some (PyStr m) ->
    str_startswith m (lit "gpt-4o-mini") = true ->
    exists body',
      request_body float_repr MODEL_NAME decode_detected (Some body)
      = Ok (Some body')
      /\ loads float_repr (Utf8.decode body')
         = Some (PyDict (dict_set d (lit "model") (PyStr MODEL_NAME)))
      /\ Forall (fun b => Byte.to_N b < 128) body'.
Proof.
  intros float_repr MODEL_NAME decode_detected body text d m
         Hfr HM HMne Hbne Hdec Hsc Hl Hg Hm.
  pose proof (loads_wf float_repr text (PyDict d) Hfr Hsc Hl) as Hwf.
  assert (Hwf' : wf_obj float_repr
                   (PyDict (dict_set d (lit "model") (PyStr MODEL_NAME)))
                 = true).
  { apply (dict_set_wf float_repr d (lit "model") (PyStr MODEL_NAME) Hwf);
      [reflexivity | exact HM]. }
  assert (Ha : ascii_text
                 (dumps_default
                    (PyDict (dict_set d (lit "model") (PyStr MODEL_NAME))))).
  { apply (dumps_with_ascii float_repr);
      [repeat constructor .. | exact Hwf']. }
  destruct (encode_ascii _ Ha) as [body' He]. exists body'.
  split; [|split].
  - destruct body as [|b0 body]; [congruence|].
    destruct MODEL_NAME as [|c0 M]; [congruence|].
    unfold request_body, loads_bytes. rewrite Hdec, Hl.
    cbn [py_get bind]. rewrite Hg. cbn [py_startswith bind]. rewrite Hm.
    cbn [py_setitem bind]. rewrite He. reflexivity.
  - rewrite (decode_encode _ body' He).
    exact (loads_dumps_default float_repr _ Hwf').
  - exact (encode_ascii_bytes _ body' Ha He).
Qed.

Lemma rewritten_request_reads_back_witness :
  exists body',
    request_body repr_as_read (lit "custom-model") decode_ascii
      (Some (blit "{'model':'gpt-4o-mini','temperature':0.5,'messages':[]}"))
    = Ok (Some body')
    /\ loads repr_as_read (Utf8.decode body')
       = Some (PyDict
                 (dict_set [(lit "model", PyStr (lit "gpt-4o-mini"));
                            (lit "temperature", PyFloat (lit "0.5"));
                            (lit "messages", PyList [])]
                    (lit "model") (PyStr (lit "custom-model"))))
    /\ Forall (fun b => Byte.to_N b < 128) body'.
Proof.
  apply (rewritten_request_reads_back repr_as_read (lit "custom-model")
           decode_ascii
           (blit "{'model':'gpt-4o-mini','temperature':0.5,'messages':[]}")
           (Utf8.decode
              (blit "{'model':'gpt-4o-mini','temperature':0.5,'messages':[]}"))
           _ (lit "gpt-4o-mini")).
  - intros t Ht. unfold float_text, repr_as_read.
    rewrite Ht, str_eqb_refl. apply orb_true_r.
  - reflexivity.
  - vm_compute. discriminate.
  - vm_compute. discriminate.
  - reflexivity.
  - apply decode_scalar.
  - vm_compute. reflexivity.
  - vm_compute. reflexivity.
  - vm_compute. reflexivity.
Defined.

(** ** The framing of events *)

(** X17: [fix_sse_line] brings in no control byte: a byte below 32 that
    is nowhere in the line it is given, such as LF or CR, is nowhere in
    the line it returns, so that a fixed line is still one line. *)
Theorem no_new_control_byte :
  forall (float_repr : pystr -> pystr) (MODEL_NAME : pystr) (x y : bytes)
         (k : N),
    float_repr_stable float_repr ->
    wf_str MODEL_NAME = true ->
    k < 32 ->
    Forall (fun b => Byte.to_N b <> k) x ->
    fix_sse_line float_repr MODEL_NAME x = Ok y ->
    Forall (fun b => Byte.to_N b <> k) y.
Proof.
  intros float_repr MODEL_NAME x y k Hfr HM Hk Hx.
  assert (Hk' : k < 0x80) by lia.
  pose proof (add_space_scalars _ (decode_scalar x)) as Hsc.
  pose proof (add_space_keeps_out k _ Hk (decode_keeps_out k x Hk' Hx))
    as Hline.
  unfold fix_sse_line. cbv zeta.
  remember (add_space (Utf8.decode x)) as line eqn:Eline. clear Eline Hx x.
  destruct (negb _); [apply (encode_keeps_out k line y Hk' Hline)|].
  destruct (loads float_repr (skipn 6 line)) as [payload|] eqn:El;
    [|apply (encode_keeps_out k line y Hk' Hline)].
  destruct (fix_payload MODEL_NAME payload) as [[p' c]|] eqn:Ef;
    cbn [bind]; [|discriminate].
  destruct c; [|apply (encode_keeps_out k line y Hk' Hline)].
  apply (encode_keeps_out k _ y Hk').
  apply (no_control_keeps_out k _ Hk).
  apply no_control_app;
    [repeat (constructor; [discriminate|]); constructor|].
  apply (dumps_with_no_control float_repr);
    try (repeat (constructor; [discriminate|]); constructor).
  apply (fix_payload_wf float_repr MODEL_NAME HM payload p' true);
    [|exact Ef].
  apply (loads_wf float_repr (skipn 6 line) payload Hfr);
    [apply scalars_skipn; exact Hsc | exact El].
Qed.

Lemma no_new_control_byte_witness :
  fix_sse_line repr_as_read []
    (blit "data:{'choices':[{'delta':{'tool_calls':[{'id':'a\nb'}]}}]}")
  = Ok (blit "data: {'choices':[{'delta':{'tool_calls':[{'id':'a\nb','index':0}]}}]}")
  /\ Forall (fun b => Byte.to_N b <> 10)
       (blit "data: {'choices':[{'delta':{'tool_calls':[{'id':'a\nb','index':0}]}}]}").
Proof.
  split; [vm_compute; reflexivity|].
  apply (no_new_control_byte repr_as_read []
           (blit "data:{'choices':[{'delta':{'tool_calls':[{'id':'a\nb'}]}}]}")
           _ 10).
  - intros t Ht. unfold float_text, repr_as_read.
    rewrite Ht, str_eqb_refl. apply orb_true_r.
  - reflexivity.
  - reflexivity.
  - vm_compute. repeat (constructor; [discriminate|]). constructor.
  - vm_compute. reflexivity.
Defined.


